(** * ai-models-vs-commits: the commit-count pipeline, embedded and verified

    A shallow embedding of the Python sources

      - [llm_events.py]        the release catalogue and its range filter,
      - [visualize.py]         outlier smoothing, CSV loading, label lanes,
      - [fetch_github_data.py] the resumable per-day scan with its checkpoint,
      - [fetch_bigquery.py]    the bulk query and the cache file writer,
      - [main.py]              the merge of a bulk result into the cache,

    followed by the properties of these functions. *)

From Stdlib Require Import ZArith List Bool Ascii String Lia Floats.
From stdpp Require Import base option list gmap strings sorting.

Local Open Scope Z_scope.
#[local] Set Warnings "-inexact-float".

(* ===================================================================== *)
(** ** [datetime.date] as the sources use it *)
(* ===================================================================== *)

Module Dates.

(** A [datetime.date] object: the three fields it stores. *)
Record date := mkdate { year : Z; month : Z; day : Z }.

#[export] Instance date_eq_dec : EqDecision date.
Proof. solve_decision. Defined.

Definition MINYEAR : Z := 1.
Definition MAXYEAR : Z := 9999.

Definition is_leap (y : Z) : bool :=
  (y mod 4 =? 0) && (negb (y mod 100 =? 0) || (y mod 400 =? 0)).

Definition days_in_month (y m : Z) : Z :=
  if m =? 2 then (if is_leap y then 29 else 28)
  else if (m =? 4) || (m =? 6) || (m =? 9) || (m =? 11) then 30
  else 31.

(** The check of the [date(y, m, d)] constructor. *)
Definition valid (d : date) : bool :=
  (MINYEAR <=? year d) && (year d <=? MAXYEAR) &&
  (1 <=? month d) && (month d <=? 12) &&
  (1 <=? day d) && (day d <=? days_in_month (year d) (month d)).

(** [a <= b] on dates compares (year, month, day) lexicographically. *)
Definition le (a b : date) : bool :=
  if year a <? year b then true
  else if year b <? year a then false
  else if month a <? month b then true
  else if month b <? month a then false
  else day a <=? day b.

Definition days_before_year (y : Z) : Z :=
  let y1 := y - 1 in y1 * 365 + y1 / 4 - y1 / 100 + y1 / 400.

Definition DAYS_BEFORE_MONTH : list Z :=
  [0; 31; 59; 90; 120; 151; 181; 212; 243; 273; 304; 334].

Definition days_before_month (y m : Z) : Z :=
  nth (Z.to_nat (m - 1)) DAYS_BEFORE_MONTH 0
  + (if (2 <? m) && is_leap y then 1 else 0).

(** [date.toordinal()]: 0001-01-01 is day 1. *)
Definition toordinal (d : date) : Z :=
  days_before_year (year d) + days_before_month (year d) (month d) + day d.

(** [(a - b).days] *)
Definition days_between (a b : date) : Z := toordinal a - toordinal b.

(** [d + timedelta(days=1)]; [None] is the [OverflowError] past
    9999-12-31. *)
Definition add_one_day (d : date) : option date :=
  if day d <? days_in_month (year d) (month d)
  then Some (mkdate (year d) (month d) (day d + 1))
  else if month d <? 12 then Some (mkdate (year d) (month d + 1) 1)
  else if year d <? MAXYEAR then Some (mkdate (year d + 1) 1 1)
  else None.

Definition digit (n : Z) : ascii := ascii_of_nat (48 + Z.to_nat n).

(** ["%02d"] and ["%04d"] on the values a date can hold. *)
Definition pad2 (n : Z) : string :=
  String (digit (n / 10)) (String (digit (n mod 10)) EmptyString).

Definition pad4 (n : Z) : string :=
  String (digit (n / 1000)) (String (digit (n / 100 mod 10))
    (String (digit (n / 10 mod 10)) (String (digit (n mod 10)) EmptyString))).

(** [d.isoformat()], that is YYYY-MM-DD. *)
Definition isoformat (d : date) : string :=
  pad4 (year d) +:+ "-" +:+ pad2 (month d) +:+ "-" +:+ pad2 (day d).

(** [d.strftime("%Y-%m")], four digits for the year (what the C library
    prints for a year below 1000 is left to the platform). *)
Definition month_key (d : date) : string :=
  pad4 (year d) +:+ "-" +:+ pad2 (month d).

End Dates.

Export Dates.

(* ===================================================================== *)
(** ** llm_events.py *)
(* ===================================================================== *)

Module LlmEvents.

(** One entry of [get_events_as_dicts()]: the dict with the keys
    "model", "org", "date" and "color". *)
Record event := mkevent
  { ev_model : string; ev_org : string; ev_date : date; ev_color : string }.

#[export] Instance event_eq_dec : EqDecision event.
Proof. solve_decision. Defined.

Definition ORG_COLORS : gmap string string :=
  list_to_map
    [ ("OpenAI", "#10a37f");
      ("Anthropic", "#c97d4e");
      ("Google", "#4285f4");
      ("Meta", "#1877f2");
      ("Mistral", "#7c3aed");
      ("Microsoft", "#00a4ef");
      ("Cohere", "#d946ef");
      ("xAI", "#000000");
      ("DeepSeek", "#e11d48");
      ("Other", "#6b7280") ]%string.

Definition LLM_RELEASES : list (string * string * date) :=
  [ ("GPT-3"%string, "OpenAI"%string, mkdate 2020 6 11);
    ("GitHub Copilot"%string, "Microsoft"%string, mkdate 2021 6 29);
    ("CodeX"%string, "OpenAI"%string, mkdate 2021 8 10);
    ("ChatGPT"%string, "OpenAI"%string, mkdate 2022 11 30);
    ("Llama 1"%string, "Meta"%string, mkdate 2023 2 24);
    ("GPT-4"%string, "OpenAI"%string, mkdate 2023 3 14);
    ("Claude 1"%string, "Anthropic"%string, mkdate 2023 3 14);
    ("Bard"%string, "Google"%string, mkdate 2023 3 21);
    ("Falcon 40B"%string, "Other"%string, mkdate 2023 5 23);
    ("PaLM 2"%string, "Google"%string, mkdate 2023 5 10);
    ("Claude 2"%string, "Anthropic"%string, mkdate 2023 7 11);
    ("Llama 2"%string, "Meta"%string, mkdate 2023 7 18);
    ("Mistral 7B"%string, "Mistral"%string, mkdate 2023 9 27);
    ("GPT-4 Turbo"%string, "OpenAI"%string, mkdate 2023 11 6);
    ("Gemini 1.0"%string, "Google"%string, mkdate 2023 12 6);
    ("Mixtral 8x7B"%string, "Mistral"%string, mkdate 2023 12 11);
    ("Gemini 1.5 Pro"%string, "Google"%string, mkdate 2024 2 15);
    ("Claude 3 Opus"%string, "Anthropic"%string, mkdate 2024 3 4);
    ("DBRX"%string, "Other"%string, mkdate 2024 3 27);
    ("Llama 3 8/70B"%string, "Meta"%string, mkdate 2024 4 18);
    ("GPT-4o"%string, "OpenAI"%string, mkdate 2024 5 13);
    ("Claude 3.5 Sonnet"%string, "Anthropic"%string, mkdate 2024 6 20);
    ("Llama 3.1 405B"%string, "Meta"%string, mkdate 2024 7 23);
    ("Mistral Large 2"%string, "Mistral"%string, mkdate 2024 7 24);
    ("GPT-4o mini"%string, "OpenAI"%string, mkdate 2024 7 18);
    ("Grok-2"%string, "xAI"%string, mkdate 2024 8 13);
    ("o1-preview"%string, "OpenAI"%string, mkdate 2024 9 12);
    ("Claude 3.5 Haiku"%string, "Anthropic"%string, mkdate 2024 10 22);
    ("Llama 3.2"%string, "Meta"%string, mkdate 2024 9 25);
    ("Gemini 2.0 Flash"%string, "Google"%string, mkdate 2024 12 11);
    ("DeepSeek V3"%string, "DeepSeek"%string, mkdate 2024 12 26);
    ("DeepSeek R1"%string, "DeepSeek"%string, mkdate 2025 1 20);
    ("o3-mini"%string, "OpenAI"%string, mkdate 2025 1 31);
    ("Claude 3.7 Sonnet"%string, "Anthropic"%string, mkdate 2025 2 24);
    ("Gemini 2.0 Pro"%string, "Google"%string, mkdate 2025 2 5);
    ("Llama 4"%string, "Meta"%string, mkdate 2025 4 5);
    ("GPT-4.1"%string, "OpenAI"%string, mkdate 2025 4 14);
    ("Claude 4 Sonnet"%string, "Anthropic"%string, mkdate 2025 5 22);
    ("Gemini 2.5 Pro"%string, "Google"%string, mkdate 2025 3 25) ].

(** [ORG_COLORS.get(org, ORG_COLORS["Other"])] *)
Definition org_color (org : string) : string :=
  default (default ""%string (ORG_COLORS !! "Other"%string)) (ORG_COLORS !! org).

Definition get_events_as_dicts : list event :=
  map (fun '(name, org, release_date) =>
         mkevent name org release_date (org_color org))
      LLM_RELEASES.

(** [start <= e["date"] <= end] *)
Definition in_range (start end_ : date) (e : event) : bool :=
  Dates.le start (ev_date e) && Dates.le (ev_date e) end_.

Definition get_events_in_range (start end_ : date) : list event :=
  List.filter (in_range start end_) get_events_as_dicts.

End LlmEvents.

Export LlmEvents.

(* ===================================================================== *)
(** ** visualize.py: the label lanes *)
(* ===================================================================== *)

Module Lanes.

Definition ANNOTATION_LEVELS : nat := 6.
Definition MIN_DAY_GAP : Z := 20.

(** The test of the inner loop:
    [last is None or (ev_date - last).days >= min_day_gap]. *)
Definition lane_ok (level_last : gmap nat date) (d : date)
    (min_day_gap : Z) (lvl : nat) : bool :=
  match level_last !! lvl with
  | None => true
  | Some last => min_day_gap <=? days_between d last
  end.

(** [for lvl in range(ANNOTATION_LEVELS): ... break]; [None] is
    [assigned is None] after the loop. *)
Definition first_lane (level_last : gmap nat date) (d : date)
    (min_day_gap : Z) : option nat :=
  List.find (lane_ok level_last d min_day_gap) (seq 0 ANNOTATION_LEVELS).

(** The outer loop, with the dict [level_last] threaded through. *)
Fixpoint assign_from (level_last : gmap nat date) (events : list event)
    (min_day_gap : Z) : list nat :=
  match events with
  | [] => []
  | ev :: rest =>
      let assigned := default 0%nat (first_lane level_last (ev_date ev) min_day_gap) in
      assigned :: assign_from (<[assigned := ev_date ev]> level_last) rest min_day_gap
  end.

Definition assign_levels (events : list event) (min_day_gap : Z) : list nat :=
  assign_from ∅ events min_day_gap.

(** The dict [level_last] after the loop has placed [events]. *)
Fixpoint lanes_after (level_last : gmap nat date) (events : list event)
    (min_day_gap : Z) : gmap nat date :=
  match events with
  | [] => level_last
  | ev :: rest =>
      let assigned := default 0%nat (first_lane level_last (ev_date ev) min_day_gap) in
      lanes_after (<[assigned := ev_date ev]> level_last) rest min_day_gap
  end.

(** The date last placed in lane [lvl], read off the events and the lanes
    they were given: the date of the last event that has lane [lvl]. *)
Fixpoint last_placed (events : list event) (levels : list nat) (lvl : nat)
    : option date :=
  match events, levels with
  | ev :: es, l :: ls =>
      match last_placed es ls lvl with
      | Some d => Some d
      | None => if (l =? lvl)%nat then Some (ev_date ev) else None
      end
  | _, _ => None
  end.

(** A lane is free for a date: nothing placed in it yet, or the last date
    placed in it at least the gap before. *)
Definition lane_free (last : option date) (d : date) (min_day_gap : Z) : Prop :=
  match last with
  | None => True
  | Some l => min_day_gap <= days_between d l
  end.

(** Events in chronological order, as Python compares dates. *)
Definition chronological (events : list event) : Prop :=
  Sorted (fun a b => Dates.le (ev_date a) (ev_date b) = true) events.

(** What [plot] does with the events it is given: [assign_levels(events)]
    with the default gap. *)
Definition plot_levels (events : list event) : list nat :=
  assign_levels events MIN_DAY_GAP.

End Lanes.

Export Lanes.

(* ===================================================================== *)
(** ** Python's [str(int)], [int(str)] and the [csv] module (excel dialect) *)
(* ===================================================================== *)

Module Csv.

Definition LF : ascii := "010"%char.
Definition CR : ascii := "013"%char.
Definition COMMA : ascii := ","%char.
Definition QUOTE : ascii := "034"%char.
Definition NUL : ascii := "000"%char.

(** *** Decimal integers *)

Definition is_digit (c : ascii) : bool :=
  let n := nat_of_ascii c in (48 <=? n)%nat && (n <=? 57)%nat.

Definition digit_val (c : ascii) : Z := Z.of_nat (nat_of_ascii c) - 48.

(** The decimal digits of a non-negative number, most significant first;
    the fuel is the bit length, more than the number of digits. *)
Fixpoint digits_fuel (fuel : nat) (n : Z) (acc : string) : string :=
  match fuel with
  | O => acc
  | S f =>
      let acc' := String (digit (n mod 10)) acc in
      if n <? 10 then acc' else digits_fuel f (n / 10) acc'
  end.

Definition digits (n : Z) : string :=
  digits_fuel (S (Z.to_nat (Z.log2 n))) n EmptyString.

(** [str(n)] for an [int]. *)
Definition str_int (n : Z) : string :=
  if n <? 0 then String "-"%char (digits (- n)) else digits n.

(** Digits with single underscores between them, as [int()] accepts. *)
Fixpoint parse_digits (acc : Z) (after_digit : bool) (s : string) : option Z :=
  match s with
  | EmptyString => if after_digit then Some acc else None
  | String c r =>
      if is_digit c then parse_digits (10 * acc + digit_val c) true r
      else if Ascii.eqb c "_"%char && after_digit then
        match r with
        | EmptyString => None
        | String _ _ => parse_digits acc false r
        end
      else None
  end.

(** The value of a string of digits read after the value [a]. *)
Fixpoint dec_val (a : Z) (s : string) : Z :=
  match s with
  | EmptyString => a
  | String c r => dec_val (10 * a + digit_val c) r
  end.

Fixpoint all_digits (s : string) : bool :=
  match s with
  | EmptyString => true
  | String c r => is_digit c && all_digits r
  end.

(** The characters [int()] takes for blanks at the two ends of its
    argument: the space and the controls 9 to 13 (tab, LF, VT, FF, CR),
    and, turned into spaces before the number is read, the blanks
    outside ASCII, which among the characters below 256 are U+0085 and
    U+00A0.  The separators 28 to 31 are not among them, though
    [str.strip()] removes them. *)
Definition is_space (c : ascii) : bool :=
  let n := nat_of_ascii c in
  (n =? 32)%nat || ((9 <=? n)%nat && (n <=? 13)%nat) ||
  (n =? 133)%nat || (n =? 160)%nat.

Fixpoint lstrip (s : string) : string :=
  match s with
  | String c r => if is_space c then lstrip r else s
  | EmptyString => EmptyString
  end.

Fixpoint rstrip (s : string) : string :=
  match s with
  | EmptyString => EmptyString
  | String c r =>
      match rstrip r with
      | EmptyString => if is_space c then EmptyString else String c EmptyString
      | r' => String c r'
      end
  end.

(** [int(s)] for a [str], given by the code points of its characters,
    all below 256 here: blanks at the two ends, a sign, decimal digits
    with single underscores between them; [None] is the [ValueError].
    No character from 128 to 255 is a decimal digit.  Characters from 256
    on (which include other blanks and digits) are outside the type, and
    the limit on the number of digits (4300 unless the interpreter is
    told otherwise) is left out: a statement about arbitrary text asks
    for [ascii_only] text of at most [MAX_STR_DIGITS] characters. *)
Definition int_of_str (s : string) : option Z :=
  match rstrip (lstrip s) with
  | EmptyString => None
  | String c r as t =>
      if Ascii.eqb c "-"%char then Z.opp <$> parse_digits 0 false r
      else if Ascii.eqb c "+"%char then parse_digits 0 false r
      else parse_digits 0 false t
  end.



(** *** [csv.writer] with the default dialect: [QUOTE_MINIMAL],
    doubled quotes, line terminator CR LF. *)

Definition special (c : ascii) : bool :=
  Ascii.eqb c COMMA || Ascii.eqb c QUOTE || Ascii.eqb c CR || Ascii.eqb c LF.

Fixpoint has_special (s : string) : bool :=
  match s with
  | EmptyString => false
  | String c r => special c || has_special r
  end.

(** A field that is written as it is and read back as it is: no comma,
    quote, CR, LF or NUL in it. *)
Definition plain_char (c : ascii) : bool := negb (special c) && negb (Ascii.eqb c NUL).

Fixpoint plain (s : string) : bool :=
  match s with
  | EmptyString => true
  | String c r => plain_char c && plain r
  end.

Fixpoint double_quotes (s : string) : string :=
  match s with
  | EmptyString => EmptyString
  | String c r =>
      if Ascii.eqb c QUOTE then String QUOTE (String QUOTE (double_quotes r))
      else String c (double_quotes r)
  end.

Definition quoted (s : string) : string :=
  String QUOTE (double_quotes s +:+ String QUOTE EmptyString).

Definition write_field (s : string) : string :=
  if has_special s then quoted s else s.

Fixpoint join_fields (fs : list string) : string :=
  match fs with
  | [] => EmptyString
  | [f] => f
  | f :: rest => f +:+ String COMMA (join_fields rest)
  end.

(** [writer.writerow(fields)]: the text written to a file opened with
    [newline=""], so nothing is translated.  A row of one empty field is
    written quoted. *)
Definition writerow (fields : list string) : string :=
  (match fields with
   | [EmptyString] => quoted EmptyString
   | _ => join_fields (map write_field fields)
   end) +:+ String CR (String LF EmptyString).

(** *** Reading: text mode with universal newlines, then [csv.reader] *)

(** What [open(path)] does to the bytes of the file: CR LF and a lone CR
    both become LF. *)
Fixpoint universal_newlines (s : string) : string :=
  match s with
  | EmptyString => EmptyString
  | String c r =>
      if Ascii.eqb c CR then
        match r with
        | String c' r' =>
            if Ascii.eqb c' LF then String LF (universal_newlines r')
            else String LF (universal_newlines r)
        | EmptyString => String LF EmptyString
        end
      else String c (universal_newlines r)
  end.

(** Iterating over the file: the lines, each with its LF (the last one
    may lack it). *)
Fixpoint file_lines (s : string) : list string :=
  match s with
  | EmptyString => []
  | String c r =>
      if Ascii.eqb c LF then String LF EmptyString :: file_lines r
      else
        match file_lines r with
        | [] => [String c EmptyString]
        | line :: rest => String c line :: rest
        end
  end.

Inductive parser_state :=
| START_RECORD | START_FIELD | IN_FIELD
| IN_QUOTED_FIELD | QUOTE_IN_QUOTED_FIELD | EAT_CRNL.

(** The reader object: its state, the fields of the record so far and the
    characters of the field so far. *)
Record reader := mkreader
  { state : parser_state; fields : list string; field : string }.

Definition parse_reset : reader := mkreader START_RECORD [] EmptyString.

Definition parse_save_field (r : reader) : reader :=
  mkreader (state r) (fields r ++ [field r]) EmptyString.

Definition parse_add_char (c : ascii) (r : reader) : reader :=
  mkreader (state r) (fields r) (field r +:+ String c EmptyString).

Definition set_state (s : parser_state) (r : reader) : reader :=
  mkreader s (fields r) (field r).

Definition is_newline (c : ascii) : bool := Ascii.eqb c LF || Ascii.eqb c CR.

(** [parse_process_char]; the character [None] is the end-of-line signal
    sent after each line, a result [None] is [csv.Error]. *)
Definition process_start_field (c : option ascii) (r : reader) : option reader :=
  match c with
  | None => Some (set_state START_RECORD (parse_save_field r))
  | Some c =>
      if is_newline c then Some (set_state EAT_CRNL (parse_save_field r))
      else if Ascii.eqb c QUOTE then Some (set_state IN_QUOTED_FIELD r)
      else if Ascii.eqb c COMMA then Some (parse_save_field r)
      else Some (set_state IN_FIELD (parse_add_char c r))
  end.

Definition parse_process_char (c : option ascii) (r : reader) : option reader :=
  match state r with
  | START_RECORD =>
      match c with
      | None => Some r
      | Some c' =>
          if is_newline c' then Some (set_state EAT_CRNL r)
          else process_start_field c (set_state START_FIELD r)
      end
  | START_FIELD => process_start_field c r
  | IN_FIELD =>
      match c with
      | None => Some (set_state START_RECORD (parse_save_field r))
      | Some c =>
          if is_newline c then Some (set_state EAT_CRNL (parse_save_field r))
          else if Ascii.eqb c COMMA then Some (set_state START_FIELD (parse_save_field r))
          else Some (parse_add_char c r)
      end
  | IN_QUOTED_FIELD =>
      match c with
      | None => Some r
      | Some c =>
          if Ascii.eqb c QUOTE then Some (set_state QUOTE_IN_QUOTED_FIELD r)
          else Some (parse_add_char c r)
      end
  | QUOTE_IN_QUOTED_FIELD =>
      match c with
      | None => Some (set_state START_RECORD (parse_save_field r))
      | Some c =>
          if Ascii.eqb c QUOTE then Some (set_state IN_QUOTED_FIELD (parse_add_char c r))
          else if Ascii.eqb c COMMA then Some (set_state START_FIELD (parse_save_field r))
          else if is_newline c then Some (set_state EAT_CRNL (parse_save_field r))
          else Some (set_state IN_FIELD (parse_add_char c r))
      end
  | EAT_CRNL =>
      match c with
      | None => Some (set_state START_RECORD r)
      | Some c => if is_newline c then Some r else None
      end
  end.

(** The characters of a line; a NUL in it is an error. *)
Fixpoint process_chars (line : string) (r : reader) : option reader :=
  match line with
  | EmptyString => Some r
  | String c rest =>
      if Ascii.eqb c NUL then None
      else r' ← parse_process_char (Some c) r; process_chars rest r'
  end.

(** One line, then the end-of-line signal. *)
Definition process_line (line : string) (r : reader) : option reader :=
  r' ← process_chars line r; parse_process_char None r'.

(** [list(csv.reader(lines))]: a record ends when a line leaves the
    parser in [START_RECORD]; at the end of the input a pending field or
    an open quoted field still gives a last record. *)
Fixpoint read_records (lines : list string) (r : reader) : option (list (list string)) :=
  match lines with
  | [] =>
      match field r, state r with
      | EmptyString, IN_QUOTED_FIELD | String _ _, _ =>
          Some [fields (parse_save_field r)]
      | EmptyString, _ => Some []
      end
  | line :: rest =>
      r' ← process_line line r;
      match state r' with
      | START_RECORD => cons (fields r') <$> read_records rest parse_reset
      | _ => read_records rest r'
      end
  end.

Definition csv_reader (text : string) : option (list (list string)) :=
  read_records (file_lines (universal_newlines text)) parse_reset.

(** [dict(zip(fieldnames, row))[key]]; for a repeated field name the
    last column wins.  [None]: no such column in this row. *)
Fixpoint zip_lookup (key : string) (fieldnames row : list string) : option string :=
  match fieldnames, row with
  | f :: fs, v :: vs =>
      match zip_lookup key fs vs with
      | Some v' => Some v'
      | None => if String.eqb f key then Some v else None
      end
  | _, _ => None
  end.

(** [csv.DictReader]: the first record names the columns, empty records
    after it are skipped.  Each row is given as the function that looks a
    column up. *)
Definition dict_reader (text : string) : option (list (string -> option string)) :=
  recs ← csv_reader text;
  match recs with
  | [] => Some []
  | fieldnames :: rows =>
      Some (map (fun row key => zip_lookup key fieldnames row)
                (List.filter (fun row => negb (bool_decide (row = []))) rows))
  end.

End Csv.

(* ===================================================================== *)
(** ** The cache file [data/monthly_commits.csv] *)
(* ===================================================================== *)

Module CacheFile.
Import Csv.

(** [sorted(xs)] on strings: ascending in the order of [str], which
    compares character codes. *)
Definition sorted (xs : list string) : list string := merge_sort String.le xs.

(** A month key of the form YYYY-MM, month 01 to 12 (the pattern of
    [_validate_month] in [main.py]). *)
Definition wf_month (s : string) : bool :=
  match s with
  | String a (String b (String c (String d (String sep
      (String m1 (String m2 EmptyString)))))) =>
      is_digit a && is_digit b && is_digit c && is_digit d
      && Ascii.eqb sep "-"%char && is_digit m1 && is_digit m2
      && (1 <=? 10 * digit_val m1 + digit_val m2)
      && (10 * digit_val m1 + digit_val m2 <=? 12)
  | _ => false
  end.

(** The cache holds months of the form YYYY-MM only. *)
Definition well_formed (totals : gmap string Z) : Prop :=
  forall k, k ∈ dom totals -> wf_month k = true.

(** One data row: [writer.writerow([month, totals[month]])]. *)
Definition data_row (totals : gmap string Z) (month : string) : string :=
  writerow [month; str_int (totals !!! month)].

Fixpoint concat_rows (rows : list string) : string :=
  match rows with
  | [] => EmptyString
  | r :: rest => r +:+ concat_rows rest
  end.

(** [save_csv(totals)]: the text of the file it writes (the same function
    in [fetch_github_data.py] and in [fetch_bigquery.py]). *)
Definition save_csv (totals : gmap string Z) : string :=
  writerow ["month"; "commits"]%string
  +:+ concat_rows (map (data_row totals) (sorted (elements (dom totals)))).

(** [totals[row["month"]] = int(row["commits"])]; [None] is the exception
    of a missing column or of [int()].  (A row too short to have a month
    gives the key [None], which [dict[str, int]] excludes: an error here.) *)
Definition load_row (totals : gmap string Z) (row : string -> option string)
    : option (gmap string Z) :=
  month ← row "month"%string;
  commits ← row "commits"%string;
  n ← int_of_str commits;
  Some (<[month := n]> totals).

Fixpoint load_rows (rows : list (string -> option string)) (totals : gmap string Z)
    : option (gmap string Z) :=
  match rows with
  | [] => Some totals
  | row :: rest => totals' ← load_row totals row; load_rows rest totals'
  end.

(** [load_existing_csv()] on the file ([None]: it does not exist); the
    result [None] is an exception. *)
Definition load_existing_csv (file : option string) : option (gmap string Z) :=
  match file with
  | None => Some ∅
  | Some text => rows ← dict_reader text; load_rows rows ∅
  end.

End CacheFile.

(* ===================================================================== *)
(** ** fetch_github_data.py: the resumable scan *)
(* ===================================================================== *)

Module FetchGithubData.
Import Csv CacheFile.

Definition MAX_RETRIES : nat := 5.
Definition RETRY_BACKOFF : list Z := [2; 5; 15; 30; 60].

(** [iter_date_range(start, end)] collected into a list.  [None] is the
    [OverflowError] of stepping past [date.max].  The loop stops on its
    condition; the fuel, the number of days from [start] to [end_], is
    never what ends it (see [iter_date_range_ordinals]). *)
Fixpoint iter_dates (fuel : nat) (current end_ : date) : option (list date) :=
  match fuel with
  | O => Some []
  | S f =>
      if Dates.le current end_ then
        next ← add_one_day current;
        cons current <$> iter_dates f next end_
      else Some []
  end.

Definition iter_date_range (start end_ : date) : option (list date) :=
  iter_dates (Z.to_nat (toordinal end_ - toordinal start + 1)) start end_.

(** The two files.  The checkpoint file is kept as the list of its lines
    ([read_text().splitlines()] of what ["\n".join(...)] wrote); the cache
    file as its text.  [None]: the file does not exist. *)
Record disk := mkdisk
  { checkpoint_file : option (list string); csv_file : option string }.

Definition load_checkpoint (dk : disk) : gset string :=
  match checkpoint_file dk with
  | Some lines => list_to_set lines
  | None => ∅
  end.

Definition checkpoint_lines (done_days : gset string) : list string :=
  sorted (elements done_days).

Definition save_checkpoint (done_days : gset string) (dk : disk) : disk :=
  mkdisk (Some (checkpoint_lines done_days)) (csv_file dk).

Definition load_existing_csv (dk : disk) : option (gmap string Z) :=
  CacheFile.load_existing_csv (csv_file dk).

Definition save_csv (totals : gmap string Z) (dk : disk) : disk :=
  mkdisk (checkpoint_file dk) (Some (CacheFile.save_csv totals)).

(** *** One hourly file *)

(** A line of the decompressed file, as far as the scan looks at it. *)
Inductive size_field :=
| SizeAbsent | SizeInt (n : Z) | SizeBool (b : bool) | SizeOther.

Inductive payload_field :=
| PayloadAbsent | PayloadObject (size : size_field) | PayloadOther.

Inductive record_line :=
| BlankLine                         (* empty after [strip()] *)
| BadJson                           (* [json.JSONDecodeError] *)
| NotAnObject                       (* a JSON value without [.get] *)
| JsonObject (is_push_event : bool) (payload : payload_field).

(** What one GET gives. *)
Inductive response :=
| NotFound                          (* status 404 *)
| Body (lines : list record_line)   (* status 200, a readable gzip body *)
| TransportError                    (* [requests.RequestException] or [OSError] *)
| OtherError.                       (* any other exception in the [try] *)

(** The remote archive: the response to the n-th attempt (from 1) for a
    day and an hour. *)
Definition archive := date -> Z -> nat -> response.

(** The [for line in gz] loop; [None]: an [AttributeError] escapes. *)
Fixpoint scan_lines (lines : list record_line) (commit_count : Z) : option Z :=
  match lines with
  | [] => Some commit_count
  | BlankLine :: rest | BadJson :: rest => scan_lines rest commit_count
  | NotAnObject :: _ => None
  | JsonObject false _ :: rest => scan_lines rest commit_count
  | JsonObject true PayloadOther :: _ => None
  | JsonObject true PayloadAbsent :: rest => scan_lines rest commit_count
  | JsonObject true (PayloadObject sz) :: rest =>
      let size := match sz with
                  | SizeAbsent => Some 0
                  | SizeInt n => Some n
                  | SizeBool b => Some (if b then 1 else 0)
                  | SizeOther => None
                  end in
      match size with
      | Some n => scan_lines rest (if 0 <? n then commit_count + n else commit_count)
      | None => scan_lines rest commit_count
      end
  end.

(** What the run does to the outside, in order. *)
Inductive effect :=
| Get (day : date) (hour : Z) (attempt : nat)
| Sleep (seconds : Z)
| SaveCheckpoint (lines : list string)
| SaveCsv (text : string).

(** [enumerate(RETRY_BACKOFF + [None], start=1)] *)
Definition schedule : list (nat * option Z) :=
  imap (fun i b => (S i, b)) ((Some <$> RETRY_BACKOFF) ++ [None]).

(** The retry loop of [stream_hourly_file]; the result [None] is an
    exception leaving the function. *)
Fixpoint try_attempts (sched : list (nat * option Z)) (resp : nat -> response)
    (day : date) (hour : Z) : option Z * list effect :=
  match sched with
  | [] => (Some 0, [])
  | (attempt, backoff) :: rest =>
      match resp attempt with
      | NotFound => (Some (-1), [Get day hour attempt])
      | Body lines => (scan_lines lines 0, [Get day hour attempt])
      | OtherError => (None, [Get day hour attempt])
      | TransportError =>
          match backoff with
          | Some seconds =>
              if (MAX_RETRIES <? attempt)%nat then (None, [Get day hour attempt])
              else
                let '(r, tr) := try_attempts rest resp day hour in
                (r, Get day hour attempt :: Sleep seconds :: tr)
          | None => (None, [Get day hour attempt])
          end
      end
  end.

Definition stream_hourly_file (remote : archive) (day : date) (hour : Z)
    : option Z * list effect :=
  try_attempts schedule (remote day hour) day hour.

(** The [for hour in range(24)] loop of [fetch]. *)
Fixpoint hours_loop (remote : archive) (day : date) (hours : list Z)
    (day_commits missing_hours : Z) : Z * Z * list effect :=
  match hours with
  | [] => (day_commits, missing_hours, [])
  | hour :: rest =>
      let '(r, tr) := stream_hourly_file remote day hour in
      let '(dc, mh, tr') :=
        match r with
        | None => hours_loop remote day rest day_commits missing_hours
        | Some n =>
            if n =? -1 then hours_loop remote day rest day_commits (missing_hours + 1)
            else hours_loop remote day rest (day_commits + n) missing_hours
        end in
      (dc, mh, tr ++ tr')
  end.

Definition range24 : list Z := seqZ 0 24.

Definition day_total (remote : archive) (day : date) : Z :=
  (hours_loop remote day range24 0 0).1.1.

Definition day_requests (remote : archive) (day : date) : list effect :=
  (hours_loop remote day range24 0 0).2.

(** The [for day in pending] loop: the local variables [done_days] and
    [totals], the disk, and the effects so far. *)
Fixpoint days_loop (remote : archive) (pending : list date)
    (done_days : gset string) (totals : gmap string Z) (dk : disk)
    : disk * gset string * gmap string Z * list effect :=
  match pending with
  | [] => (dk, done_days, totals, [])
  | day :: rest =>
      let key := month_key day in
      let day_commits := day_total remote day in
      let totals' := <[key := default 0 (totals !! key) + day_commits]> totals in
      let done' := {[isoformat day]} ∪ done_days in
      let dk' := save_csv totals' (save_checkpoint done' dk) in
      let '(dk'', dn, tot, tr) := days_loop remote rest done' totals' dk' in
      (dk'', dn, tot,
       day_requests remote day
         ++ SaveCheckpoint (checkpoint_lines done')
         :: SaveCsv (CacheFile.save_csv totals') :: tr)
  end.

(** [pending = [d for d in all_dates if d.isoformat() not in done_days]] *)
Definition pending_days (all_dates : list date) (done_days : gset string) : list date :=
  List.filter (fun d => bool_decide (isoformat d ∉ done_days)) all_dates.

Record run := mkrun
  { disk_after : disk;
    returned : option (gmap string Z);      (* [None]: an exception *)
    effects : list effect }.

(** The first lines of [fetch]: the completed days, the loaded totals and
    the pending days; [None] is an exception ([load_existing_csv] on a
    malformed file, [OverflowError] from the date range). *)
Definition prepare (dk : disk) (start end_ : date) (force : bool)
    : option (list date * gset string * gmap string Z) :=
  let done_days := if force then ∅ else load_checkpoint dk in
  totals ← load_existing_csv dk;
  all_dates ← iter_date_range start end_;
  Some (pending_days all_dates done_days, done_days, totals).

Definition fetch (remote : archive) (dk : disk) (start end_ : date) (force : bool) : run :=
  match prepare dk start end_ force with
  | Some ([], _, totals) => mkrun dk (Some totals) []
  | Some (pending, done_days, totals) =>
      let '(dk', _, totals', tr) := days_loop remote pending done_days totals dk in
      mkrun dk' (Some totals') tr
  | None => mkrun dk None []
  end.

(** *** Interrupted runs *)

(** The disk after an effect that ran to its end, and after a list of
    them: the writes that took place, in order. *)
Definition apply_effect (dk : disk) (e : effect) : disk :=
  match e with
  | SaveCheckpoint lines => mkdisk (Some lines) (csv_file dk)
  | SaveCsv text => mkdisk (checkpoint_file dk) (Some text)
  | _ => dk
  end.

Definition replay (dk : disk) (tr : list effect) : disk :=
  fold_left apply_effect tr dk.

Definition is_write (e : effect) : bool :=
  match e with SaveCheckpoint _ | SaveCsv _ => true | _ => false end.

(** [text[:k]], the first [k] characters of a text. *)
Definition beginning (k : nat) (text : string) : string := substring 0 k text.

(** The lines of a checkpoint file that holds a beginning only of the
    text written for [lines], which is ["\n".join(lines)]: the first [i]
    lines, and the first [k] characters of the line after them when
    there are any. *)
Definition cut_lines (lines : list string) (i k : nat) : list string :=
  take i lines ++
  match lines !! i with
  | Some line =>
      match beginning k line with
      | EmptyString => []
      | part => [part]
      end
  | None => []
  end.

(** A write that was stopped inside.  [write_text] and [open("w")] open
    the file, which empties it, and the text follows: the file is left
    with a beginning of the text, which can be nothing and can be all of
    it.  Which beginnings a stop can leave depends on the buffers between
    the program and the disk; all of them are allowed for here.  For the
    checkpoint the beginning ends [k] characters into line [i], for the
    cache it is the first [k] characters.  An effect that is not a write
    leaves the disk as it is. *)
Definition cut_effect (dk : disk) (e : effect) (i k : nat) : disk :=
  match e with
  | SaveCheckpoint lines => mkdisk (Some (cut_lines lines i k)) (csv_file dk)
  | SaveCsv text => mkdisk (checkpoint_file dk) (Some (beginning k text))
  | _ => dk
  end.

(** Where a run is stopped: between two effects, after the first [n] of
    them; or inside the effect that follows the first [n]. *)
Inductive stop :=
| Between (n : nat)
| Inside (n i k : nat).

(** The disk as a run stopped at [s] leaves it. *)
Definition stopped_at (remote : archive) (dk : disk) (start end_ : date)
    (force : bool) (s : stop) : disk :=
  let tr := effects (fetch remote dk start end_ force) in
  match s with
  | Between n => replay dk (take n tr)
  | Inside n i k =>
      match tr !! n with
      | Some e => cut_effect (replay dk (take n tr)) e i k
      | None => replay dk tr
      end
  end.

(** The run stopped between two effects, after its first [n]. *)
Definition interrupted (remote : archive) (dk : disk) (start end_ : date)
    (force : bool) (n : nat) : disk :=
  stopped_at remote dk start end_ force (Between n).

(** The variables [done_days] and [totals] after the days [days]. *)
Definition done_after (days : list date) (done_days : gset string) : gset string :=
  foldl (fun s d => {[isoformat d]} ∪ s) done_days days.

Definition add_day (remote : archive) (totals : gmap string Z) (d : date)
    : gmap string Z :=
  <[month_key d := default 0 (totals !! month_key d) + day_total remote d]> totals.

Definition totals_after (remote : archive) (days : list date)
    (totals : gmap string Z) : gmap string Z :=
  foldl (add_day remote) totals days.

(** The disk with exactly the first [j] pending days recorded, in the
    checkpoint and in the cache. *)
Definition disk_with_days (remote : archive) (dk : disk) (pending : list date)
    (done_days : gset string) (totals : gmap string Z) (j : nat) : disk :=
  match j with
  | O => dk
  | S _ =>
      mkdisk (Some (checkpoint_lines (done_after (take j pending) done_days)))
             (Some (CacheFile.save_csv (totals_after remote (take j pending) totals)))
  end.

Definition disk_after_days (remote : archive) (dk : disk) (start end_ : date)
    (force : bool) (j : nat) : disk :=
  match prepare dk start end_ force with
  | Some (pending, done_days, totals) =>
      disk_with_days remote dk pending done_days totals j
  | None => dk
  end.

(** Day-atomic updates, as the specification asks for them: wherever the
    run stops, between two effects or inside one, the two files are as
    some whole number of days left them. *)
Definition atomic_updates (remote : archive) (dk : disk) (start end_ : date)
    (force : bool) : Prop :=
  forall s : stop, exists j,
    stopped_at remote dk start end_ force s
    = disk_after_days remote dk start end_ force j.

(** Counting what a run did: the requests, and the seconds slept. *)
Definition is_get (e : effect) : bool :=
  match e with Get _ _ _ => true | _ => false end.

Definition requests (tr : list effect) : nat := length (List.filter is_get tr).

Definition slept (tr : list effect) : Z :=
  foldr Z.add 0 (map (fun e => match e with Sleep s => s | _ => 0 end) tr).

(** A line at which the scan raises [AttributeError]. *)
Definition raises (l : record_line) : bool :=
  match l with
  | NotAnObject | JsonObject true PayloadOther => true
  | _ => false
  end.

(** The commits one line stands for: the size of a PushEvent when it is
    an [int] above zero ([True] is the [int] 1), nothing otherwise. *)
Definition line_commits (l : record_line) : Z :=
  match l with
  | JsonObject true (PayloadObject (SizeInt n)) => if 0 <? n then n else 0
  | JsonObject true (PayloadObject (SizeBool true)) => 1
  | _ => 0
  end.

(** What the days of [days] that fall in month [key] add up to. *)
Definition month_days_total (remote : archive) (days : list date) (key : string) : Z :=
  foldr Z.add 0
    (map (day_total remote)
         (List.filter (fun d => String.eqb (month_key d) key) days)).

(** The contribution of one hour to the total of its day. *)
Definition hour_contribution (remote : archive) (day : date) (hour : Z) : Z :=
  match (stream_hourly_file remote day hour).1 with
  | Some n => if n =? -1 then 0 else n
  | None => 0
  end.

End FetchGithubData.

(* ===================================================================== *)
(** ** fetch_bigquery.py and the merge in main.py *)
(* ===================================================================== *)

Module FetchBigquery.

(** [_suffix]: drop every "-". *)
Fixpoint _suffix (yyyy_mm : string) : string :=
  match yyyy_mm with
  | EmptyString => EmptyString
  | String c r => if Ascii.eqb c "-"%char then _suffix r else String c (_suffix r)
  end.

(** The rows of the query result: a month label and the aggregate, which
    is NULL ([None]) when no row of the month had a usable size. *)
Definition result_row : Type := string * option Z.

(** The data set: the rows for the two table suffixes. *)
Definition dataset := string -> string -> list result_row.

Fixpoint collect (results : list result_row) (totals : gmap string Z) : gmap string Z :=
  match results with
  | [] => totals
  | (month, Some commits) :: rest => collect rest (<[month := commits]> totals)
  | (_, None) :: rest => collect rest totals
  end.

Definition fetch (data : dataset) (start_month end_month : string) : gmap string Z :=
  collect (data (_suffix start_month) (_suffix end_month)) ∅.

End FetchBigquery.

Module Main.

(** [f"{y:04d}-{m:02d}"] *)
Definition month_label (y m : Z) : string := pad4 y +:+ "-" +:+ pad2 m.

(** The [while (y, m) <= (ey, em)] loop; the fuel is the number of months
    from the first to the last, for months 1 to 12. *)
Fixpoint months_from (fuel : nat) (y m ey em : Z) : list string :=
  match fuel with
  | O => []
  | S f =>
      if (y <? ey) || ((y =? ey) && (m <=? em)) then
        month_label y m ::
          (if 12 <? m + 1 then months_from f (y + 1) 1 ey em
           else months_from f y (m + 1) ey em)
      else []
  end.

Definition all_months (y m ey em : Z) : list string :=
  months_from (Z.to_nat ((ey - y) * 12 + (em - m) + 1)) y m ey em.

(** [existing.update(new_totals)] *)
Definition update (existing new_totals : gmap string Z) : gmap string Z :=
  new_totals ∪ existing.

(** Step 1 of [main()] when fetching: the cache file afterwards; [None] is
    an exception from [load_existing_csv]. *)
Definition fetch_step (data : FetchBigquery.dataset) (file : option string)
    (y m ey em : Z) : option (option string) :=
  existing ← CacheFile.load_existing_csv file;
  let missing :=
    List.filter (fun mo => bool_decide (existing !! mo = None)) (all_months y m ey em) in
  match missing with
  | [] => Some file
  | fetch_start :: _ =>
      let fetch_end := List.last missing fetch_start in
      let new_totals := FetchBigquery.fetch data fetch_start fetch_end in
      Some (Some (CacheFile.save_csv (update existing new_totals)))
  end.

(** [value[i:j]] on a [str], for [i <= j]: what is there of the
    characters from place [i] up to place [j]. *)
Definition slice (i j : nat) (value : string) : string := substring i (j - i) value.

(** [int(value[:4]), int(value[5:7])] on a month argument; [None] is the
    [ValueError] of [int]. *)
Definition parse_bound (value : string) : option (Z * Z) :=
  y ← Csv.int_of_str (slice 0 4 value);
  m ← Csv.int_of_str (slice 5 7 value);
  Some (y, m).

End Main.

(* ===================================================================== *)
(** ** visualize.py: loading the cache and smoothing outliers *)
(* ===================================================================== *)

Module Visualize.
Import Csv.

(** One row of the data frame: the columns "month", "commits" and
    "date" (the first day of the month, kept as year and month). *)
Record row := mkrow { r_month : string; r_commits : Z; r_date : Z * Z }.

Definition frame := list row.

(** *** binary64 arithmetic, as pandas and NumPy do it *)

Definition float_of_Z (z : Z) : float :=
  SF2Prim (binary_normalize prec emax z 0 false).

Definition round_half_even (n d : Z) : Z :=
  let q := n / d in
  let r := n mod d in
  if 2 * r <? d then q
  else if d <? 2 * r then q + 1
  else if Z.even q then q else q + 1.

(** [.round().astype("int64")] on one value: the nearest integer, ties to
    even; [None] is the error raised for NaN and the infinities.  (Values
    beyond the range of int64 are not modelled.) *)
Definition round_astype_int64 (x : float) : option Z :=
  match Prim2SF x with
  | S754_zero _ => Some 0
  | S754_finite sign m e =>
      let mag := if 0 <=? e then Z.pos m * 2 ^ e
                 else round_half_even (Z.pos m) (2 ^ (- e)) in
      Some (if sign then - mag else mag)
  | S754_infinity _ | S754_nan => None
  end.

Fixpoint insert_float (x : float) (l : list float) : list float :=
  match l with
  | [] => [x]
  | y :: r => if PrimFloat.leb x y then x :: l else y :: insert_float x r
  end.

Definition sort_floats (l : list float) : list float :=
  fold_right insert_float [] l.

(** [Series.median()]: the middle value, or the mean of the two middle
    values; NaN for an empty series. *)
Definition median (xs : list float) : float :=
  let sorted := sort_floats xs in
  let n := length sorted in
  if (n =? 0)%nat then nan
  else if Nat.odd n then nth (n / 2)%nat sorted nan
  else ((nth (n / 2 - 1)%nat sorted nan + nth (n / 2)%nat sorted nan) / 2)%float.

Definition modified_z (xs : list float) : list float :=
  let med := median xs in
  let mad := median (map (fun x => PrimFloat.abs (x - med)%float) xs) in
  map (fun x => (0.6745 * (x - med) / (mad + 1))%float) xs.

Definition outlier_mask (xs : list float) (z_thresh : float) : list bool :=
  map (fun z => PrimFloat.ltb z_thresh (PrimFloat.abs z)) (modified_z xs).

(** The next value that is not NaN, with its position. *)
Fixpoint first_valid (ys : list float) (i : Z) : option (Z * float) :=
  match ys with
  | [] => None
  | y :: r => if PrimFloat.is_nan y then first_valid r (i + 1) else Some (i, y)
  end.

(** [Series.interpolate(method="linear")] with its defaults: positions
    count as equally spaced; a NaN between two values lies on the line
    through them ([np.interp]); NaNs after the last value repeat it; NaNs
    before the first value stay NaN (the fill direction is forward). *)
Fixpoint interpolate_from (ys : list float) (k : Z) (prev : option (Z * float))
    : list float :=
  match ys with
  | [] => []
  | y :: rest =>
      if PrimFloat.is_nan y then
        match prev with
        | None => nan
        | Some (i, y0) =>
            match first_valid rest (k + 1) with
            | None => y0
            | Some (j, y1) =>
                ((y1 - y0) / (float_of_Z j - float_of_Z i)
                 * (float_of_Z k - float_of_Z i) + y0)%float
            end
        end :: interpolate_from rest (k + 1) prev
      else y :: interpolate_from rest (k + 1) (Some (k, y))
  end.

Definition interpolate (ys : list float) : list float :=
  interpolate_from ys 0 None.

Definition set_commits (r : row) (c : Z) : row :=
  mkrow (r_month r) c (r_date r).

Definition commits_column (df : frame) : list float :=
  map (fun r => float_of_Z (r_commits r)) df.

(** The months [cap_outliers] prints as capped. *)
Definition capped_months (df : frame) (z_thresh : float) : list string :=
  map (fun '(r, _) => r_month r)
      (List.filter snd (combine df (outlier_mask (commits_column df) z_thresh))).

(** [cap_outliers(df, z_thresh)].  Writing [None] into the flagged
    places turns the integer column into a float column with NaN there;
    the column is then interpolated, rounded and cast back.  The result
    [None] is the exception of [astype("int64")] on a value that is
    still NaN. *)
Definition cap_outliers (df : frame) (z_thresh : float) : option frame :=
  let xs := commits_column df in
  let mask := outlier_mask xs z_thresh in
  if existsb id mask then
    let ys := map (fun '(x, flagged) => if flagged : bool then nan else x)
                  (combine xs mask) in
    vals ← mapM round_astype_int64 (interpolate ys);
    Some (map (fun '(r, c) => set_commits r c) (combine df vals))
  else Some df.

Definition Z_THRESH : float := 3.0%float.

(** *** [load_commits] *)

(** [pd.to_datetime(month, format="%Y-%m")]: four digits, a dash, and a
    month 1 to 12 in one or two digits; [None] is the [ValueError].  (The
    range of years a Timestamp can hold is not modelled.) *)
Definition parse_month (s : string) : option (Z * Z) :=
  match s with
  | String a (String b (String c (String d (String "-" rest)))) =>
      if is_digit a && is_digit b && is_digit c && is_digit d then
        let y := 1000 * digit_val a + 100 * digit_val b + 10 * digit_val c + digit_val d in
        match rest with
        | String m1 EmptyString =>
            if is_digit m1 && (1 <=? digit_val m1) then Some (y, digit_val m1) else None
        | String m1 (String m2 EmptyString) =>
            let m := 10 * digit_val m1 + digit_val m2 in
            if is_digit m1 && is_digit m2 && (1 <=? m) && (m <=? 12) then Some (y, m)
            else None
        | _ => None
        end
      else None
  | _ => None
  end.

(** The rows of the file: ["month": row["month"], "commits":
    int(row["commits"])]. *)
Definition read_row (row : string -> option string) : option (string * Z) :=
  month ← row "month"%string;
  commits ← row "commits"%string;
  n ← int_of_str commits;
  Some (month, n).

Definition read_rows (text : string) : option (list (string * Z)) :=
  rows ← dict_reader text; mapM read_row rows.

Definition date_row (r : string * Z) : option row :=
  d ← parse_month r.1; Some (mkrow r.1 r.2 d).

Definition date_leb (a b : Z * Z) : bool :=
  (a.1 <? b.1) || ((a.1 =? b.1) && (a.2 <=? b.2)).

(** [df.sort_values("date")], by insertion.  Rows with the same date keep
    the order of the file here; pandas promises no order among them, and
    a cache file has each month once. *)
Fixpoint insert_row (x : row) (l : frame) : frame :=
  match l with
  | [] => [x]
  | y :: r => if date_leb (r_date x) (r_date y) then x :: l else y :: insert_row x r
  end.

Definition sort_values (df : frame) : frame := fold_right insert_row [] df.

(** The order of the sort. *)
Definition by_date (a b : row) : Prop := date_leb (r_date a) (r_date b) = true.

(** The two filters [df["month"] >= start_month] and
    [df["month"] <= end_month]; each applies when its bound is given and
    not empty. *)
Definition given (bound : option string) : option string :=
  match bound with
  | Some EmptyString | None => None
  | Some s => Some s
  end.

Definition in_window (start_month end_month : option string) (month : string) : bool :=
  match given start_month with Some s => String.leb s month | None => true end
  && match given end_month with Some e => String.leb month e | None => true end.

Definition restrict (start_month end_month : option string) (df : frame) : frame :=
  List.filter (fun r => in_window start_month end_month (r_month r)) df.

(** [load_commits] from the rows on: the frame is built, dated, sorted,
    restricted to the window, and then smoothed.  An empty list of rows
    gives a frame without columns, and [df["month"]] raises. *)
Definition commits_frame (rows : list (string * Z))
    (start_month end_month : option string) : option frame :=
  match rows with
  | [] => None
  | _ =>
      df ← mapM date_row rows;
      cap_outliers (restrict start_month end_month (sort_values df)) Z_THRESH
  end.

Definition load_commits (text : string) (start_month end_month : option string)
    : option frame :=
  rows ← read_rows text; commits_frame rows start_month end_month.

(** The order the specification asks for, for comparison: smooth the
    whole series, then restrict it. *)
Definition commits_frame_smooth_first (rows : list (string * Z))
    (start_month end_month : option string) : option frame :=
  match rows with
  | [] => None
  | _ =>
      df ← mapM date_row rows;
      restrict start_month end_month <$> cap_outliers (sort_values df) Z_THRESH
  end.

Definition load_commits_smooth_first (text : string)
    (start_month end_month : option string) : option frame :=
  rows ← read_rows text; commits_frame_smooth_first rows start_month end_month.

End Visualize.

(* ===================================================================== *)
(** ** main.py, step 2: the events handed to the chart *)
(* ===================================================================== *)

Module Chart.
Import Visualize.

(** [Timestamp.date()] of an entry of the "date" column: the first day
    of its month. *)
Definition first_day (ym : Z * Z) : date := mkdate ym.1 ym.2 1.

(** [df["date"].min()] and [df["date"].max()]; [None] for a frame
    without rows. *)
Fixpoint min_date (df : frame) : option (Z * Z) :=
  match df with
  | [] => None
  | r :: rest =>
      match min_date rest with
      | None => Some (r_date r)
      | Some d => Some (if date_leb (r_date r) d then r_date r else d)
      end
  end.

Fixpoint max_date (df : frame) : option (Z * Z) :=
  match df with
  | [] => None
  | r :: rest =>
      match max_date rest with
      | None => Some (r_date r)
      | Some d => Some (if date_leb d (r_date r) then r_date r else d)
      end
  end.

(** The events [main()] gives to [plot]; [None] is the exit on an empty
    frame. *)
Definition chart_events (df : frame) : option (list event) :=
  match min_date df, max_date df with
  | Some start_date, Some end_date =>
      Some (get_events_in_range (first_day start_date) (first_day end_date))
  | _, _ => None
  end.

End Chart.

(* ===================================================================== *)
(** ** Sample inputs *)
(* ===================================================================== *)

Module Samples.
Import FetchGithubData.

Definition crlf : string := String Csv.CR (String Csv.LF "").

(** An archive with one push of five commits in hour 0 of every day, and
    no file for any other hour. *)
Definition five_a_day : archive :=
  fun _ hour _ =>
    if hour =? 0 then Body [JsonObject true (PayloadObject (SizeInt 5))]
    else NotFound.

Definition jan_1 : date := mkdate 2023 1 1.
Definition jan_2 : date := mkdate 2023 1 2.

(** Nothing fetched yet. *)
Definition empty_disk : disk := mkdisk None None.

(** January 2023 cached with 100 commits, 1 January checkpointed. *)
Definition cached_disk : disk :=
  mkdisk (Some ["2023-01-01"])
         (Some ("month,commits" +:+ crlf +:+ "2023-01,100" +:+ crlf)).

(** Seven months of 2023 with a spike in April, as a cache file. *)
Definition spike_in_april : string :=
  "month,commits" +:+ crlf +:+ "2023-01,100" +:+ crlf +:+ "2023-02,100" +:+ crlf
  +:+ "2023-03,100" +:+ crlf +:+ "2023-04,5000" +:+ crlf +:+ "2023-05,200" +:+ crlf
  +:+ "2023-06,200" +:+ crlf +:+ "2023-07,200" +:+ crlf.

(** Five months with the spike in the first one, and with the spike in
    the last one. *)
Definition spike_first : Visualize.frame :=
  [ Visualize.mkrow "2023-01" 1000 (2023, 1); Visualize.mkrow "2023-02" 1 (2023, 2);
    Visualize.mkrow "2023-03" 1 (2023, 3); Visualize.mkrow "2023-04" 1 (2023, 4);
    Visualize.mkrow "2023-05" 1 (2023, 5) ].

Definition spike_last : Visualize.frame :=
  [ Visualize.mkrow "2023-01" 1 (2023, 1); Visualize.mkrow "2023-02" 1 (2023, 2);
    Visualize.mkrow "2023-03" 1 (2023, 3); Visualize.mkrow "2023-04" 1 (2023, 4);
    Visualize.mkrow "2023-05" 1000 (2023, 5) ].

End Samples.

(* ===================================================================== *)
(** * Properties *)
(* ===================================================================== *)

(** ** Dates *)

Section DateFacts.

Lemma valid_bounds d :
  valid d = true ->
  1 <= year d <= 9999 /\ 1 <= month d <= 12 /\
  1 <= day d <= days_in_month (year d) (month d).
Proof.
  unfold valid, MINYEAR, MAXYEAR. rewrite !andb_true_iff, !Z.leb_le. lia.
Qed.

Lemma valid_intro y m d :
  1 <= y <= 9999 -> 1 <= m <= 12 -> 1 <= d <= days_in_month y m ->
  valid (mkdate y m d) = true.
Proof.
  intros. unfold valid, MINYEAR, MAXYEAR; simpl.
  rewrite !andb_true_iff, !Z.leb_le. lia.
Qed.

Lemma month_cases m :
  1 <= m <= 12 ->
  m = 1 \/ m = 2 \/ m = 3 \/ m = 4 \/ m = 5 \/ m = 6 \/
  m = 7 \/ m = 8 \/ m = 9 \/ m = 10 \/ m = 11 \/ m = 12.
Proof. lia. Qed.

Lemma days_in_month_bounds y m : 28 <= days_in_month y m <= 31.
Proof.
  unfold days_in_month.
  repeat match goal with |- context [if ?b then _ else _] => destruct b end; lia.
Qed.

Lemma days_before_next_month y m :
  1 <= m < 12 ->
  days_before_month y (m + 1) = days_before_month y m + days_in_month y m.
Proof.
  intros Hm.
  assert (Hc : 1 <= m <= 12) by lia.
  destruct (month_cases m Hc) as [->|[->|[->|[->|[->|[->|[->|[->|[->|[->|[->| ->]]]]]]]]]]];
    unfold days_before_month, days_in_month; simpl;
    destruct (is_leap y); simpl; lia.
Qed.

Lemma days_before_next_year y :
  days_before_year (y + 1) =
  days_before_year y + 365 + (if is_leap y then 1 else 0).
Proof.
  unfold days_before_year, is_leap.
  replace (y + 1 - 1) with y by lia.
  destruct (Z.eqb_spec (y mod 4) 0), (Z.eqb_spec (y mod 100) 0),
    (Z.eqb_spec (y mod 400) 0); simpl;
    Z.div_mod_to_equations; lia.
Qed.

Lemma add_one_day_valid d d' :
  valid d = true -> add_one_day d = Some d' -> valid d' = true.
Proof.
  intros Hv Ha. apply valid_bounds in Hv. destruct d as [y m dd]; simpl in *.
  unfold add_one_day in Ha; simpl in Ha.
  pose proof (days_in_month_bounds y (m + 1)).
  pose proof (days_in_month_bounds (y + 1) 1).
  destruct (Z.ltb_spec dd (days_in_month y m)).
  - inversion Ha; subst. apply valid_intro; lia.
  - destruct (Z.ltb_spec m 12).
    + inversion Ha; subst. apply valid_intro; lia.
    + unfold MAXYEAR in Ha. destruct (Z.ltb_spec y 9999); [|discriminate].
      inversion Ha; subst. apply valid_intro; lia.
Qed.

Lemma add_one_day_ordinal d d' :
  valid d = true -> add_one_day d = Some d' -> toordinal d' = toordinal d + 1.
Proof.
  intros Hv Ha. apply valid_bounds in Hv. destruct d as [y m dd]; simpl in *.
  unfold add_one_day in Ha; simpl in Ha. unfold toordinal.
  destruct (Z.ltb_spec dd (days_in_month y m)).
  - inversion Ha; subst; simpl. lia.
  - destruct (Z.ltb_spec m 12).
    + inversion Ha; subst; simpl. rewrite days_before_next_month by lia. lia.
    + unfold MAXYEAR in Ha. destruct (Z.ltb_spec y 9999); [|discriminate].
      inversion Ha; subst; simpl. rewrite days_before_next_year.
      assert (m = 12) as -> by lia.
      unfold days_before_month, days_in_month in *; simpl in *.
      destruct (is_leap y); simpl; lia.
Qed.

Lemma days_before_year_mono y y' :
  y < y' ->
  days_before_year y + 365 + (if is_leap y then 1 else 0) <= days_before_year y'.
Proof.
  intros Hlt. rewrite <- days_before_next_year.
  unfold days_before_year. Z.div_mod_to_equations. lia.
Qed.

Lemma day_of_year_bounds y m d :
  1 <= m <= 12 -> 1 <= d <= days_in_month y m ->
  1 <= days_before_month y m + d <= 365 + (if is_leap y then 1 else 0).
Proof.
  intros Hm Hd.
  destruct (month_cases m Hm) as [->|[->|[->|[->|[->|[->|[->|[->|[->|[->|[->| ->]]]]]]]]]]];
    unfold days_before_month, days_in_month in *; simpl in *;
    destruct (is_leap y); simpl in *; lia.
Qed.

Lemma days_before_month_mono y m m' :
  1 <= m <= 12 -> 1 <= m' <= 12 -> m < m' ->
  days_before_month y m + days_in_month y m <= days_before_month y m'.
Proof.
  intros Hm Hm' Hlt.
  destruct (month_cases m Hm) as [->|[->|[->|[->|[->|[->|[->|[->|[->|[->|[->| ->]]]]]]]]]]];
  destruct (month_cases m' Hm') as [->|[->|[->|[->|[->|[->|[->|[->|[->|[->|[->| ->]]]]]]]]]]];
    try lia;
    unfold days_before_month, days_in_month; simpl; destruct (is_leap y); simpl; lia.
Qed.

(** Python orders dates as it orders their ordinals. *)
Lemma le_ordinal a b :
  valid a = true -> valid b = true ->
  Dates.le a b = true <-> toordinal a <= toordinal b.
Proof.
  intros Ha Hb. apply valid_bounds in Ha, Hb.
  destruct a as [y m d], b as [y' m' d']; simpl in *.
  unfold Dates.le, toordinal; simpl.
  pose proof (day_of_year_bounds y m d ltac:(lia) ltac:(lia)).
  pose proof (day_of_year_bounds y' m' d' ltac:(lia) ltac:(lia)).
  destruct (Z.ltb_spec y y') as [Hy|Hy].
  { pose proof (days_before_year_mono y y' Hy). split; [lia|done]. }
  destruct (Z.ltb_spec y' y) as [Hy'|Hy'].
  { pose proof (days_before_year_mono y' y Hy'). split; [done|lia]. }
  assert (y' = y) as -> by lia.
  destruct (Z.ltb_spec m m') as [Hlt|Hlt].
  { pose proof (days_before_month_mono y m m' ltac:(lia) ltac:(lia) Hlt). split; [lia|done]. }
  destruct (Z.ltb_spec m' m) as [Hlt'|Hlt'].
  { pose proof (days_before_month_mono y m' m ltac:(lia) ltac:(lia) Hlt'). split; [done|lia]. }
  assert (m' = m) as -> by lia.
  rewrite Z.leb_le. lia.
Qed.

End DateFacts.

(** ** Decimal integers *)

Section DecimalFacts.
Import Csv.

Lemma str_app_nil_l (s : string) : "" +:+ s = s.
Proof. reflexivity. Qed.

Lemma str_app_cons (c : ascii) (a b : string) : String c a +:+ b = String c (a +:+ b).
Proof. reflexivity. Qed.

Lemma str_app_assoc (a b c : string) : (a +:+ b) +:+ c = a +:+ (b +:+ c).
Proof. induction a as [|x a IH]; [done|]. rewrite !str_app_cons. by f_equal. Qed.

Lemma str_app_nil_r (a : string) : a +:+ "" = a.
Proof. induction a as [|x a IH]; [done|]. rewrite str_app_cons. by f_equal. Qed.

Lemma digit_cases k :
  0 <= k <= 9 ->
  k = 0 \/ k = 1 \/ k = 2 \/ k = 3 \/ k = 4 \/ k = 5 \/ k = 6 \/ k = 7 \/ k = 8 \/ k = 9.
Proof. lia. Qed.

Lemma digit_is_digit k : 0 <= k <= 9 -> is_digit (digit k) = true.
Proof.
  intros H. destruct (digit_cases k H) as [->|[->|[->|[->|[->|[->|[->|[->|[->| ->]]]]]]]]];
    reflexivity.
Qed.

Lemma digit_val_digit k : 0 <= k <= 9 -> digit_val (digit k) = k.
Proof.
  intros H. destruct (digit_cases k H) as [->|[->|[->|[->|[->|[->|[->|[->|[->| ->]]]]]]]]];
    reflexivity.
Qed.

Lemma digit_inj a b : 0 <= a <= 9 -> 0 <= b <= 9 -> digit a = digit b -> a = b.
Proof.
  intros Ha Hb Heq. rewrite <- (digit_val_digit a Ha), <- (digit_val_digit b Hb).
  by rewrite Heq.
Qed.

Lemma is_digit_plain c : is_digit c = true -> plain_char c = true.
Proof.
  unfold is_digit. intros H. apply andb_true_iff in H as [H1 H2].
  apply Nat.leb_le in H1, H2.
  unfold plain_char, special.
  assert (Hne : forall d, (nat_of_ascii d < 48)%nat -> Ascii.eqb c d = false).
  { intros d Hd. apply Ascii.eqb_neq. intros ->. lia. }
  rewrite !Hne; [done|..]; vm_compute; lia.
Qed.

Lemma is_digit_not_space c : is_digit c = true -> is_space c = false.
Proof.
  unfold is_digit, is_space. intros H. apply andb_true_iff in H as [H1 H2].
  apply Nat.leb_le in H1, H2.
  repeat match goal with
         | |- context [(?a =? ?b)%nat] => destruct (Nat.eqb_spec a b); [lia|]
         | |- context [(?a <=? ?b)%nat] => destruct (Nat.leb_spec a b); simpl; try lia
         end; done.
Qed.

Lemma dec_val_app a s t : dec_val a (s +:+ t) = dec_val (dec_val a s) t.
Proof. revert a. induction s as [|c s IH]; intros a; [done|]. rewrite str_app_cons. simpl. apply IH. Qed.

Lemma all_digits_app s t : all_digits (s +:+ t) = all_digits s && all_digits t.
Proof.
  induction s as [|c s IH]; [done|]. rewrite str_app_cons. simpl.
  by rewrite IH, andb_assoc.
Qed.

Lemma parse_digits_app s t a b :
  all_digits s = true -> s <> "" ->
  parse_digits a b (s +:+ t) = parse_digits (dec_val a s) true t.
Proof.
  revert a b. induction s as [|c s IH]; intros a b Hs Hne; [done|].
  simpl in Hs. apply andb_true_iff in Hs as [Hc Hs].
  rewrite str_app_cons. simpl. rewrite Hc.
  destruct s as [|c' s']; [done|]. by apply IH.
Qed.

(** The digits written for [n], whatever follows them. *)
Lemma digits_fuel_spec f n :
  0 <= n < 2 ^ Z.of_nat (S f) ->
  exists ds, (forall acc, digits_fuel (S f) n acc = ds +:+ acc) /\
             all_digits ds = true /\ ds <> "" /\ dec_val 0 ds = n.
Proof.
  revert n. induction f as [|f IH]; intros n Hn.
  - exists (String (digit n) "").
    assert (Hs : n < 2) by (simpl in Hn; lia).
    simpl digits_fuel.
    destruct (Z.ltb_spec n 10) as [_|?]; [|lia].
    rewrite Z.mod_small by lia.
    split; [done|]. split; [cbn [all_digits]; by rewrite digit_is_digit by lia|].
    split; [done|]. cbn [dec_val]. rewrite digit_val_digit by lia. lia.
  - change (digits_fuel (S (S f)) n) with
      (fun acc => let acc' := String (digit (n mod 10)) acc in
                  if n <? 10 then acc' else digits_fuel (S f) (n / 10) acc').
    cbv beta zeta.
    assert (0 <= n mod 10 <= 9) by (pose proof (Z.mod_pos_bound n 10); lia).
    destruct (Z.ltb_spec n 10) as [Hlt|Hge].
    + exists (String (digit (n mod 10)) "").
      rewrite Z.mod_small by lia.
      split; [done|]. split; [cbn [all_digits]; by rewrite digit_is_digit by lia|].
      split; [done|]. cbn [dec_val]. rewrite digit_val_digit by lia. lia.
    + destruct (IH (n / 10)) as (ds & Hds & Hall & Hne & Hval).
      { rewrite (Nat2Z.inj_succ (S f)), Z.pow_succ_r in Hn by lia.
        split; [apply Z.div_pos; lia|].
        apply Z.div_lt_upper_bound; lia. }
      exists (ds +:+ String (digit (n mod 10)) "").
      split; [intros acc; by rewrite Hds, str_app_assoc|].
      split; [rewrite all_digits_app, Hall; cbn [all_digits]; by rewrite digit_is_digit|].
      split; [by destruct ds|].
      rewrite dec_val_app, Hval. cbn [dec_val]. rewrite digit_val_digit by done.
      pose proof (Z.div_mod n 10). lia.
Qed.

Lemma digits_spec n :
  0 <= n ->
  exists ds, digits n = ds /\ all_digits ds = true /\ ds <> "" /\ dec_val 0 ds = n.
Proof.
  intros Hn. unfold digits.
  destruct (digits_fuel_spec (Z.to_nat (Z.log2 n)) n) as (ds & Hds & ?).
  { split; [done|]. rewrite Nat2Z.inj_succ, Z2Nat.id by apply Z.log2_nonneg.
    destruct (Z.eq_dec n 0) as [->|]; [done|].
    apply Z.log2_spec. lia. }
  exists ds. by rewrite Hds, str_app_nil_r.
Qed.

Lemma all_digits_no_space s : all_digits s = true -> lstrip s = s /\ rstrip s = s.
Proof.
  intros Hs. split.
  - destruct s as [|c s]; [done|]. simpl in *.
    apply andb_true_iff in Hs as [Hc _]. by rewrite is_digit_not_space.
  - induction s as [|c s IH]; [done|]. simpl in *.
    apply andb_true_iff in Hs as [Hc Hs]. rewrite IH by done.
    destruct s; [|done]. by rewrite is_digit_not_space.
Qed.

Lemma first_digit_not_sign c : is_digit c = true ->
  Ascii.eqb c "-" = false /\ Ascii.eqb c "+" = false.
Proof.
  unfold is_digit. intros H. apply andb_true_iff in H as [H1 _].
  apply Nat.leb_le in H1.
  split; apply Ascii.eqb_neq; intros ->; vm_compute in H1; lia.
Qed.

(** [int(str(n)) == n] *)
Lemma parse_all_digits s :
  all_digits s = true -> s <> "" -> parse_digits 0 false s = Some (dec_val 0 s).
Proof.
  intros Hall Hne. rewrite <- (str_app_nil_r s) at 1.
  by rewrite parse_digits_app.
Qed.

(** [int(str(n)) == n] *)
Lemma int_of_str_str_int n : int_of_str (str_int n) = Some n.
Proof.
  unfold str_int, int_of_str.
  destruct (Z.ltb_spec n 0) as [Hneg|Hpos].
  - destruct (digits_spec (- n)) as (ds & -> & Hall & Hne & Hval); [lia|].
    destruct (all_digits_no_space ds Hall) as [_ Hr].
    assert (Hl : lstrip (String "-" ds) = String "-" ds) by done.
    rewrite Hl.
    assert (Hrs : rstrip (String "-" ds) = String "-" ds).
    { cbn [rstrip]. rewrite Hr. by destruct ds. }
    rewrite Hrs.
    change (Ascii.eqb "-" "-") with true. cbv iota.
    rewrite parse_all_digits, Hval by done. simpl. f_equal. lia.
  - destruct (digits_spec n) as (ds & -> & Hall & Hne & Hval); [lia|].
    destruct (all_digits_no_space ds Hall) as [-> ->].
    destruct ds as [|c ds]; [done|].
    assert (Hc : is_digit c = true)
      by (cbn [all_digits] in Hall; by apply andb_true_iff in Hall as [? _]).
    destruct (first_digit_not_sign c Hc) as [-> ->].
    by rewrite parse_all_digits, Hval.
Qed.

Lemma all_digits_plain s : all_digits s = true -> plain s = true.
Proof.
  induction s as [|c s IH]; [done|]. simpl. intros [Hc Hs]%andb_true_iff.
  by rewrite is_digit_plain, IH.
Qed.

Lemma str_int_plain n : plain (str_int n) = true.
Proof.
  unfold str_int. destruct (Z.ltb_spec n 0).
  - destruct (digits_spec (- n)) as (ds & -> & Hall & _); [lia|].
    simpl. by rewrite all_digits_plain.
  - destruct (digits_spec n) as (ds & -> & Hall & _); [lia|].
    by apply all_digits_plain.
Qed.

End DecimalFacts.

(** ** The csv reader on what the csv writer wrote *)

Section CsvFacts.
Import Csv CacheFile.

Lemma plain_char_spec c :
  plain_char c = true ->
  is_newline c = false /\ Ascii.eqb c QUOTE = false /\
  Ascii.eqb c COMMA = false /\ Ascii.eqb c NUL = false /\
  Ascii.eqb c CR = false /\ Ascii.eqb c LF = false.
Proof.
  unfold plain_char, special, is_newline.
  destruct (Ascii.eqb c COMMA), (Ascii.eqb c QUOTE), (Ascii.eqb c CR),
    (Ascii.eqb c LF), (Ascii.eqb c NUL); simpl; intros; try discriminate; done.
Qed.

Lemma plain_cons c s : plain (String c s) = true -> plain_char c = true /\ plain s = true.
Proof. simpl. by intros ?%andb_true_iff. Qed.

Lemma plain_no_special s : plain s = true -> has_special s = false.
Proof.
  induction s as [|c s IH]; [done|]. intros [Hc Hs]%plain_cons.
  simpl. rewrite IH by done. unfold plain_char in Hc.
  apply andb_true_iff in Hc as [Hc _]. by destruct (special c).
Qed.

(** A row of two plain fields is written without quotes. *)
Lemma writerow_pair k v :
  plain k = true -> plain v = true ->
  writerow [k; v] = k +:+ String COMMA (v +:+ String CR (String LF "")).
Proof.
  intros Hk Hv. unfold writerow.
  assert (Hj : join_fields (map write_field [k; v]) = k +:+ String COMMA v).
  { simpl. unfold write_field. by rewrite !plain_no_special. }
  destruct k as [|c k'].
  - rewrite Hj. by rewrite !str_app_nil_l, str_app_cons.
  - rewrite Hj. by rewrite str_app_assoc, str_app_cons.
Qed.

Lemma universal_newlines_plain s rest :
  plain s = true ->
  universal_newlines (s +:+ rest) = s +:+ universal_newlines rest.
Proof.
  induction s as [|c s IH]; [done|]. intros [Hc Hs]%plain_cons.
  apply plain_char_spec in Hc as (_ & _ & _ & _ & Hcr & _).
  rewrite !str_app_cons. simpl. rewrite Hcr. by rewrite IH.
Qed.

Lemma universal_newlines_row k v rest :
  plain k = true -> plain v = true ->
  universal_newlines (k +:+ String COMMA (v +:+ String CR (String LF rest)))
  = k +:+ String COMMA (v +:+ String LF (universal_newlines rest)).
Proof.
  intros Hk Hv. rewrite universal_newlines_plain by done. f_equal.
  change (universal_newlines (String COMMA ?x)) with (String COMMA (universal_newlines x)).
  by rewrite universal_newlines_plain.
Qed.

Lemma file_lines_plain s rest l ls :
  plain s = true -> file_lines rest = l :: ls ->
  file_lines (s +:+ rest) = (s +:+ l) :: ls.
Proof.
  intros Hs Hrest. induction s as [|c s IH]; [done|].
  apply plain_cons in Hs as [Hc Hs].
  apply plain_char_spec in Hc as (_ & _ & _ & _ & _ & Hlf).
  rewrite !str_app_cons. simpl. rewrite Hlf, IH by done. done.
Qed.

Lemma file_lines_row k v rest :
  plain k = true -> plain v = true ->
  file_lines (k +:+ String COMMA (v +:+ String LF rest))
  = (k +:+ String COMMA (v +:+ String LF "")) :: file_lines rest.
Proof.
  intros Hk Hv.
  assert (H1 : file_lines (String LF rest) = String LF "" :: file_lines rest) by done.
  pose proof (file_lines_plain v _ _ _ Hv H1) as H2.
  assert (H3 : file_lines (String COMMA (v +:+ String LF rest))
               = String COMMA (v +:+ String LF "") :: file_lines rest).
  { change (file_lines (String COMMA ?x)) with
      (match file_lines x with
       | [] => [String COMMA ""] | line :: r => String COMMA line :: r end).
    by rewrite H2. }
  by rewrite (file_lines_plain k _ _ _ Hk H3).
Qed.

Lemma process_chars_app a b r :
  process_chars (a +:+ b) r = process_chars a r ≫= process_chars b.
Proof.
  revert r. induction a as [|c a IH]; intros r; [done|].
  rewrite str_app_cons. simpl. destruct (Ascii.eqb c NUL); [done|].
  destruct (parse_process_char (Some c) r) as [r'|]; simpl; [apply IH|done].
Qed.

(** A plain character at the start of a field or inside an unquoted one
    is added to the field. *)
Lemma process_plain_char c r :
  plain_char c = true ->
  ((state r = START_RECORD \/ state r = START_FIELD) /\ field r = "")
  \/ state r = IN_FIELD ->
  parse_process_char (Some c) r
  = Some (mkreader IN_FIELD (fields r) (field r +:+ String c "")).
Proof.
  intros Hc Hst. apply plain_char_spec in Hc as (Hnl & Hq & Hcm & _).
  destruct r as [st fs f]; simpl in *.
  destruct Hst as [[[-> | ->] ->] | ->];
    unfold parse_process_char, process_start_field; simpl;
    by rewrite ?Hnl, ?Hq, ?Hcm.
Qed.

Lemma process_plain s r :
  plain s = true ->
  ((state r = START_RECORD \/ state r = START_FIELD) /\ field r = "")
  \/ state r = IN_FIELD ->
  process_chars s r
  = Some (mkreader (match s with "" => state r | _ => IN_FIELD end)
                   (fields r) (field r +:+ s)).
Proof.
  revert r. induction s as [|c s IH]; intros r Hs Hst.
  { rewrite str_app_nil_r. by destruct r. }
  apply plain_cons in Hs as [Hc Hs].
  pose proof (plain_char_spec c Hc) as (_ & _ & _ & Hnul & _).
  simpl. rewrite Hnul, process_plain_char by done. simpl.
  rewrite IH by (simpl; auto). simpl.
  rewrite str_app_assoc, str_app_cons, str_app_nil_l. by destruct s.
Qed.

(** One written row, read back. *)
Lemma process_line_row k v :
  plain k = true -> plain v = true ->
  process_line (k +:+ String COMMA (v +:+ String LF "")) parse_reset
  = Some (mkreader START_RECORD [k; v] "").
Proof.
  intros Hk Hv. unfold process_line.
  rewrite process_chars_app, (process_plain k) by (simpl; auto).
  simpl. rewrite str_app_nil_l.
  assert (Hcomma : forall st, st = START_RECORD \/ st = IN_FIELD ->
            (st = START_RECORD -> k = "") ->
            parse_process_char (Some COMMA) (mkreader st [] k)
            = Some (mkreader START_FIELD [k] "")).
  { intros st [-> | ->] Hst; [rewrite Hst by done|]; done. }
  rewrite Hcomma; [|destruct k; auto|by destruct k].
  simpl. rewrite process_chars_app, (process_plain v) by (simpl; auto).
  simpl. rewrite str_app_nil_l.
  by destruct v.
Qed.

Lemma read_records_rows (rows : list (string * string)) :
  Forall (fun kv => plain kv.1 = true /\ plain kv.2 = true) rows ->
  read_records
    (map (fun kv => kv.1 +:+ String COMMA (kv.2 +:+ String LF "")) rows) parse_reset
  = Some (map (fun kv => [kv.1; kv.2]) rows).
Proof.
  induction 1 as [|[k v] rows [Hk Hv] _ IH]; [done|].
  simpl in *. rewrite process_line_row by done. simpl. by rewrite IH.
Qed.

Lemma file_lines_rows (rows : list (string * string)) :
  Forall (fun kv => plain kv.1 = true /\ plain kv.2 = true) rows ->
  file_lines (universal_newlines
                (concat_rows (map (fun kv => writerow [kv.1; kv.2]) rows)))
  = map (fun kv => kv.1 +:+ String COMMA (kv.2 +:+ String LF "")) rows.
Proof.
  induction 1 as [|[k v] rows [Hk Hv] _ IH]; [done|].
  simpl in *. rewrite writerow_pair by done.
  rewrite str_app_assoc, str_app_cons, str_app_assoc, !str_app_cons, str_app_nil_l.
  rewrite universal_newlines_row, file_lines_row by done.
  by rewrite IH.
Qed.

(** [csv.reader] gives back the rows [csv.writer] was given. *)
Lemma csv_reader_rows (rows : list (string * string)) :
  Forall (fun kv => plain kv.1 = true /\ plain kv.2 = true) rows ->
  csv_reader (concat_rows (map (fun kv => writerow [kv.1; kv.2]) rows))
  = Some (map (fun kv => [kv.1; kv.2]) rows).
Proof.
  intros H. unfold csv_reader. rewrite file_lines_rows by done.
  by apply read_records_rows.
Qed.

End CsvFacts.

(** ** The cache file: saving, then loading *)

Section CacheFileFacts.
Import Csv CacheFile.

Lemma sorted_perm (xs : list string) : sorted xs ≡ₚ xs.
Proof. apply merge_sort_Permutation. Qed.

Lemma sorted_ascending (xs : list string) : Sorted String.le (sorted xs).
Proof. apply Sorted_merge_sort, _. Qed.

Lemma elem_of_sorted_keys (m : gmap string Z) k :
  k ∈ sorted (elements (dom m)) <-> k ∈ dom m.
Proof. by rewrite sorted_perm, elem_of_elements. Qed.

(** The text of the file as a list of written rows. *)
Lemma save_csv_rows (m : gmap string Z) :
  save_csv m
  = concat_rows
      (map (fun kv => writerow [kv.1; kv.2])
           (("month", "commits")
              :: map (fun k => (k, str_int (m !!! k))) (sorted (elements (dom m))))).
Proof.
  unfold save_csv. simpl. f_equal. f_equal.
  rewrite map_map. done.
Qed.

Lemma wf_month_plain s : wf_month s = true -> plain s = true.
Proof.
  destruct s as [|a [|b [|c [|d [|sep [|m1 [|m2 [|]]]]]]]]; try done.
  unfold wf_month. rewrite !andb_true_iff.
  intros ((((((((Ha & Hb) & Hc) & Hd) & Hsep) & Hm1) & Hm2) & _) & _).
  apply Ascii.eqb_eq in Hsep as ->.
  simpl. by rewrite !is_digit_plain.
Qed.

Lemma load_rows_written (m : gmap string Z) (keys : list string)
    (totals : gmap string Z) :
  load_rows
    (map (fun row key => zip_lookup key ["month"; "commits"] row)
         (map (fun k => [k; str_int (m !!! k)]) keys)) totals
  = Some (foldl (fun t k => <[k := m !!! k]> t) totals keys).
Proof.
  revert totals. induction keys as [|k keys IH]; intros totals; [done|].
  simpl. unfold load_row.
  change (zip_lookup "month" ["month"; "commits"] [k; str_int (m !!! k)]) with (Some k).
  change (zip_lookup "commits" ["month"; "commits"] [k; str_int (m !!! k)])
    with (Some (str_int (m !!! k))).
  simpl. rewrite int_of_str_str_int. simpl. apply IH.
Qed.

Lemma lookup_foldl_insert (m : gmap string Z) (keys : list string)
    (totals : gmap string Z) k :
  foldl (fun t k => <[k := m !!! k]> t) totals keys !! k
  = if decide (k ∈ keys) then Some (m !!! k) else totals !! k.
Proof.
  revert totals. induction keys as [|k' keys IH]; intros totals; cbn [foldl].
  { case_decide as Hin; [|done]. by apply elem_of_nil in Hin. }
  rewrite IH.
  destruct (decide (k ∈ keys)) as [Hin|Hnin].
  - rewrite decide_True; [done|]. by apply list_elem_of_further.
  - destruct (decide (k = k')) as [->|Hne].
    + rewrite decide_True by apply list_elem_of_here. by rewrite lookup_insert_eq.
    + rewrite decide_False by (intros [?|?]%elem_of_cons; done).
      by rewrite lookup_insert_ne.
Qed.

Lemma foldl_insert_keys (m : gmap string Z) :
  foldl (fun t k => <[k := m !!! k]> t) ∅ (sorted (elements (dom m))) = m.
Proof.
  apply map_eq. intros k. rewrite lookup_foldl_insert.
  destruct (decide _) as [Hin|Hnin].
  - apply elem_of_sorted_keys, elem_of_dom in Hin as [v Hv].
    by rewrite (lookup_total_correct _ _ _ Hv).
  - rewrite elem_of_sorted_keys in Hnin. rewrite lookup_empty.
    symmetry. by apply not_elem_of_dom.
Qed.

(** Loading what [save_csv] wrote gives the mapping back, when no key
    needs quoting. *)
Lemma load_save_csv (m : gmap string Z) :
  (forall k, k ∈ dom m -> plain k = true) ->
  load_existing_csv (Some (save_csv m)) = Some m.
Proof.
  intros Hkeys. unfold load_existing_csv, dict_reader.
  rewrite save_csv_rows, csv_reader_rows.
  2:{ constructor; [done|]. apply Forall_forall. intros [k v] Hin.
      apply list_elem_of_fmap in Hin as (k' & [= -> ->] & Hk').
      simpl. split; [apply Hkeys; by apply elem_of_sorted_keys|apply str_int_plain]. }
  simpl.
  assert (Hf : List.filter (fun row : list string => negb (bool_decide (row = [])))
                 (map (fun kv : string * string => [kv.1; kv.2])
                    (map (fun k => (k, str_int (m !!! k))) (sorted (elements (dom m)))))
               = map (fun k => [k; str_int (m !!! k)]) (sorted (elements (dom m)))).
  { induction (sorted (elements (dom m))) as [|k ks IH]; [done|]. simpl. by rewrite IH. }
  rewrite Hf, load_rows_written. by rewrite foldl_insert_keys.
Qed.

End CacheFileFacts.

(** ** The date range and the two string forms of a date *)

Section DateRangeFacts.
Import Csv CacheFile FetchGithubData.

Lemma le_refl d : Dates.le d d = true.
Proof.
  unfold Dates.le. rewrite !Z.ltb_irrefl. apply Z.leb_refl.
Qed.

Lemma add_one_day_some d end_ :
  valid d = true -> valid end_ = true -> year end_ < MAXYEAR ->
  Dates.le d end_ = true -> is_Some (add_one_day d).
Proof.
  intros Hd He Hy Hle. unfold add_one_day.
  destruct (day d <? _); [done|]. destruct (month d <? 12); [done|].
  assert (year d <= year end_).
  { unfold Dates.le in Hle. destruct (Z.ltb_spec (year d) (year end_)); [lia|].
    destruct (Z.ltb_spec (year end_) (year d)); [done|lia]. }
  destruct (Z.ltb_spec (year d) MAXYEAR); [done|lia].
Qed.

(** The dates of the loop are the days from [current] to [end_], each one
    day after the one before: the fuel never cuts the loop short. *)
Lemma iter_dates_ordinals fuel current end_ l :
  valid current = true -> valid end_ = true ->
  toordinal end_ - toordinal current < Z.of_nat fuel ->
  iter_dates fuel current end_ = Some l ->
  toordinal <$> l = seqZ (toordinal current) (toordinal end_ - toordinal current + 1)
  /\ Forall (fun d => valid d = true) l.
Proof.
  revert current l. induction fuel as [|fuel IH]; intros cur l Hc He Hf Hl.
  { simpl in Hl. inversion Hl; subst. split; [|constructor].
    rewrite seqZ_nil; [done|lia]. }
  simpl in Hl. destruct (Dates.le cur end_) eqn:Hle.
  - apply le_ordinal in Hle; [|done..].
    destruct (add_one_day cur) as [next|] eqn:Hnext; [|done]. simpl in Hl.
    destruct (iter_dates fuel next end_) as [l'|] eqn:Hl'; [|done].
    simpl in Hl. inversion Hl; subst l.
    pose proof (add_one_day_valid _ _ Hc Hnext) as Hv.
    pose proof (add_one_day_ordinal _ _ Hc Hnext) as Ho.
    destruct (IH next l' Hv He ltac:(lia) Hl') as [IH1 IH2].
    split; [|by constructor].
    rewrite fmap_cons, IH1, Ho.
    rewrite (seqZ_cons (toordinal cur)) by lia.
    f_equal. f_equal; lia.
  - inversion Hl; subst. split; [|constructor].
    assert (~ toordinal cur <= toordinal end_).
    { intros H. apply le_ordinal in H; [|done..]. congruence. }
    rewrite seqZ_nil; [done|lia].
Qed.

Lemma iter_date_range_ordinals start end_ l :
  valid start = true -> valid end_ = true ->
  iter_date_range start end_ = Some l ->
  toordinal <$> l = seqZ (toordinal start) (toordinal end_ - toordinal start + 1)
  /\ Forall (fun d => valid d = true) l.
Proof.
  intros Hs He Hl. apply (iter_dates_ordinals _ _ _ _ Hs He) in Hl; [done|lia].
Qed.

Lemma iter_date_range_valid start end_ l d :
  valid start = true -> valid end_ = true ->
  iter_date_range start end_ = Some l -> d ∈ l -> valid d = true.
Proof.
  intros Hs He Hl Hd.
  destruct (iter_date_range_ordinals _ _ _ Hs He Hl) as [_ Hv].
  rewrite Forall_forall in Hv. by apply Hv.
Qed.

(** Every date of the range lies between its bounds. *)
Lemma iter_date_range_bounds start end_ l d :
  valid start = true -> valid end_ = true ->
  iter_date_range start end_ = Some l -> d ∈ l ->
  Dates.le start d = true /\ Dates.le d end_ = true.
Proof.
  intros Hs He Hl Hd.
  pose proof (iter_date_range_valid _ _ _ _ Hs He Hl Hd) as Hv.
  destruct (iter_date_range_ordinals _ _ _ Hs He Hl) as [Ho _].
  assert (Hin : toordinal d ∈ toordinal <$> l) by by apply list_elem_of_fmap_2.
  rewrite Ho, elem_of_seqZ in Hin.
  split; apply le_ordinal; try done; lia.
Qed.

Lemma iter_date_range_start start end_ l :
  Dates.le start end_ = true -> valid start = true -> valid end_ = true ->
  iter_date_range start end_ = Some l -> start ∈ l.
Proof.
  intros Hle Hs He Hl. unfold iter_date_range in Hl.
  pose proof (proj1 (le_ordinal _ _ Hs He) Hle).
  destruct (Z.to_nat _) as [|fuel] eqn:Hfuel; [lia|].
  simpl in Hl. rewrite Hle in Hl.
  destruct (add_one_day start); [|done]. simpl in Hl.
  destruct (iter_dates _ _ _); [|done]. simpl in Hl.
  inversion Hl. apply list_elem_of_here.
Qed.

Lemma iter_date_range_some start end_ :
  valid start = true -> valid end_ = true -> year end_ < MAXYEAR ->
  is_Some (iter_date_range start end_).
Proof.
  intros Hs He Hy. unfold iter_date_range.
  generalize (Z.to_nat (toordinal end_ - toordinal start + 1)). intros fuel.
  revert start Hs. induction fuel as [|fuel IH]; intros cur Hc; [done|].
  simpl. destruct (Dates.le cur end_) eqn:Hle; [|done].
  destruct (add_one_day_some cur end_ Hc He Hy Hle) as [next Hnext].
  rewrite Hnext. simpl.
  destruct (IH next (add_one_day_valid _ _ Hc Hnext)) as [l ->]. done.
Qed.

Lemma toordinal_inj a b :
  valid a = true -> valid b = true -> toordinal a = toordinal b -> a = b.
Proof.
  intros Ha Hb Heq.
  assert (Hab : Dates.le a b = true) by (apply le_ordinal; [done..|lia]).
  assert (Hba : Dates.le b a = true) by (apply le_ordinal; [done..|lia]).
  destruct a as [y m d], b as [y' m' d']. unfold Dates.le in *; simpl in *.
  destruct (Z.ltb_spec y y'), (Z.ltb_spec y' y); try done; try lia.
  destruct (Z.ltb_spec m m'), (Z.ltb_spec m' m); try done; try lia.
  apply Z.leb_le in Hab, Hba. f_equal; lia.
Qed.

Lemma iter_date_range_NoDup start end_ l :
  valid start = true -> valid end_ = true ->
  iter_date_range start end_ = Some l -> NoDup l.
Proof.
  intros Hs He Hl.
  destruct (iter_date_range_ordinals _ _ _ Hs He Hl) as [Ho _].
  apply (NoDup_fmap_1 toordinal). rewrite Ho. apply NoDup_seqZ.
Qed.

Lemma pad2_inj a b : 0 <= a <= 99 -> 0 <= b <= 99 -> pad2 a = pad2 b -> a = b.
Proof.
  intros Ha Hb Heq. unfold pad2 in Heq. injection Heq as H1 H2.
  apply digit_inj in H1, H2; [|Z.div_mod_to_equations; lia..].
  Z.div_mod_to_equations; lia.
Qed.

Lemma pad4_inj a b : 0 <= a <= 9999 -> 0 <= b <= 9999 -> pad4 a = pad4 b -> a = b.
Proof.
  intros Ha Hb Heq. unfold pad4 in Heq. injection Heq as H1 H2 H3 H4.
  apply digit_inj in H1, H2, H3, H4; [|Z.div_mod_to_equations; lia..].
  Z.div_mod_to_equations; lia.
Qed.

(** Two dates with the same YYYY-MM-DD form are the same date. *)
Lemma isoformat_inj a b :
  valid a = true -> valid b = true -> isoformat a = isoformat b -> a = b.
Proof.
  intros Ha Hb Heq. apply valid_bounds in Ha, Hb.
  destruct a as [y m d], b as [y' m' d']; simpl in *.
  pose proof (days_in_month_bounds y m). pose proof (days_in_month_bounds y' m').
  unfold isoformat in Heq; simpl in Heq.
  assert (Hy : pad4 y = pad4 y' /\ pad2 m = pad2 m' /\ pad2 d = pad2 d').
  { unfold pad4, pad2 in *. rewrite !str_app_cons, !str_app_nil_l in Heq.
    injection Heq as -> -> -> -> -> -> -> ->. done. }
  destruct Hy as (Hy & Hm & Hd).
  apply pad4_inj in Hy; [|lia..]. apply pad2_inj in Hm, Hd; [|lia..].
  by subst.
Qed.

Lemma month_key_wf d : valid d = true -> wf_month (month_key d) = true.
Proof.
  intros Hv. apply valid_bounds in Hv. destruct d as [y m dd].
  cbn [year month day] in *.
  pose proof (days_in_month_bounds y m).
  unfold month_key, pad4, pad2. cbn [year month day].
  rewrite !str_app_cons, !str_app_nil_l.
  unfold wf_month.
  rewrite !digit_is_digit, !digit_val_digit by (Z.div_mod_to_equations; lia).
  change (Ascii.eqb "-" "-") with true. cbn [andb].
  apply andb_true_iff. split; apply Z.leb_le; Z.div_mod_to_equations; lia.
Qed.

End DateRangeFacts.

(** ** The scan: hours, days, and what reaches the disk *)

Section ScanFacts.
Import Csv CacheFile FetchGithubData.

Variable remote : archive.

(** *** One hour, one day *)

Lemma try_attempts_first sched resp day hour attempt backoff :
  exists rest,
    (try_attempts ((attempt, backoff) :: sched) resp day hour).2
    = Get day hour attempt :: rest.
Proof.
  simpl. destruct (resp attempt); eauto.
  destruct backoff; eauto.
  destruct (MAX_RETRIES <? attempt)%nat; eauto.
  destruct (try_attempts sched resp day hour). eauto.
Qed.

(** Every call of [stream_hourly_file] starts with a request. *)
Lemma stream_hourly_file_first day hour :
  exists rest, (stream_hourly_file remote day hour).2 = Get day hour 1 :: rest.
Proof. apply try_attempts_first. Qed.

Lemma stream_hourly_file_not_found day hour :
  remote day hour 1%nat = NotFound ->
  (stream_hourly_file remote day hour).1 = Some (-1).
Proof. intros H. unfold stream_hourly_file. simpl. by rewrite H. Qed.

Lemma stream_hourly_file_exhausted day hour :
  (forall attempt, remote day hour attempt = TransportError) ->
  (stream_hourly_file remote day hour).1 = None.
Proof. intros H. unfold stream_hourly_file. simpl. by rewrite !H. Qed.

(** The waits before the error is given up on. *)
Lemma stream_hourly_file_exhausted_effects day hour :
  (forall attempt, remote day hour attempt = TransportError) ->
  (stream_hourly_file remote day hour).2
  = [Get day hour 1; Sleep 2; Get day hour 2; Sleep 5; Get day hour 3; Sleep 15;
     Get day hour 4; Sleep 30; Get day hour 5; Sleep 60; Get day hour 6].
Proof. intros H. unfold stream_hourly_file. simpl. by rewrite !H. Qed.

Lemma hours_loop_cons day hour rest dc mh :
  hours_loop remote day (hour :: rest) dc mh
  = let r := stream_hourly_file remote day hour in
    let l := match r.1 with
             | None => hours_loop remote day rest dc mh
             | Some n =>
                 if n =? -1 then hours_loop remote day rest dc (mh + 1)
                 else hours_loop remote day rest (dc + n) mh
             end in
    (l.1.1, l.1.2, r.2 ++ l.2).
Proof.
  simpl. destruct (stream_hourly_file remote day hour) as [r tr]. simpl.
  destruct r as [n|]; [destruct (n =? -1)|];
    by destruct (hours_loop _ _ _ _ _) as [[? ?] ?].
Qed.

Lemma hours_loop_spec day hours dc mh :
  (hours_loop remote day hours dc mh).1.1
  = dc + foldr Z.add 0 (hour_contribution remote day <$> hours)
  /\ (hours_loop remote day hours dc mh).2
     = concat ((fun h => (stream_hourly_file remote day h).2) <$> hours).
Proof.
  revert dc mh. induction hours as [|h hours IH]; intros dc mh.
  { simpl. split; [lia|done]. }
  rewrite hours_loop_cons. cbv zeta. rewrite !fmap_cons. cbn [foldr concat fst snd].
  unfold hour_contribution at 1.
  destruct (stream_hourly_file remote day h).1 as [n|].
  - destruct (n =? -1).
    + destruct (IH dc (mh + 1)) as [-> ->]. split; [lia|done].
    + destruct (IH (dc + n) mh) as [-> ->]. split; [lia|done].
  - destruct (IH dc mh) as [-> ->]. split; [lia|done].
Qed.

(** The total of a day is the sum of its 24 hourly contributions. *)
Lemma day_total_sum day :
  day_total remote day = foldr Z.add 0 (hour_contribution remote day <$> seqZ 0 24).
Proof.
  unfold day_total, range24. by rewrite (proj1 (hours_loop_spec day _ 0 0)).
Qed.

Lemma day_requests_hours day :
  day_requests remote day
  = concat ((fun h => (stream_hourly_file remote day h).2) <$> seqZ 0 24).
Proof. unfold day_requests, range24. apply hours_loop_spec. Qed.

Lemma try_attempts_no_write sched resp day hour :
  forallb (fun e => negb (is_write e)) (try_attempts sched resp day hour).2 = true.
Proof.
  induction sched as [|[attempt backoff] sched IH]; [done|].
  simpl. destruct (resp attempt); try done.
  destruct backoff; [|done]. destruct (MAX_RETRIES <? attempt)%nat; [done|].
  destruct (try_attempts sched resp day hour). simpl in *. done.
Qed.

(** Fetching the hours of a day writes nothing. *)
Lemma day_requests_no_write day :
  forallb (fun e => negb (is_write e)) (day_requests remote day) = true.
Proof.
  rewrite day_requests_hours. induction (seqZ 0 24) as [|h hs IH]; [done|].
  rewrite fmap_cons. cbn [concat]. rewrite forallb_app, IH, andb_true_r.
  apply try_attempts_no_write.
Qed.

Lemma replay_no_write dk tr :
  forallb (fun e => negb (is_write e)) tr = true -> replay dk tr = dk.
Proof.
  unfold replay. revert dk. induction tr as [|e tr IH]; intros dk; [done|].
  simpl. intros [He Htr]%andb_true_iff. rewrite <- (IH dk Htr) at 2.
  by destruct e.
Qed.

Lemma forallb_take {A} (p : A -> bool) n l :
  forallb p l = true -> forallb p (take n l) = true.
Proof.
  revert n. induction l as [|x l IH]; intros [|n]; simpl; try done.
  intros [-> ?]%andb_true_iff. simpl. by apply IH.
Qed.

Lemma replay_app dk tr1 tr2 : replay dk (tr1 ++ tr2) = replay (replay dk tr1) tr2.
Proof. unfold replay. apply fold_left_app. Qed.

End ScanFacts.

(** ** The loop over the pending days *)

Section DaysLoopFacts.
Import Csv CacheFile FetchGithubData.

Variable remote : archive.

Lemma days_loop_cons day rest (done_days : gset string) (totals : gmap string Z) dk :
  days_loop remote (day :: rest) done_days totals dk
  = let done' := {[isoformat day]} ∪ done_days in
    let totals' := add_day remote totals day in
    let r := days_loop remote rest done' totals'
               (save_csv totals' (save_checkpoint done' dk)) in
    (r.1.1.1, r.1.1.2, r.1.2,
     day_requests remote day
       ++ SaveCheckpoint (checkpoint_lines done')
       :: SaveCsv (CacheFile.save_csv totals') :: r.2).
Proof.
  simpl. unfold add_day.
  by destruct (days_loop _ _ _ _ _) as [[[? ?] ?] ?].
Qed.

Lemma done_after_cons day rest (done_days : gset string) :
  done_after (day :: rest) done_days = done_after rest ({[isoformat day]} ∪ done_days).
Proof. done. Qed.

Lemma totals_after_cons day rest (totals : gmap string Z) :
  totals_after remote (day :: rest) totals
  = totals_after remote rest (add_day remote totals day).
Proof. done. Qed.

Lemma elem_of_done_after days (done_days : gset string) s :
  s ∈ done_after days done_days <-> s ∈ done_days \/ s ∈ isoformat <$> days.
Proof.
  revert done_days. induction days as [|d days IH]; intros done_days.
  { simpl. rewrite elem_of_nil. tauto. }
  rewrite done_after_cons, IH, fmap_cons, elem_of_cons, elem_of_union,
    elem_of_singleton. tauto.
Qed.

Lemma disk_with_days_cons day rest (done_days : gset string)
    (totals : gmap string Z) dk j :
  disk_with_days remote
    (save_csv (add_day remote totals day)
       (save_checkpoint ({[isoformat day]} ∪ done_days) dk))
    rest ({[isoformat day]} ∪ done_days) (add_day remote totals day) j
  = disk_with_days remote dk (day :: rest) done_days totals (S j).
Proof. by destruct j. Qed.

(** What the loop leaves: the variables, the disk, and the disk again as
    the replay of its effects. *)
Lemma days_loop_spec pending (done_days : gset string) (totals : gmap string Z) dk :
  let r := days_loop remote pending done_days totals dk in
  r.1.1.1 = disk_with_days remote dk pending done_days totals (length pending)
  /\ r.1.1.2 = done_after pending done_days
  /\ r.1.2 = totals_after remote pending totals.
Proof.
  revert done_days totals dk.
  induction pending as [|d rest IH]; intros done_days totals dk; [done|].
  cbv zeta. rewrite days_loop_cons. cbv zeta. cbn [fst snd].
  destruct (IH ({[isoformat d]} ∪ done_days) (add_day remote totals d)
              (save_csv (add_day remote totals d)
                 (save_checkpoint ({[isoformat d]} ∪ done_days) dk)))
    as (-> & -> & ->).
  by rewrite disk_with_days_cons.
Qed.

(** An interrupted loop: the cache is as some number [j] of whole days
    left it, and the checkpoint is as [j] or as [j + 1] days left it. *)
Lemma days_loop_interrupted pending (done_days : gset string)
    (totals : gmap string Z) dk n :
  exists j, (j <= length pending)%nat /\
    let now := replay dk (take n (days_loop remote pending done_days totals dk).2) in
    let D := disk_with_days remote dk pending done_days totals in
    csv_file now = csv_file (D j)
    /\ (checkpoint_file now = checkpoint_file (D j)
        \/ (j < length pending)%nat /\ checkpoint_file now = checkpoint_file (D (S j))).
Proof.
  revert done_days totals dk n.
  induction pending as [|d rest IH]; intros done_days totals dk n.
  { exists O. simpl. rewrite take_nil. auto. }
  rewrite days_loop_cons. cbv zeta. cbn [snd].
  set (done' := {[isoformat d]} ∪ done_days).
  set (totals' := add_day remote totals d).
  set (dk' := save_csv totals' (save_checkpoint done' dk)).
  set (reqs := day_requests remote d).
  pose proof (day_requests_no_write remote d) as Hreqs. fold reqs in Hreqs.
  rewrite take_app.
  destruct (decide (n <= length reqs)%nat) as [Hn|Hn].
  - (* stopped among the requests of the first day *)
    exists O. split; [simpl; lia|].
    replace (n - length reqs)%nat with O by lia. rewrite take_0, app_nil_r.
    rewrite replay_no_write by by apply forallb_take. auto.
  - rewrite take_ge by lia. rewrite replay_app, (replay_no_write dk reqs) by done.
    destruct (n - length reqs)%nat as [|[|k]] eqn:Hk; [lia| |].
    + (* stopped between the two writes *)
      exists O. split; [simpl; lia|]. simpl. split; [done|].
      right. split; [lia|]. done.
    + (* the first day is on the disk *)
      cbn [take]. change (replay dk (?a :: ?b :: ?l)) with (replay dk' l).
      destruct (IH done' totals' dk' k) as (j & Hj & Hcsv & Hck).
      exists (S j). split; [simpl; lia|]. cbv zeta in *.
      subst dk' totals' done'.
      rewrite disk_with_days_cons in Hcsv, Hck. split; [done|].
      destruct Hck as [Hck|[Hlt Hck]]; [by left|right].
      split; [simpl; lia|]. by rewrite disk_with_days_cons in Hck.
Qed.

Lemma days_loop_replay pending (done_days : gset string) (totals : gmap string Z) dk :
  replay dk (days_loop remote pending done_days totals dk).2
  = (days_loop remote pending done_days totals dk).1.1.1.
Proof.
  revert done_days totals dk.
  induction pending as [|d rest IH]; intros done_days totals dk; [done|].
  rewrite days_loop_cons. cbv zeta. cbn [fst snd].
  rewrite replay_app.
  rewrite (replay_no_write dk (day_requests remote d)) by apply day_requests_no_write.
  rewrite <- IH. done.
Qed.

Lemma elem_of_checkpoint_lines (done_days : gset string) s :
  s ∈ checkpoint_lines done_days <-> s ∈ done_days.
Proof. unfold checkpoint_lines. by rewrite sorted_perm, elem_of_elements. Qed.

Lemma load_save_checkpoint (done_days : gset string) dk :
  load_checkpoint (save_checkpoint done_days dk) = done_days.
Proof.
  unfold load_checkpoint, save_checkpoint. simpl.
  apply set_eq. intros s. by rewrite elem_of_list_to_set, elem_of_checkpoint_lines.
Qed.

(** Each pending day: its requests, then the checkpoint with the day in
    it, then the cache; and no checkpoint written before has the day. *)
Lemma days_loop_day pending (done_days : gset string) (totals : gmap string Z) dk d :
  d ∈ pending ->
  isoformat d ∉ done_days ->
  NoDup (isoformat <$> pending) ->
  exists before after lines text,
    (days_loop remote pending done_days totals dk).2
    = before ++ day_requests remote d ++ SaveCheckpoint lines :: SaveCsv text :: after
    /\ isoformat d ∈ lines
    /\ forall lines', SaveCheckpoint lines' ∈ before -> isoformat d ∉ lines'.
Proof.
  revert done_days totals dk.
  induction pending as [|d' rest IH]; intros done_days totals dk Hd Hnot Hnd.
  { by apply elem_of_nil in Hd. }
  rewrite fmap_cons in Hnd. apply NoDup_cons in Hnd as [Hd' Hnd].
  rewrite days_loop_cons. cbv zeta. cbn [snd].
  apply elem_of_cons in Hd as [->|Hd].
  - exists [], (days_loop remote rest ({[isoformat d']} ∪ done_days)
                 (add_day remote totals d')
                 (save_csv (add_day remote totals d')
                    (save_checkpoint ({[isoformat d']} ∪ done_days) dk))).2.
    eexists _, _. split; [done|]. split.
    + apply elem_of_checkpoint_lines, elem_of_union. left.
      by apply elem_of_singleton.
    + intros lines' Hin. by apply elem_of_nil in Hin.
  - assert (Hne : isoformat d <> isoformat d').
    { intros Heq. apply Hd'. rewrite <- Heq. by apply list_elem_of_fmap_2. }
    destruct (IH ({[isoformat d']} ∪ done_days) (add_day remote totals d')
                (save_csv (add_day remote totals d')
                   (save_checkpoint ({[isoformat d']} ∪ done_days) dk)) Hd)
      as (before & after & lines & text & Heq & Hin & Hbefore);
      [by intros [?%elem_of_singleton|?]%elem_of_union|done|].
    exists (day_requests remote d'
              ++ SaveCheckpoint (checkpoint_lines ({[isoformat d']} ∪ done_days))
              :: SaveCsv (CacheFile.save_csv (add_day remote totals d')) :: before).
    exists after, lines, text. split; [|split; [done|]].
    + rewrite Heq. rewrite <- !app_assoc. done.
    + intros lines' Hl. apply elem_of_app in Hl as [Hl|Hl].
      { pose proof (day_requests_no_write remote d') as Hnw.
        rewrite forallb_forall in Hnw. apply list_elem_of_In, Hnw in Hl. done. }
      apply elem_of_cons in Hl as [Hl|Hl].
      { inversion Hl; subst. rewrite elem_of_checkpoint_lines.
        by intros [?%elem_of_singleton|?]%elem_of_union. }
      apply elem_of_cons in Hl as [Hl|Hl]; [done|]. by apply Hbefore.
Qed.

(** *** Stops inside a write *)

Lemma cut_lines_all lines k : cut_lines lines (length lines) k = lines.
Proof.
  unfold cut_lines. rewrite firstn_all, lookup_ge_None_2 by lia. apply app_nil_r.
Qed.

Lemma cut_lines_none lines : cut_lines lines 0 0 = [].
Proof. unfold cut_lines, beginning. by destruct lines as [|[|c line] lines]. Qed.

Lemma cut_effect_no_write dk e i k : is_write e = false -> cut_effect dk e i k = dk.
Proof. by destruct e. Qed.

(** A loop stopped inside one of its effects: for some number [j] of
    whole days, the two files are as these days left them (the effect is
    a request or a wait); or the cache is, and the checkpoint is cut in
    the writing of the next day's; or the checkpoint has the next day,
    and the cache is cut in the writing of the next day's. *)
Lemma days_loop_inside pending (done_days : gset string)
    (totals : gmap string Z) dk n i k e :
  (days_loop remote pending done_days totals dk).2 !! n = Some e ->
  exists j, (j < length pending)%nat /\
    let now :=
      cut_effect
        (replay dk (take n (days_loop remote pending done_days totals dk).2)) e i k in
    let D := disk_with_days remote dk pending done_days totals in
    (csv_file now = csv_file (D j) /\ checkpoint_file now = checkpoint_file (D j))
    \/ (csv_file now = csv_file (D j)
        /\ exists lines,
             checkpoint_file (D (S j)) = Some lines
             /\ checkpoint_file now = Some (cut_lines lines i k))
    \/ (checkpoint_file now = checkpoint_file (D (S j))
        /\ exists text,
             csv_file (D (S j)) = Some text
             /\ csv_file now = Some (beginning k text)).
Proof.
  revert done_days totals dk n.
  induction pending as [|d rest IH]; intros done_days totals dk n; [done|].
  rewrite days_loop_cons. cbv zeta. cbn [snd].
  set (done' := {[isoformat d]} ∪ done_days).
  set (totals' := add_day remote totals d).
  set (dk' := save_csv totals' (save_checkpoint done' dk)).
  set (reqs := day_requests remote d).
  pose proof (day_requests_no_write remote d) as Hreqs. fold reqs in Hreqs.
  intros He. rewrite take_app.
  destruct (decide (n < length reqs)%nat) as [Hn|Hn].
  - (* inside a request or a wait of the first day *)
    rewrite lookup_app_l in He by done.
    exists O. split; [simpl; lia|].
    replace (n - length reqs)%nat with O by lia. rewrite take_0, app_nil_r.
    rewrite replay_no_write by by apply forallb_take.
    rewrite cut_effect_no_write; [by left|].
    rewrite forallb_forall in Hreqs.
    apply list_elem_of_lookup_2, list_elem_of_In, Hreqs in He.
    by destruct (is_write e).
  - rewrite lookup_app_r in He by lia.
    rewrite take_ge by lia. rewrite replay_app, (replay_no_write dk reqs) by done.
    destruct (n - length reqs)%nat as [|[|m]] eqn:Hm.
    + (* inside the write of the checkpoint *)
      injection He as <-. exists O. split; [simpl; lia|].
      right. left. cbn [take replay fold_left cut_effect csv_file checkpoint_file].
      split; [done|]. eexists. split; [|done]. done.
    + (* inside the write of the cache *)
      injection He as <-. exists O. split; [simpl; lia|].
      right. right.
      cbn [take replay fold_left apply_effect cut_effect csv_file checkpoint_file].
      split; [done|]. eexists. split; [|done]. done.
    + cbn [lookup list_lookup] in He. cbn [take].
      change (replay dk (?a :: ?b :: ?l)) with (replay dk' l).
      destruct (IH done' totals' dk' m He) as (j & Hj & Hcases).
      exists (S j). split; [simpl; lia|]. cbv zeta in *.
      subst dk' totals' done'.
      by rewrite !disk_with_days_cons in Hcases.
Qed.

(** The two writes of the pending day at place [j]: the effects before
    them leave the disk as [j] whole days left it. *)
Lemma days_loop_writes_of_day pending (done_days : gset string)
    (totals : gmap string Z) dk j d :
  pending !! j = Some d ->
  exists n,
    replay dk (take n (days_loop remote pending done_days totals dk).2)
    = disk_with_days remote dk pending done_days totals j
    /\ (days_loop remote pending done_days totals dk).2 !! n
       = Some (SaveCheckpoint
                 (checkpoint_lines (done_after (take (S j) pending) done_days)))
    /\ (days_loop remote pending done_days totals dk).2 !! S n
       = Some (SaveCsv
                 (CacheFile.save_csv (totals_after remote (take (S j) pending) totals))).
Proof.
  revert done_days totals dk j.
  induction pending as [|d0 rest IH]; intros done_days totals dk j Hj; [done|].
  rewrite days_loop_cons. cbv zeta. cbn [snd].
  set (done' := {[isoformat d0]} ∪ done_days).
  set (totals' := add_day remote totals d0).
  set (dk' := save_csv totals' (save_checkpoint done' dk)).
  set (reqs := day_requests remote d0).
  pose proof (day_requests_no_write remote d0) as Hreqs. fold reqs in Hreqs.
  destruct j as [|j].
  - exists (length reqs). rewrite take_app, firstn_all, Nat.sub_diag, take_0, app_nil_r.
    rewrite replay_no_write by done. split; [done|].
    rewrite !lookup_app_r by lia.
    replace (S (length reqs) - length reqs)%nat with 1%nat by lia.
    rewrite Nat.sub_diag. done.
  - simpl in Hj. destruct (IH done' totals' dk' j Hj) as (n & Hrep & Hck & Hcsv).
    exists (S (S (length reqs + n))). rewrite take_app, take_ge by lia.
    replace (S (S (length reqs + n)) - length reqs)%nat with (S (S n)) by lia.
    cbn [take]. rewrite replay_app, (replay_no_write dk reqs) by done.
    change (replay dk (?a :: ?b :: ?l)) with (replay dk' l).
    rewrite Hrep. subst dk' totals' done'. rewrite disk_with_days_cons.
    split; [done|]. rewrite !lookup_app_r by lia.
    replace (S (S (length reqs + n)) - length reqs)%nat with (S (S n)) by lia.
    replace (S (S (S (length reqs + n))) - length reqs)%nat with (S (S (S n))) by lia.
    split; [exact Hck|exact Hcsv].
Qed.

End DaysLoopFacts.

(** ** [fetch] *)

Section FetchFacts.
Import Csv CacheFile FetchGithubData.

Lemma prepare_inv dk start end_ force pending (done_days : gset string)
    (totals : gmap string Z) :
  prepare dk start end_ force = Some (pending, done_days, totals) ->
  done_days = (if force then ∅ else load_checkpoint dk)
  /\ load_existing_csv dk = Some totals
  /\ exists all_dates,
       iter_date_range start end_ = Some all_dates
       /\ pending = pending_days all_dates done_days.
Proof.
  unfold prepare. intros H.
  destruct (load_existing_csv dk) as [t|]; [|done].
  destruct (iter_date_range start end_) as [all_dates|]; [|done].
  simpl in H. inversion H; subst. eauto.
Qed.

Lemma elem_of_pending_days all_dates (done_days : gset string) d :
  d ∈ pending_days all_dates done_days <-> d ∈ all_dates /\ isoformat d ∉ done_days.
Proof.
  unfold pending_days. rewrite !list_elem_of_In, filter_In, bool_decide_eq_true.
  done.
Qed.

Lemma fetch_nothing_pending remote dk start end_ force (done_days : gset string)
    (totals : gmap string Z) :
  prepare dk start end_ force = Some ([], done_days, totals) ->
  fetch remote dk start end_ force = mkrun dk (Some totals) [].
Proof. intros H. unfold fetch. by rewrite H. Qed.

Lemma fetch_pending remote dk start end_ force pending (done_days : gset string)
    (totals : gmap string Z) :
  prepare dk start end_ force = Some (pending, done_days, totals) ->
  pending <> [] ->
  fetch remote dk start end_ force
  = mkrun (disk_with_days remote dk pending done_days totals (length pending))
          (Some (totals_after remote pending totals))
          (days_loop remote pending done_days totals dk).2.
Proof.
  intros H Hne. unfold fetch. rewrite H.
  destruct (days_loop_spec remote pending done_days totals dk) as (H1 & _ & H3).
  destruct pending as [|d rest]; [done|].
  destruct (days_loop remote (d :: rest) done_days totals dk) as [[[? ?] ?] ?].
  simpl in *. by subst.
Qed.

Lemma fetch_raises remote dk start end_ force :
  prepare dk start end_ force = None ->
  fetch remote dk start end_ force = mkrun dk None [].
Proof. intros H. unfold fetch. by rewrite H. Qed.

(** The pending days of a run are valid dates with pairwise different
    YYYY-MM-DD forms. *)
Lemma pending_valid dk start end_ force pending (done_days : gset string)
    (totals : gmap string Z) :
  valid start = true -> valid end_ = true ->
  prepare dk start end_ force = Some (pending, done_days, totals) ->
  Forall (fun d => valid d = true) pending /\ NoDup (isoformat <$> pending).
Proof.
  intros Hs He Hp. apply prepare_inv in Hp as (_ & _ & all_dates & Hall & ->).
  assert (Hv : forall d, d ∈ pending_days all_dates done_days -> valid d = true).
  { intros d [Hd _]%elem_of_pending_days.
    exact (iter_date_range_valid start end_ all_dates d Hs He Hall Hd). }
  split; [by apply Forall_forall|].
  apply NoDup_fmap_2_strong.
  - intros a b Ha Hb. apply isoformat_inj; auto.
  - unfold pending_days. apply NoDup_ListNoDup, List.NoDup_filter, NoDup_ListNoDup.
    exact (iter_date_range_NoDup start end_ all_dates Hs He Hall).
Qed.

Lemma totals_after_dom remote days (totals : gmap string Z) k :
  k ∈ dom (totals_after remote days totals) ->
  k ∈ dom totals \/ k ∈ month_key <$> days.
Proof.
  revert totals. induction days as [|d days IH]; intros totals; [by left|].
  rewrite totals_after_cons. intros [Hk|Hk]%IH.
  - unfold add_day in Hk. rewrite dom_insert_L in Hk.
    apply elem_of_union in Hk as [->%elem_of_singleton|Hk]; [|by left].
    right. rewrite fmap_cons. apply list_elem_of_here.
  - right. rewrite fmap_cons. by apply list_elem_of_further.
Qed.

Lemma totals_after_well_formed remote days (totals : gmap string Z) :
  well_formed totals -> Forall (fun d => valid d = true) days ->
  well_formed (totals_after remote days totals).
Proof.
  intros Hwf Hv k [Hk|Hk]%totals_after_dom; [by apply Hwf|].
  apply list_elem_of_fmap in Hk as (d & -> & Hd).
  rewrite Forall_forall in Hv. by apply month_key_wf, Hv.
Qed.

Lemma well_formed_plain (totals : gmap string Z) :
  well_formed totals -> forall k, k ∈ dom totals -> plain k = true.
Proof. intros Hwf k Hk. by apply wf_month_plain, Hwf. Qed.

(** A check of [well_formed] that computes. *)
Lemma well_formed_check (totals : gmap string Z) :
  forallb wf_month (elements (dom totals)) = true -> well_formed totals.
Proof.
  intros H k Hk. rewrite forallb_forall in H.
  by apply H, list_elem_of_In, elem_of_elements.
Qed.

End FetchFacts.

(** ** Runs of [fetch]: what is attempted, what is written, what a second
    run finds *)

Section FetchRuns.
Import Csv CacheFile FetchGithubData.

Lemma pending_days_none all_dates (done_days : gset string) :
  (forall d, d ∈ all_dates -> isoformat d ∈ done_days) ->
  pending_days all_dates done_days = [].
Proof.
  intros H. induction all_dates as [|d l IH]; [done|].
  unfold pending_days in *. simpl.
  rewrite bool_decide_eq_false_2.
  - apply IH. intros d' Hd'. apply H. by apply list_elem_of_further.
  - intros Hn. apply Hn, H, list_elem_of_here.
Qed.

Lemma pending_days_all all_dates : pending_days all_dates ∅ = all_dates.
Proof.
  induction all_dates as [|d l IH]; [done|].
  unfold pending_days in *. simpl.
  rewrite bool_decide_eq_true_2 by apply not_elem_of_empty.
  by rewrite IH.
Qed.

Lemma disk_with_all_days remote dk pending (done_days : gset string)
    (totals : gmap string Z) :
  pending <> [] ->
  disk_with_days remote dk pending done_days totals (length pending)
  = mkdisk (Some (checkpoint_lines (done_after pending done_days)))
           (Some (CacheFile.save_csv (totals_after remote pending totals))).
Proof.
  intros Hne. destruct pending as [|d rest]; [done|].
  unfold disk_with_days. cbn [length].
  change (S (length rest)) with (length (d :: rest)). by rewrite firstn_all.
Qed.

Lemma load_checkpoint_lines (done_days : gset string) text :
  load_checkpoint (mkdisk (Some (checkpoint_lines done_days)) text) = done_days.
Proof.
  unfold load_checkpoint. simpl. apply set_eq. intros s.
  by rewrite elem_of_list_to_set, elem_of_checkpoint_lines.
Qed.

Lemma days_loop_requests remote pending (done_days : gset string)
    (totals : gmap string Z) dk d e :
  d ∈ pending -> e ∈ day_requests remote d ->
  e ∈ (days_loop remote pending done_days totals dk).2.
Proof.
  revert done_days totals dk.
  induction pending as [|d' rest IH]; intros done_days totals dk Hd He.
  { by apply elem_of_nil in Hd. }
  rewrite days_loop_cons. cbv zeta. cbn [snd].
  apply elem_of_app. apply elem_of_cons in Hd as [->|Hd]; [by left|right].
  do 2 apply list_elem_of_further. by apply IH.
Qed.

Lemma first_request_of_hour remote d h :
  0 <= h < 24 -> Get d h 1 ∈ day_requests remote d.
Proof.
  intros Hh. rewrite day_requests_hours.
  assert (Hin : h ∈ seqZ 0 24) by (apply elem_of_seqZ; lia).
  induction (seqZ 0 24) as [|h' hs IH]; [by apply elem_of_nil in Hin|].
  rewrite fmap_cons. cbn [concat]. apply elem_of_app.
  apply elem_of_cons in Hin as [->|Hin]; [left|right; by apply IH].
  destruct (stream_hourly_file_first remote d h') as [rest ->].
  apply list_elem_of_here.
Qed.

(** A run that is not interrupted leaves the disk its effects add up to. *)
Lemma fetch_replay remote dk start end_ force :
  replay dk (effects (fetch remote dk start end_ force))
  = disk_after (fetch remote dk start end_ force).
Proof.
  destruct (prepare dk start end_ force) as [[[pending done_days] totals]|] eqn:Hp.
  2:{ by rewrite fetch_raises. }
  destruct (decide (pending = [])) as [->|Hne].
  { by rewrite (fetch_nothing_pending remote _ _ _ _ _ _ Hp). }
  rewrite (fetch_pending remote _ _ _ _ _ _ _ Hp Hne). cbn [effects disk_after].
  rewrite days_loop_replay. apply days_loop_spec.
Qed.

(** With [start] after [end_] there is no day at all: nothing is
    requested and nothing is written, with or without [force]. *)
Lemma fetch_empty_range remote dk start end_ force (totals : gmap string Z) :
  Dates.le start end_ = false ->
  load_existing_csv dk = Some totals ->
  fetch remote dk start end_ force = mkrun dk (Some totals) [].
Proof.
  intros Hle Hload.
  assert (Hrange : iter_date_range start end_ = Some []).
  { unfold iter_date_range. destruct (Z.to_nat _); [done|]. simpl. by rewrite Hle. }
  apply (fetch_nothing_pending remote _ _ _ _ (if force then ∅ else load_checkpoint dk)).
  unfold prepare. by rewrite Hload, Hrange.
Qed.

(** C4.  For every pending day of a run: all 24 hours are requested; the
    requests of the day come before the first checkpoint that has the day,
    which is followed by the write of the cache; the day is in the
    checkpoint the run leaves, whatever the hours gave; the total of the
    day is the sum of the contributions of its hours, and an hour that is
    not found, or whose every attempt fails, contributes zero. *)
Theorem all_hours_attempted_then_day_completed
    remote dk start end_ force pending (done_days : gset string)
    (totals : gmap string Z) d :
  valid start = true -> valid end_ = true ->
  prepare dk start end_ force = Some (pending, done_days, totals) ->
  d ∈ pending ->
  let r := fetch remote dk start end_ force in
  (forall h, 0 <= h < 24 -> Get d h 1 ∈ day_requests remote d)
  /\ (exists before after lines text,
        effects r
        = before ++ day_requests remote d
            ++ SaveCheckpoint lines :: SaveCsv text :: after
        /\ isoformat d ∈ lines
        /\ forall lines', SaveCheckpoint lines' ∈ before -> isoformat d ∉ lines')
  /\ isoformat d ∈ load_checkpoint (disk_after r)
  /\ day_total remote d
     = foldr Z.add 0 (hour_contribution remote d <$> seqZ 0 24)
  /\ (forall h, remote d h 1%nat = NotFound -> hour_contribution remote d h = 0)
  /\ (forall h, (forall attempt, remote d h attempt = TransportError) ->
                hour_contribution remote d h = 0).
Proof.
  intros Hs He Hp Hd r.
  assert (Hne : pending <> []) by (intros ->; by apply elem_of_nil in Hd).
  destruct (pending_valid _ _ _ _ _ _ _ Hs He Hp) as [Hv Hnd].
  pose proof (prepare_inv _ _ _ _ _ _ _ Hp) as (_ & _ & all_dates & _ & Hpd).
  assert (Hnot : isoformat d ∉ done_days).
  { rewrite Hpd in Hd. by apply elem_of_pending_days in Hd as [_ ?]. }
  subst r. rewrite (fetch_pending remote _ _ _ _ _ _ _ Hp Hne). cbn [effects disk_after].
  split; [intros h Hh; by apply first_request_of_hour|].
  split; [by apply days_loop_day|].
  split.
  { rewrite disk_with_all_days, load_checkpoint_lines by done.
    apply elem_of_done_after. right. by apply list_elem_of_fmap_2. }
  split; [apply day_total_sum|].
  split.
  - intros h Hh. unfold hour_contribution.
    by rewrite stream_hourly_file_not_found.
  - intros h Hh. unfold hour_contribution.
    by rewrite stream_hourly_file_exhausted.
Qed.

(** C5.  After a run over a range that returned, a second run over the
    same range without [force] finds nothing pending, returns the totals
    it loads, which are those of the first run, and has no effect at all:
    no request, no write. *)
Theorem second_run_changes_nothing
    remote remote' dk start end_ force (totals0 totals1 : gmap string Z) :
  valid start = true -> valid end_ = true ->
  load_existing_csv dk = Some totals0 -> well_formed totals0 ->
  returned (fetch remote dk start end_ force) = Some totals1 ->
  let dk1 := disk_after (fetch remote dk start end_ force) in
  load_existing_csv dk1 = Some totals1
  /\ prepare dk1 start end_ false = Some ([], load_checkpoint dk1, totals1)
  /\ fetch remote' dk1 start end_ false = mkrun dk1 (Some totals1) [].
Proof.
  intros Hs He Hload0 Hwf Hret dk1.
  destruct (prepare dk start end_ force) as [[[pending done_days] totals]|] eqn:Hp.
  2:{ rewrite fetch_raises in Hret by done. done. }
  pose proof (prepare_inv _ _ _ _ _ _ _ Hp) as (Hdone & Hload & all_dates & Hall & Hpd).
  assert (totals = totals0) as -> by congruence.
  assert (Hprep : load_existing_csv dk1 = Some totals1 /\
                  pending_days all_dates (load_checkpoint dk1) = []).
  { destruct pending as [|d0 rest] eqn:Hpend.
    - subst dk1. rewrite (fetch_nothing_pending remote _ _ _ _ _ _ Hp) in *.
      simpl in *. inversion Hret; subst totals1. split; [done|].
      destruct force; [|by subst].
      subst done_days. rewrite pending_days_all in Hpd. by subst.
    - rewrite <- Hpend in *.
      assert (Hne : pending <> []) by (by rewrite Hpend).
      subst dk1. rewrite (fetch_pending remote _ _ _ _ _ _ _ Hp Hne) in *.
      cbn [returned disk_after] in *. inversion Hret; subst totals1.
      rewrite disk_with_all_days by done.
      destruct (pending_valid _ _ _ _ _ _ _ Hs He Hp) as [Hv _].
      split.
      + unfold load_existing_csv. cbn [csv_file]. apply load_save_csv.
        apply well_formed_plain, totals_after_well_formed; auto.
      + rewrite load_checkpoint_lines. apply pending_days_none.
        intros d Hd. apply elem_of_done_after.
        destruct (decide (isoformat d ∈ done_days)) as [?|Hn]; [by left|right].
        apply list_elem_of_fmap_2. rewrite Hpd. by apply elem_of_pending_days. }
  destruct Hprep as [Hload1 Hnone].
  assert (Hp1 : prepare dk1 start end_ false = Some ([], load_checkpoint dk1, totals1)).
  { unfold prepare. rewrite Hload1, Hall. simpl. by rewrite Hnone. }
  split; [done|]. split; [done|].
  by apply (fetch_nothing_pending remote' _ _ _ _ _ _ Hp1).
Qed.

(** C9.  A run with [force] over a range [start..end_] leaves a checkpoint
    file that lists the days of that range and nothing else.  A day that
    was checkpointed before and lies outside the range is no longer in
    it, and a later run without [force] over a range that has the day
    finds it pending and requests it again. *)
Theorem force_run_rewrites_checkpoint
    remote dk start end_ all_dates (totals0 : gmap string Z) :
  valid start = true -> valid end_ = true -> Dates.le start end_ = true ->
  iter_date_range start end_ = Some all_dates ->
  load_existing_csv dk = Some totals0 -> well_formed totals0 ->
  let dk1 := disk_after (fetch remote dk start end_ true) in
  checkpoint_file dk1
  = Some (checkpoint_lines (list_to_set (isoformat <$> all_dates)))
  /\ (forall s, s ∈ load_checkpoint dk1 <-> s ∈ isoformat <$> all_dates)
  /\ forall d,
       valid d = true -> isoformat d ∈ load_checkpoint dk ->
       (Dates.le start d && Dates.le d end_) = false ->
       (isoformat d ∉ load_checkpoint dk1)
       /\ forall remote' start' end' dates',
            iter_date_range start' end' = Some dates' -> d ∈ dates' ->
            d ∈ pending_days dates' (load_checkpoint dk1)
            /\ Get d 0 1 ∈ effects (fetch remote' dk1 start' end' false).
Proof.
  intros Hs He Hle Hall Hload Hwf dk1.
  assert (Hp : prepare dk start end_ true = Some (all_dates, ∅, totals0)).
  { unfold prepare. rewrite Hload, Hall. simpl. by rewrite pending_days_all. }
  assert (Hne : all_dates <> []).
  { pose proof (iter_date_range_start _ _ _ Hle Hs He Hall) as Hin.
    intros ->. by apply elem_of_nil in Hin. }
  destruct (pending_valid _ _ _ _ _ _ _ Hs He Hp) as [Hv _].
  assert (Hdone : done_after all_dates ∅ = list_to_set (isoformat <$> all_dates)).
  { apply set_eq. intros s. rewrite elem_of_done_after, elem_of_list_to_set.
    split; [intros [Hs0|Hs0]; [by apply elem_of_empty in Hs0|done]|by right]. }
  assert (Hdk1 : dk1 = mkdisk
                   (Some (checkpoint_lines (list_to_set (isoformat <$> all_dates))))
                   (Some (CacheFile.save_csv (totals_after remote all_dates totals0)))).
  { subst dk1. rewrite (fetch_pending remote _ _ _ _ _ _ _ Hp Hne).
    cbn [disk_after]. by rewrite disk_with_all_days, Hdone. }
  assert (Hck : forall s, s ∈ load_checkpoint dk1 <-> s ∈ isoformat <$> all_dates).
  { intros s. by rewrite Hdk1, load_checkpoint_lines, elem_of_list_to_set. }
  split; [by rewrite Hdk1|]. split; [done|].
  intros d Hd Hwas Hout.
  assert (Hnot : isoformat d ∉ load_checkpoint dk1).
  { rewrite Hck. intros (d' & Heq & Hd')%list_elem_of_fmap.
    rewrite Forall_forall in Hv.
    apply isoformat_inj in Heq; [|by auto..]. subst d'.
    destruct (iter_date_range_bounds _ _ _ _ Hs He Hall Hd') as [H1 H2].
    by rewrite H1, H2 in Hout. }
  split; [done|].
  intros remote' start' end' dates' Hdates' Hin.
  assert (Hpend : d ∈ pending_days dates' (load_checkpoint dk1))
    by by apply elem_of_pending_days.
  split; [done|].
  assert (Hload1 : load_existing_csv dk1
                   = Some (totals_after remote all_dates totals0)).
  { rewrite Hdk1. unfold load_existing_csv. cbn [csv_file]. apply load_save_csv.
    apply well_formed_plain, totals_after_well_formed; auto. }
  assert (Hp1 : prepare dk1 start' end' false
                = Some (pending_days dates' (load_checkpoint dk1),
                        load_checkpoint dk1,
                        totals_after remote all_dates totals0)).
  { unfold prepare. by rewrite Hload1, Hdates'. }
  rewrite (fetch_pending remote' _ _ _ _ _ _ _ Hp1).
  2:{ intros Heq. rewrite Heq in Hpend. by apply elem_of_nil in Hpend. }
  cbn [effects]. eapply days_loop_requests; [done|].
  by apply first_request_of_hour.
Qed.

Lemma beginning_none text : beginning 0 text = EmptyString.
Proof. by destruct text. Qed.

(** C3, as amended.  The update of a day is not atomic.  Wherever a run
    is stopped, between two effects or inside one, there is a number [j]
    of whole days such that: the two files are as [j] days left them; or
    the cache is, and the checkpoint file holds a beginning of what is
    written for [j + 1] days, from nothing to all of it; or the
    checkpoint is as [j + 1] days left it, and the cache file holds a
    beginning of what is written for [j + 1] days, from nothing on.  And
    for every pending day there is a stop that leaves the day in the
    checkpoint and not in the cache, a stop that leaves the checkpoint
    file empty beside the cache of the days before, and a stop that
    leaves the cache file empty beside the checkpoint with the day. *)
Theorem stopped_run_leaves_whole_days_or_a_cut_file
    remote dk start end_ force pending (done_days : gset string)
    (totals : gmap string Z) :
  prepare dk start end_ force = Some (pending, done_days, totals) ->
  let D := disk_with_days remote dk pending done_days totals in
  (forall s,
     let now := stopped_at remote dk start end_ force s in
     exists j, (j <= length pending)%nat /\
       ((csv_file now = csv_file (D j)
         /\ checkpoint_file now = checkpoint_file (D j))
        \/ ((j < length pending)%nat
            /\ csv_file now = csv_file (D j)
            /\ exists lines i k,
                 checkpoint_file (D (S j)) = Some lines
                 /\ checkpoint_file now = Some (cut_lines lines i k))
        \/ ((j < length pending)%nat
            /\ checkpoint_file now = checkpoint_file (D (S j))
            /\ exists text k,
                 csv_file (D (S j)) = Some text
                 /\ csv_file now = Some (beginning k text))))
  /\ (forall j, (j < length pending)%nat ->
        (exists s, stopped_at remote dk start end_ force s
                   = mkdisk (checkpoint_file (D (S j))) (csv_file (D j)))
        /\ (exists s, stopped_at remote dk start end_ force s
                      = mkdisk (Some []) (csv_file (D j)))
        /\ (exists s, stopped_at remote dk start end_ force s
                      = mkdisk (checkpoint_file (D (S j))) (Some EmptyString))).
Proof.
  intros Hp D. unfold stopped_at.
  destruct (decide (pending = [])) as [->|Hne].
  { rewrite (fetch_nothing_pending remote _ _ _ _ _ _ Hp). cbn [effects]. split.
    - intros s. exists O. split; [done|]. left.
      destruct s as [n|n i k]; [by rewrite take_nil|done].
    - intros j Hj. simpl in Hj. lia. }
  rewrite (fetch_pending remote _ _ _ _ _ _ _ Hp Hne). cbn [effects].
  set (tr := (days_loop remote pending done_days totals dk).2).
  split.
  - intros [n|n i k]; cbv zeta.
    + (* between two effects *)
      destruct (days_loop_interrupted remote pending done_days totals dk n)
        as (j & Hj & Hcsv & Hck).
      cbv zeta in Hcsv, Hck. fold tr in Hcsv, Hck. fold D in Hcsv, Hck.
      exists j. split; [done|].
      destruct Hck as [Hck|[Hlt Hck]]; [by left|].
      right. left. split; [done|]. split; [done|].
      eexists _, _, O. split; [reflexivity|]. by rewrite cut_lines_all.
    + (* inside an effect *)
      destruct (tr !! n) as [e|] eqn:He.
      * destruct (days_loop_inside remote pending done_days totals dk n i k e He)
          as (j & Hj & Hcases).
        cbv zeta in Hcases. fold tr in Hcases. fold D in Hcases.
        exists j. split; [lia|].
        destruct Hcases as [Hc|[[Hcsv (lines & Hl & Hck)]|[Hck (text & Ht & Hcsv)]]].
        -- by left.
        -- right. left. split; [done|]. split; [done|]. by exists lines, i, k.
        -- right. right. split; [done|]. split; [done|]. by exists text, k.
      * exists (length pending). split; [done|]. left. subst tr D.
        rewrite days_loop_replay.
        by rewrite (proj1 (days_loop_spec remote pending done_days totals dk)).
  - intros j Hj.
    destruct (lookup_lt_is_Some_2 pending j Hj) as [d Hd].
    destruct (days_loop_writes_of_day remote pending done_days totals dk j d Hd)
      as (n & Hrep & Hck & Hcsv).
    fold tr in Hrep, Hck, Hcsv. fold D in Hrep.
    assert (Hnext : replay dk (take (S n) tr)
                    = mkdisk (checkpoint_file (D (S j))) (csv_file (D j))).
    { rewrite (take_S_r _ _ _ Hck), replay_app, Hrep. done. }
    split; [|split].
    + by exists (Between (S n)).
    + exists (Inside n O O). rewrite Hck, Hrep. cbn [cut_effect].
      by rewrite cut_lines_none.
    + exists (Inside (S n) O O). rewrite Hcsv, Hnext. cbn [cut_effect checkpoint_file].
      by rewrite beginning_none.
Qed.

End FetchRuns.

(** ** Concrete runs *)

Section ConcreteRuns.
Import Csv CacheFile FetchGithubData Samples.

(** The run of C4 on two days of a fresh disk. *)
Lemma all_hours_attempted_then_day_completed_witness :
  let r := fetch five_a_day empty_disk jan_1 jan_2 false in
  (forall h, 0 <= h < 24 -> Get jan_1 h 1 ∈ day_requests five_a_day jan_1)
  /\ (exists before after lines text,
        effects r
        = before ++ day_requests five_a_day jan_1
            ++ SaveCheckpoint lines :: SaveCsv text :: after
        /\ isoformat jan_1 ∈ lines
        /\ forall lines', SaveCheckpoint lines' ∈ before -> isoformat jan_1 ∉ lines')
  /\ isoformat jan_1 ∈ load_checkpoint (disk_after r)
  /\ day_total five_a_day jan_1
     = foldr Z.add 0 (hour_contribution five_a_day jan_1 <$> seqZ 0 24)
  /\ (forall h, five_a_day jan_1 h 1%nat = NotFound ->
                hour_contribution five_a_day jan_1 h = 0)
  /\ (forall h, (forall attempt, five_a_day jan_1 h attempt = TransportError) ->
                hour_contribution five_a_day jan_1 h = 0).
Proof.
  apply (all_hours_attempted_then_day_completed five_a_day empty_disk jan_1 jan_2
           false [jan_1; jan_2] ∅ ∅ jan_1).
  - reflexivity.
  - reflexivity.
  - vm_compute. reflexivity.
  - apply list_elem_of_here.
Defined.

(** The second run of C5 after a first run on the cached disk. *)
Lemma second_run_changes_nothing_witness :
  let dk1 := disk_after (fetch five_a_day cached_disk jan_1 jan_2 false) in
  load_existing_csv dk1 = Some {["2023-01" := 105]}
  /\ prepare dk1 jan_1 jan_2 false
     = Some ([], load_checkpoint dk1, {["2023-01" := 105]})
  /\ fetch five_a_day dk1 jan_1 jan_2 false
     = mkrun dk1 (Some {["2023-01" := 105]}) [].
Proof.
  apply (second_run_changes_nothing five_a_day five_a_day cached_disk jan_1 jan_2
           false {["2023-01" := 100]} {["2023-01" := 105]}).
  - reflexivity.
  - reflexivity.
  - vm_compute. reflexivity.
  - apply well_formed_check. vm_compute. reflexivity.
  - vm_compute. reflexivity.
Defined.

(** The forced run of C9 over 2 January, on a disk that has 1 January
    checkpointed. *)
Lemma force_run_rewrites_checkpoint_witness :
  let dk1 := disk_after (fetch five_a_day cached_disk jan_2 jan_2 true) in
  checkpoint_file dk1
  = Some (checkpoint_lines (list_to_set (isoformat <$> [jan_2])))
  /\ (forall s, s ∈ load_checkpoint dk1 <-> s ∈ isoformat <$> [jan_2])
  /\ forall d,
       valid d = true -> isoformat d ∈ load_checkpoint cached_disk ->
       (Dates.le jan_2 d && Dates.le d jan_2) = false ->
       (isoformat d ∉ load_checkpoint dk1)
       /\ forall remote' start' end' dates',
            iter_date_range start' end' = Some dates' -> d ∈ dates' ->
            d ∈ pending_days dates' (load_checkpoint dk1)
            /\ Get d 0 1 ∈ effects (fetch remote' dk1 start' end' false).
Proof.
  apply (force_run_rewrites_checkpoint five_a_day cached_disk jan_2 jan_2 [jan_2]
           {["2023-01" := 100]}).
  - reflexivity.
  - reflexivity.
  - reflexivity.
  - vm_compute. reflexivity.
  - vm_compute. reflexivity.
  - apply well_formed_check. vm_compute. reflexivity.
Defined.

(** C3, the counterexample.  A first run over 1 January on a fresh disk,
    stopped after its 25th effect (24 requests and the write of the
    checkpoint): 1 January is in the checkpoint file and there is no cache
    file, with or without the day's five commits.  No whole number of days
    leaves the disk like that. *)
Lemma checkpoint_written_before_cache :
  let now := interrupted five_a_day empty_disk jan_1 jan_1 false 25 in
  isoformat jan_1 ∈ load_checkpoint now
  /\ csv_file now = None
  /\ day_total five_a_day jan_1 = 5
  /\ ~ atomic_updates five_a_day empty_disk jan_1 jan_1 false.
Proof.
  assert (Hnow : interrupted five_a_day empty_disk jan_1 jan_1 false 25
                 = mkdisk (Some ["2023-01-01"]) None) by (vm_compute; reflexivity).
  cbv zeta. rewrite Hnow.
  split.
  { change (isoformat jan_1) with "2023-01-01". unfold load_checkpoint.
    cbn [checkpoint_file]. apply elem_of_list_to_set, list_elem_of_here. } split; [done|]. split; [by vm_compute|].
  intros Hatomic. destruct (Hatomic (Between 25)) as [j Hj].
  fold (interrupted five_a_day empty_disk jan_1 jan_1 false 25) in Hj.
  rewrite Hnow in Hj. unfold disk_after_days in Hj.
  assert (Hp : prepare empty_disk jan_1 jan_1 false = Some ([jan_1], ∅, ∅))
    by (vm_compute; reflexivity).
  rewrite Hp in Hj. destruct j; discriminate Hj.
Qed.

(** The stops of a run over 1 and 2 January on a fresh disk. *)
Lemma stopped_run_leaves_whole_days_or_a_cut_file_witness :
  let D := disk_with_days five_a_day empty_disk [jan_1; jan_2] ∅ ∅ in
  (forall s,
     let now := stopped_at five_a_day empty_disk jan_1 jan_2 false s in
     exists j, (j <= length [jan_1; jan_2])%nat /\
       ((csv_file now = csv_file (D j)
         /\ checkpoint_file now = checkpoint_file (D j))
        \/ ((j < length [jan_1; jan_2])%nat
            /\ csv_file now = csv_file (D j)
            /\ exists lines i k,
                 checkpoint_file (D (S j)) = Some lines
                 /\ checkpoint_file now = Some (cut_lines lines i k))
        \/ ((j < length [jan_1; jan_2])%nat
            /\ checkpoint_file now = checkpoint_file (D (S j))
            /\ exists text k,
                 csv_file (D (S j)) = Some text
                 /\ csv_file now = Some (beginning k text))))
  /\ (forall j, (j < length [jan_1; jan_2])%nat ->
        (exists s, stopped_at five_a_day empty_disk jan_1 jan_2 false s
                   = mkdisk (checkpoint_file (D (S j))) (csv_file (D j)))
        /\ (exists s, stopped_at five_a_day empty_disk jan_1 jan_2 false s
                      = mkdisk (Some []) (csv_file (D j)))
        /\ (exists s, stopped_at five_a_day empty_disk jan_1 jan_2 false s
                      = mkdisk (checkpoint_file (D (S j))) (Some EmptyString))).
Proof.
  apply (stopped_run_leaves_whole_days_or_a_cut_file five_a_day empty_disk jan_1 jan_2
           false [jan_1; jan_2] ∅ ∅).
  vm_compute. reflexivity.
Defined.

(** What the next run makes of a cut file.  The same run, stopped inside
    the write of the checkpoint of 2 January with nothing of it in the
    file yet: the checkpoint file is empty, the cache has the five
    commits of 1 January, and the run that resumes fetches both days and
    returns 15 for the month, where the run that is not stopped returns
    10.  Stopped inside the write of the cache of 2 January, after the
    header row and before the row of the month: the next run finds
    nothing pending and returns no month at all. *)
Lemma cut_file_misleads_the_next_run :
  let cut_checkpoint :=
    stopped_at five_a_day empty_disk jan_1 jan_2 false (Inside 50 0 0) in
  let cut_cache :=
    stopped_at five_a_day empty_disk jan_1 jan_2 false (Inside 51 0 15) in
  returned (fetch five_a_day empty_disk jan_1 jan_2 false) = Some {["2023-01" := 10]}
  /\ cut_checkpoint
     = mkdisk (Some []) (Some ("month,commits" +:+ crlf +:+ "2023-01,5" +:+ crlf))
  /\ returned (fetch five_a_day cut_checkpoint jan_1 jan_2 false)
     = Some {["2023-01" := 15]}
  /\ cut_cache
     = mkdisk (Some ["2023-01-01"; "2023-01-02"]) (Some ("month,commits" +:+ crlf))
  /\ fetch five_a_day cut_cache jan_1 jan_2 false = mkrun cut_cache (Some ∅) [].
Proof. vm_compute. repeat split; reflexivity. Qed.

(** C2 on the incremental path.  January 2023 is cached with 100 commits;
    a run with [force] over 1 January fetches 5 commits for that day and
    leaves 105 for the month: the sum of the old total and the new value,
    where the specification asks for the new value in place of the old total. *)
Theorem force_refetch_adds_to_cached_total :
  let r := fetch five_a_day cached_disk jan_1 jan_1 true in
  load_existing_csv cached_disk = Some {["2023-01" := 100]}
  /\ day_total five_a_day jan_1 = 5
  /\ returned r = Some {["2023-01" := 105]}
  /\ csv_file (disk_after r)
     = Some ("month,commits" +:+ crlf +:+ "2023-01,105" +:+ crlf).
Proof. vm_compute. repeat split; reflexivity. Qed.

End ConcreteRuns.

(** ** The cache file round trip, and the two ways a month is merged *)

Section CacheRoundTrip.
Import Csv CacheFile.

Lemma data_row_text (m : gmap string Z) k :
  plain k = true ->
  data_row m k = k +:+ "," +:+ str_int (m !!! k) +:+ Samples.crlf.
Proof.
  intros Hk. unfold data_row. rewrite writerow_pair; [done|done|apply str_int_plain].
Qed.

(** C7.  A mapping from well-formed months to integers is written as the
    header [month,commits] and one row [month,count] per month, months
    ascending, every line ended by CR LF; loading that file gives the
    mapping back, so saving again writes the same bytes. *)
Theorem cache_file_round_trip (m : gmap string Z) :
  well_formed m ->
  (exists loaded,
     load_existing_csv (Some (save_csv m)) = Some loaded
     /\ loaded = m
     /\ save_csv loaded = save_csv m)
  /\ exists months,
       save_csv m
       = "month,commits" +:+ Samples.crlf
           +:+ concat_rows
                 (map (fun k => k +:+ "," +:+ str_int (m !!! k) +:+ Samples.crlf)
                      months)
       /\ Sorted String.le months
       /\ NoDup months
       /\ forall k, k ∈ months <-> k ∈ dom m.
Proof.
  intros Hwf. split.
  - exists m. split; [|done].
    apply load_save_csv. by apply well_formed_plain.
  - exists (sorted (elements (dom m))).
    split; [|split; [apply sorted_ascending|split]].
    + unfold save_csv.
      change (writerow ["month"; "commits"]) with ("month,commits" +:+ Samples.crlf).
      rewrite str_app_assoc. do 3 f_equal.
      apply map_ext_in. intros k Hk. apply data_row_text.
      apply well_formed_plain with (totals := m); [done|].
      by apply elem_of_sorted_keys, list_elem_of_In.
    + rewrite sorted_perm. apply NoDup_elements.
    + apply elem_of_sorted_keys.
Qed.

Lemma cache_file_round_trip_witness :
  let m : gmap string Z := <["2023-02" := 7]> {["2023-01" := 100]} in
  (exists loaded,
     load_existing_csv (Some (save_csv m)) = Some loaded
     /\ loaded = m
     /\ save_csv loaded = save_csv m)
  /\ exists months,
       save_csv m
       = "month,commits" +:+ Samples.crlf
           +:+ concat_rows
                 (map (fun k => k +:+ "," +:+ str_int (m !!! k) +:+ Samples.crlf)
                      months)
       /\ Sorted String.le months
       /\ NoDup months
       /\ forall k, k ∈ months <-> k ∈ dom m.
Proof.
  apply (cache_file_round_trip (<["2023-02" := 7]> {["2023-01" := 100]})).
  apply well_formed_check. vm_compute. reflexivity.
Defined.

End CacheRoundTrip.

Section Merging.
Import Csv CacheFile FetchGithubData.

(** The bulk path: a month that the query returned takes the returned
    value, whatever the cache held for it. *)
Lemma bulk_update_overwrites (existing new_totals : gmap string Z) k v :
  new_totals !! k = Some v -> Main.update existing new_totals !! k = Some v.
Proof. intros H. unfold Main.update. by apply lookup_union_Some_l. Qed.

Lemma bulk_update_keeps (existing new_totals : gmap string Z) k :
  new_totals !! k = None -> Main.update existing new_totals !! k = existing !! k.
Proof. intros H. unfold Main.update. by rewrite lookup_union_r. Qed.

(** Step 1 of [main()] with months missing: the file it saves holds the
    cache updated with the result of the query. *)
Lemma fetch_step_saves_update data file (existing : gmap string Z) y m ey em mo missing :
  CacheFile.load_existing_csv file = Some existing ->
  List.filter (fun mo => bool_decide (existing !! mo = None)) (Main.all_months y m ey em)
  = mo :: missing ->
  Main.fetch_step data file y m ey em
  = Some (Some (CacheFile.save_csv
                  (Main.update existing
                     (FetchBigquery.fetch data mo (List.last (mo :: missing) mo))))).
Proof.
  intros Hload Hmissing. unfold Main.fetch_step. rewrite Hload. simpl.
  by rewrite Hmissing.
Qed.

(** The incremental path: each day is added to what the month has. *)
Lemma incremental_adds remote (totals : gmap string Z) d v :
  totals !! month_key d = Some v ->
  add_day remote totals d !! month_key d = Some (v + day_total remote d).
Proof. intros H. unfold add_day. by rewrite lookup_insert_eq, H. Qed.

(** With [force] the totals still start from the cache file, so a day
    fetched again is added to a month that has it already. *)
Lemma force_refetch_sums remote dk d (totals0 : gmap string Z) v :
  load_existing_csv dk = Some totals0 ->
  iter_date_range d d = Some [d] ->
  totals0 !! month_key d = Some v ->
  returned (fetch remote dk d d true)
  = Some (<[month_key d := v + day_total remote d]> totals0).
Proof.
  intros Hload Hrange Hv.
  assert (Hp : prepare dk d d true = Some ([d], ∅, totals0)).
  { unfold prepare. rewrite Hload, Hrange. cbn -[pending_days].
    by rewrite pending_days_all. }
  rewrite (fetch_pending remote _ _ _ _ _ _ _ Hp) by done.
  cbn [returned]. unfold totals_after. simpl. unfold add_day. by rewrite Hv.
Qed.

End Merging.

(** ** The release catalogue and the label lanes *)

Section CatalogueFacts.

(** C10.  [get_events_in_range] returns the entries of the catalogue whose
    date lies between the bounds, in the order of [LLM_RELEASES]; that
    order is not by date (the entry of 2024-10-22 comes right before the
    entry of 2024-09-25), and for September and October 2024 the events
    handed to [assign_levels] are not chronological. *)
Theorem events_in_range_keep_catalogue_order :
  (forall start end_ e,
      e ∈ get_events_in_range start end_
      <-> e ∈ get_events_as_dicts
          /\ Dates.le start (ev_date e) = true /\ Dates.le (ev_date e) end_ = true)
  /\ (forall start end_,
         sublist (get_events_in_range start end_) get_events_as_dicts)
  /\ map (fun e => (ev_model e, ev_org e, ev_date e)) get_events_as_dicts
     = LLM_RELEASES
  /\ (ev_date <$> get_events_as_dicts !! 27%nat) = Some (mkdate 2024 10 22)
  /\ (ev_date <$> get_events_as_dicts !! 28%nat) = Some (mkdate 2024 9 25)
  /\ (let events := get_events_in_range (mkdate 2024 9 1) (mkdate 2024 10 31) in
      map ev_date events = [mkdate 2024 9 12; mkdate 2024 10 22; mkdate 2024 9 25]
      /\ plot_levels events = assign_levels events MIN_DAY_GAP
      /\ ~ chronological events).
Proof.
  split; [|split; [|split; [|split; [|split]]]].
  - intros start end_ e. unfold get_events_in_range, in_range.
    rewrite !list_elem_of_In, filter_In, andb_true_iff. tauto.
  - intros start end_. unfold get_events_in_range.
    induction get_events_as_dicts as [|e l IH]; [constructor|].
    simpl. destruct (in_range start end_ e); by constructor.
  - by vm_compute.
  - by vm_compute.
  - by vm_compute.
  - assert (Hev : map ev_date (get_events_in_range (mkdate 2024 9 1) (mkdate 2024 10 31))
                  = [mkdate 2024 9 12; mkdate 2024 10 22; mkdate 2024 9 25])
      by (by vm_compute).
    split; [done|]. split; [done|].
    unfold chronological. intros Hs.
    destruct (get_events_in_range _ _) as [|a [|b [|c l]]]; try discriminate.
    injection Hev as Ha Hb Hc _.
    apply Sorted_inv in Hs as [Hs _]. apply Sorted_inv in Hs as [_ Hbc].
    apply HdRel_inv in Hbc. rewrite Hb, Hc in Hbc. by vm_compute in Hbc.
Qed.

End CatalogueFacts.

Section LaneFacts.

Variable min_day_gap : Z.

Lemma le_trans a b c :
  Dates.le a b = true -> Dates.le b c = true -> Dates.le a c = true.
Proof.
  destruct a as [y1 m1 d1], b as [y2 m2 d2], c as [y3 m3 d3].
  unfold Dates.le; simpl.
  repeat match goal with
         | |- context [?x <? ?y] => destruct (Z.ltb_spec x y)
         end; rewrite ?Z.leb_le; try done; try lia.
Qed.

Lemma lane_ok_free (st : gmap nat date) d lvl :
  lane_ok st d min_day_gap lvl = true <-> lane_free (st !! lvl) d min_day_gap.
Proof.
  unfold lane_ok, lane_free. destruct (st !! lvl); [apply Z.leb_le|done].
Qed.

Lemma find_seq_first (p : nat -> bool) start len lvl :
  List.find p (seq start len) = Some lvl ->
  (start <= lvl < start + len)%nat /\ p lvl = true
  /\ forall l', (start <= l' < lvl)%nat -> p l' = false.
Proof.
  revert start. induction len as [|len IH]; intros start; [done|].
  simpl. destruct (p start) eqn:Hp.
  - intros [= <-]. split; [lia|]. split; [done|]. intros; lia.
  - intros (Hr & Hl & Hmin)%IH. split; [lia|]. split; [done|].
    intros l' Hl'. destruct (decide (l' = start)) as [->|]; [done|].
    apply Hmin. lia.
Qed.

Lemma find_seq_none (p : nat -> bool) start len :
  List.find p (seq start len) = None ->
  forall l', (start <= l' < start + len)%nat -> p l' = false.
Proof.
  intros H l' Hl'. apply (find_none _ _ H). apply in_seq. lia.
Qed.

(** The lane the inner loop settles on. *)
Lemma first_lane_spec (st : gmap nat date) d :
  let lvl := default 0%nat (first_lane st d min_day_gap) in
  ((lvl < ANNOTATION_LEVELS)%nat
   /\ lane_free (st !! lvl) d min_day_gap
   /\ forall l', (l' < lvl)%nat -> ~ lane_free (st !! l') d min_day_gap)
  \/ (lvl = 0%nat
      /\ first_lane st d min_day_gap = None
      /\ forall l', (l' < ANNOTATION_LEVELS)%nat -> ~ lane_free (st !! l') d min_day_gap).
Proof.
  unfold first_lane.
  destruct (List.find _ _) as [lvl|] eqn:Hfind; simpl.
  - left. apply find_seq_first in Hfind as (Hr & Hok & Hmin).
    split; [lia|]. split; [by apply lane_ok_free|].
    intros l' Hl' Hfree%lane_ok_free. rewrite Hmin in Hfree; [done|lia].
  - right. split; [done|]. split; [done|].
    intros l' Hl' Hfree%lane_ok_free.
    rewrite (find_seq_none _ _ _ Hfind) in Hfree; [done|lia].
Qed.

Lemma assign_from_length st events :
  length (assign_from st events min_day_gap) = length events.
Proof.
  revert st. induction events as [|e es IH]; intros st; [done|].
  simpl. by rewrite IH.
Qed.

Lemma assign_from_app st es1 es2 :
  assign_from st (es1 ++ es2) min_day_gap
  = assign_from st es1 min_day_gap
      ++ assign_from (lanes_after st es1 min_day_gap) es2 min_day_gap.
Proof.
  revert st. induction es1 as [|e es IH]; intros st; [done|].
  simpl. by rewrite IH.
Qed.

(** The dict holds, for each lane, the date of the last event placed in
    it. *)
Lemma lanes_after_last_placed st events lvl :
  lanes_after st events min_day_gap !! lvl
  = match last_placed events (assign_from st events min_day_gap) lvl with
    | Some d => Some d
    | None => st !! lvl
    end.
Proof.
  revert st. induction events as [|e es IH]; intros st; [done|].
  simpl. rewrite IH. destruct (last_placed es _ lvl); [done|].
  destruct (Nat.eqb_spec (default 0%nat (first_lane st (ev_date e) min_day_gap)) lvl)
    as [->|Hne].
  - by rewrite lookup_insert_eq.
  - by rewrite lookup_insert_ne.
Qed.

Lemma lanes_after_empty events lvl :
  lanes_after ∅ events min_day_gap !! lvl
  = last_placed events (assign_levels events min_day_gap) lvl.
Proof.
  unfold assign_levels. rewrite lanes_after_last_placed.
  by destruct (last_placed _ _ _).
Qed.

(** The lane of the event at position [j], from the events before it. *)
Lemma assign_levels_lookup events j ev :
  events !! j = Some ev ->
  take j (assign_levels events min_day_gap)
  = assign_levels (take j events) min_day_gap
  /\ assign_levels events min_day_gap !! j
     = Some (default 0%nat
               (first_lane (lanes_after ∅ (take j events) min_day_gap)
                  (ev_date ev) min_day_gap)).
Proof.
  intros Hj. pose proof (lookup_lt_Some _ _ _ Hj) as Hlt.
  rewrite <- (take_drop_middle events j ev Hj) at 1 3.
  unfold assign_levels. rewrite assign_from_app.
  assert (Hlen : length (assign_from ∅ (take j events) min_day_gap) = j).
  { rewrite assign_from_length, length_take. lia. }
  split.
  - rewrite take_app_length'; done.
  - rewrite lookup_app_r by lia. rewrite Hlen, Nat.sub_diag. done.
Qed.

Lemma last_placed_date events levels lvl d :
  last_placed events levels lvl = Some d ->
  exists e, e ∈ events /\ ev_date e = d.
Proof.
  revert levels. induction events as [|e es IH]; intros [|l ls]; try done.
  simpl. destruct (last_placed es ls lvl) as [d'|] eqn:Hl.
  - intros [= <-]. destruct (IH ls Hl) as (e' & He' & Hd).
    exists e'. split; [by apply list_elem_of_further|done].
  - destruct (l =? lvl)%nat; [|done]. intros [= <-].
    exists e. split; [apply list_elem_of_here|done].
Qed.

(** In a chronological list, the date last placed in a lane is not before
    the date of any event that has that lane. *)
Lemma last_placed_not_before events levels lvl i ei :
  StronglySorted (fun a b => toordinal (ev_date a) <= toordinal (ev_date b)) events ->
  events !! i = Some ei -> levels !! i = Some lvl ->
  exists d, last_placed events levels lvl = Some d
            /\ toordinal (ev_date ei) <= toordinal d.
Proof.
  revert levels i. induction events as [|e es IH]; intros [|l ls] i Hs Hi Hl;
    try done.
  apply StronglySorted_inv in Hs as [Hs Hall].
  simpl. destruct i as [|i]; simpl in Hi, Hl.
  - injection Hi as ->. injection Hl as ->.
    destruct (last_placed es ls lvl) as [d|] eqn:Hlast.
    + exists d. split; [done|].
      destruct (last_placed_date _ _ _ _ Hlast) as (e' & He' & <-).
      rewrite Forall_forall in Hall. by apply Hall.
    + rewrite Nat.eqb_refl. exists (ev_date ei). split; [done|lia].
  - destruct (IH ls i Hs Hi Hl) as (d & -> & Hd). by exists d.
Qed.

Lemma chronological_ordinals events :
  chronological events ->
  Forall (fun e => valid (ev_date e) = true) events ->
  StronglySorted (fun a b => toordinal (ev_date a) <= toordinal (ev_date b)) events.
Proof.
  intros Hs Hv.
  assert (Hss : StronglySorted
                  (fun a b => Dates.le (ev_date a) (ev_date b) = true) events).
  { apply Sorted_StronglySorted; [|done]. intros a b c. apply le_trans. }
  clear Hs. induction Hss as [|e es Hss IH Hall]; [constructor|].
  apply Forall_cons in Hv as [He Hv]. constructor; [by apply IH|].
  rewrite Forall_forall in Hall, Hv |- *. intros e' He'.
  apply le_ordinal; auto.
Qed.

Lemma take_strongly_sorted {A} (R : A -> A -> Prop) n (l : list A) :
  StronglySorted R l -> StronglySorted R (take n l).
Proof.
  intros Hs. rewrite <- (take_drop n l) in Hs.
  by apply StronglySorted_app_1_l in Hs.
Qed.

(** C6.  Each event of a chronological list gets the first lane, from
    lane 0 up, that is free for its date: nothing placed in it by the
    events before, or the last date placed there at least the gap before;
    when none of the lanes is free it gets lane 0.  So when two events less
    than the gap apart have the same lane, that lane is 0 and the later
    event took it as the fallback, no lane being free. *)
Theorem assign_levels_first_free_lane events :
  chronological events ->
  Forall (fun e => valid (ev_date e) = true) events ->
  let levels := assign_levels events min_day_gap in
  let last_before j lvl := last_placed (take j events) (take j levels) lvl in
  length levels = length events
  /\ (forall j ev,
         events !! j = Some ev ->
         exists lvl,
           levels !! j = Some lvl
           /\ (((lvl < ANNOTATION_LEVELS)%nat
                /\ lane_free (last_before j lvl) (ev_date ev) min_day_gap
                /\ forall l', (l' < lvl)%nat ->
                     ~ lane_free (last_before j l') (ev_date ev) min_day_gap)
               \/ (lvl = 0%nat
                   /\ forall l', (l' < ANNOTATION_LEVELS)%nat ->
                        ~ lane_free (last_before j l') (ev_date ev) min_day_gap)))
  /\ (forall i j ei ej lvl,
         (i < j)%nat ->
         events !! i = Some ei -> events !! j = Some ej ->
         levels !! i = Some lvl -> levels !! j = Some lvl ->
         days_between (ev_date ej) (ev_date ei) < min_day_gap ->
         lvl = 0%nat
         /\ forall l', (l' < ANNOTATION_LEVELS)%nat ->
              ~ lane_free (last_before j l') (ev_date ej) min_day_gap).
Proof.
  intros Hchron Hvalid levels last_before.
  assert (Hlane : forall j ev,
             events !! j = Some ev ->
             exists lvl,
               levels !! j = Some lvl
               /\ (((lvl < ANNOTATION_LEVELS)%nat
                    /\ lane_free (last_before j lvl) (ev_date ev) min_day_gap
                    /\ forall l', (l' < lvl)%nat ->
                         ~ lane_free (last_before j l') (ev_date ev) min_day_gap)
                   \/ (lvl = 0%nat
                       /\ forall l', (l' < ANNOTATION_LEVELS)%nat ->
                            ~ lane_free (last_before j l') (ev_date ev) min_day_gap))).
  { intros j ev Hj. subst levels last_before.
    destruct (assign_levels_lookup events j ev Hj) as [Htake Hlvl].
    eexists. split; [exact Hlvl|]. cbv beta. rewrite Htake.
    pose proof (first_lane_spec (lanes_after ∅ (take j events) min_day_gap)
                  (ev_date ev)) as Hspec.
    cbv zeta in Hspec.
    setoid_rewrite lanes_after_empty in Hspec.
    destruct Hspec as [H|(H0 & _ & H)]; [by left|by right]. }
  split; [apply assign_from_length|]. split; [done|].
  intros i j ei ej lvl Hij Hi Hj Hli Hlj Hclose.
  destruct (Hlane j ej Hj) as (lvl' & Hlj' & Hcase).
  rewrite Hlj in Hlj'. injection Hlj' as <-.
  assert (Hbusy : ~ lane_free (last_before j lvl) (ev_date ej) min_day_gap).
  { pose proof (chronological_ordinals _ Hchron Hvalid) as Hss.
    destruct (last_placed_not_before (take j events) (take j levels) lvl i ei)
      as (d & Hd & Hord).
    - by apply take_strongly_sorted.
    - by rewrite lookup_take_lt.
    - by rewrite lookup_take_lt.
    - unfold last_before. rewrite Hd. unfold lane_free, days_between in *. lia. }
  destruct Hcase as [(_ & Hfree & _)|[-> Hnone]]; [done|]. done.
Qed.

End LaneFacts.

(** The lanes of the releases of the first quarter of 2023, which the
    catalogue lists in order of date. *)
Lemma assign_levels_first_free_lane_witness :
  let events := get_events_in_range (mkdate 2023 1 1) (mkdate 2023 3 31) in
  let levels := assign_levels events MIN_DAY_GAP in
  let last_before j lvl := last_placed (take j events) (take j levels) lvl in
  length levels = length events
  /\ (forall j ev,
         events !! j = Some ev ->
         exists lvl,
           levels !! j = Some lvl
           /\ (((lvl < ANNOTATION_LEVELS)%nat
                /\ lane_free (last_before j lvl) (ev_date ev) MIN_DAY_GAP
                /\ forall l', (l' < lvl)%nat ->
                     ~ lane_free (last_before j l') (ev_date ev) MIN_DAY_GAP)
               \/ (lvl = 0%nat
                   /\ forall l', (l' < ANNOTATION_LEVELS)%nat ->
                        ~ lane_free (last_before j l') (ev_date ev) MIN_DAY_GAP)))
  /\ (forall i j ei ej lvl,
         (i < j)%nat ->
         events !! i = Some ei -> events !! j = Some ej ->
         levels !! i = Some lvl -> levels !! j = Some lvl ->
         days_between (ev_date ej) (ev_date ei) < MIN_DAY_GAP ->
         lvl = 0%nat
         /\ forall l', (l' < ANNOTATION_LEVELS)%nat ->
              ~ lane_free (last_before j l') (ev_date ej) MIN_DAY_GAP).
Proof.
  apply (assign_levels_first_free_lane MIN_DAY_GAP
           (get_events_in_range (mkdate 2023 1 1) (mkdate 2023 3 31))).
  - vm_compute. repeat constructor.
  - vm_compute. repeat constructor.
Defined.

(** ** Loading the cache for the chart, and smoothing it *)

Section SmoothingFacts.
Import Csv Visualize.

Lemma date_leb_total a b : date_leb a b = false -> date_leb b a = true.
Proof.
  unfold date_leb. destruct a as [y m], b as [y' m']; simpl.
  destruct (Z.ltb_spec y y'), (Z.ltb_spec y' y), (Z.eqb_spec y y'),
    (Z.eqb_spec y' y), (Z.leb_spec m m'), (Z.leb_spec m' m); simpl; try done; lia.
Qed.

Lemma date_leb_trans a b c :
  date_leb a b = true -> date_leb b c = true -> date_leb a c = true.
Proof.
  unfold date_leb. destruct a as [y m], b as [y' m'], c as [y'' m'']; simpl.
  destruct (Z.ltb_spec y y'), (Z.ltb_spec y' y''), (Z.ltb_spec y y''),
    (Z.eqb_spec y y'), (Z.eqb_spec y' y''), (Z.eqb_spec y y''),
    (Z.leb_spec m m'), (Z.leb_spec m' m''), (Z.leb_spec m m'');
    simpl; try done; lia.
Qed.

Lemma insert_row_first x l :
  Forall (by_date x) l -> insert_row x l = x :: l.
Proof.
  destruct l as [|y l]; [done|]. intros [Hy _]%Forall_cons.
  simpl. unfold by_date in Hy. by rewrite Hy.
Qed.

Lemma elem_of_insert_row x l y : y ∈ insert_row x l <-> y = x \/ y ∈ l.
Proof.
  induction l as [|z l IH]; simpl.
  { by rewrite elem_of_cons. }
  destruct (date_leb (r_date x) (r_date z)).
  - by rewrite elem_of_cons.
  - rewrite !elem_of_cons, IH. tauto.
Qed.

Lemma insert_row_sorted x l :
  StronglySorted by_date l -> StronglySorted by_date (insert_row x l).
Proof.
  induction 1 as [|y l Hs IH Hall]; simpl; [repeat constructor|].
  destruct (date_leb (r_date x) (r_date y)) eqn:Hxy.
  - constructor; [by constructor|]. constructor; [done|].
    eapply Forall_impl; [exact Hall|]. intros z Hz.
    unfold by_date in *. by eapply date_leb_trans.
  - constructor; [done|]. apply Forall_forall. intros z Hz.
    apply elem_of_insert_row in Hz as [->|Hz].
    + by apply date_leb_total.
    + rewrite Forall_forall in Hall. by apply Hall.
Qed.

Lemma sort_values_sorted df : StronglySorted by_date (sort_values df).
Proof.
  induction df as [|x df IH]; [constructor|]. by apply insert_row_sorted.
Qed.

Lemma filter_insert_row (p : row -> bool) x l :
  StronglySorted by_date l ->
  List.filter p (insert_row x l)
  = if p x then insert_row x (List.filter p l) else List.filter p l.
Proof.
  induction 1 as [|y l Hs IH Hall]; simpl.
  { by destruct (p x). }
  destruct (date_leb (r_date x) (r_date y)) eqn:Hxy; simpl.
  - destruct (p x) eqn:Hpx; [|done].
    rewrite insert_row_first; [done|].
    assert (Hx : Forall (by_date x) (y :: l)).
    { constructor; [done|]. eapply Forall_impl; [exact Hall|].
      intros z Hz. unfold by_date in *. by eapply date_leb_trans. }
    rewrite Forall_forall in Hx |- *. intros z Hz.
    apply Hx. apply list_elem_of_In in Hz.
    apply (filter_In p z (y :: l)) in Hz as [Hz _]. by apply list_elem_of_In.
  - rewrite IH. destruct (p y), (p x); simpl; by rewrite ?Hxy.
Qed.

(** Restricting the sorted frame is sorting the restricted frame. *)
Lemma filter_sort_values (p : row -> bool) df :
  List.filter p (sort_values df) = sort_values (List.filter p df).
Proof.
  induction df as [|x df IH]; [done|].
  simpl. rewrite filter_insert_row by apply sort_values_sorted.
  rewrite IH. by destruct (p x).
Qed.

Lemma date_row_month r row : date_row r = Some row -> r_month row = r.1.
Proof.
  unfold date_row. destruct (parse_month r.1); [|done]. by intros [= <-].
Qed.

Lemma mapM_date_row_filter (p : string -> bool) rows df :
  mapM date_row rows = Some df ->
  mapM date_row (List.filter (fun r => p r.1) rows)
  = Some (List.filter (fun row => p (r_month row)) df).
Proof.
  rewrite !mapM_Some. induction 1 as [|r row rows df Hr _ IH]; [constructor|].
  simpl. rewrite (date_row_month _ _ Hr).
  destruct (p r.1); [by constructor|done].
Qed.

Lemma restrict_all df : restrict None None df = df.
Proof.
  unfold restrict, in_window. simpl. induction df as [|x df IH]; [done|].
  simpl. by rewrite IH.
Qed.

Lemma commits_frame_rows rows start_month end_month :
  rows <> [] ->
  commits_frame rows start_month end_month
  = df ← mapM date_row rows;
    cap_outliers (restrict start_month end_month (sort_values df)) Z_THRESH.
Proof. by destruct rows. Qed.

(** C1, as amended.  [load_commits] restricts the sorted series to the
    window first and smooths what is left: its result is what the rows
    inside the window give on their own, with no window asked for.  No
    row outside the window has any part in the medians or in the
    interpolation. *)
Theorem smoothing_sees_window_rows_only text rows start_month end_month :
  read_rows text = Some rows ->
  is_Some (mapM date_row rows) ->
  let window := List.filter (fun r => in_window start_month end_month r.1) rows in
  window <> [] ->
  load_commits text start_month end_month = commits_frame window None None.
Proof.
  intros Hrows [df Hdf] window Hne.
  unfold load_commits. rewrite Hrows. simpl.
  assert (Hrne : rows <> []) by (intros ->; by apply Hne).
  rewrite !commits_frame_rows by done. rewrite Hdf. subst window.
  rewrite (mapM_date_row_filter (in_window start_month end_month) rows df Hdf).
  simpl. rewrite restrict_all. unfold restrict.
  by rewrite filter_sort_values.
Qed.

End SmoothingFacts.

Section SmoothingRuns.
Import Csv Visualize Samples.

Lemma smoothing_sees_window_rows_only_witness :
  load_commits spike_in_april None (Some "2023-04")
  = commits_frame
      (List.filter (fun r => in_window None (Some "2023-04") r.1)
         [("2023-01", 100); ("2023-02", 100); ("2023-03", 100); ("2023-04", 5000);
          ("2023-05", 200); ("2023-06", 200); ("2023-07", 200)])
      None None.
Proof.
  apply (smoothing_sees_window_rows_only spike_in_april
           [("2023-01", 100); ("2023-02", 100); ("2023-03", 100); ("2023-04", 5000);
            ("2023-05", 200); ("2023-06", 200); ("2023-07", 200)]
           None (Some "2023-04")).
  - vm_compute. reflexivity.
  - vm_compute. eexists. reflexivity.
  - vm_compute. discriminate.
Defined.

(** C1, the counterexample.  Seven months with a spike in April, charted
    up to April.  Smoothing the whole series first would put April on the
    line from March to May, 150; [load_commits] cuts the series at April
    first, the spike is then the last point, and it takes the value of
    March, 100. *)
Lemma smoothing_runs_after_the_restriction :
  (map r_commits <$> load_commits spike_in_april None (Some "2023-04"))
  = Some [100; 100; 100; 100]
  /\ (map r_commits <$> load_commits_smooth_first spike_in_april None (Some "2023-04"))
     = Some [100; 100; 100; 150]
  /\ load_commits spike_in_april None (Some "2023-04")
     <> load_commits_smooth_first spike_in_april None (Some "2023-04").
Proof.
  assert (H1 : (map r_commits <$> load_commits spike_in_april None (Some "2023-04"))
               = Some [100; 100; 100; 100]) by (vm_compute; reflexivity).
  assert (H2 : (map r_commits
                  <$> load_commits_smooth_first spike_in_april None (Some "2023-04"))
               = Some [100; 100; 100; 150]) by (vm_compute; reflexivity).
  split; [done|]. split; [done|].
  intros Heq. rewrite Heq, H2 in H1. discriminate H1.
Qed.

(** C8.  Five months with the spike in the first one: the first point is
    flagged and reported, no value comes before it, the interpolation
    leaves it undefined, and the conversion to integers raises.  With the
    spike in the last month the point takes the value before it. *)
Theorem cap_outliers_raises_on_leading_outlier :
  outlier_mask (commits_column spike_first) Z_THRESH
  = [true; false; false; false; false]
  /\ capped_months spike_first Z_THRESH = ["2023-01"]
  /\ cap_outliers spike_first Z_THRESH = None
  /\ outlier_mask (commits_column spike_last) Z_THRESH
     = [false; false; false; false; true]
  /\ (map r_commits <$> cap_outliers spike_last Z_THRESH) = Some [1; 1; 1; 1; 1].
Proof. vm_compute. repeat split; reflexivity. Qed.

End SmoothingRuns.

(** ** More on the date range and on one hourly file *)

Section HourlyFileFacts.
Import Csv CacheFile FetchGithubData.

Lemma last_seqZ m n : 0 < n -> last (seqZ m n) = Some (m + n - 1).
Proof.
  intros Hn. rewrite last_lookup, length_seqZ.
  rewrite lookup_seqZ. split; [|lia]. lia.
Qed.

(** X1.  For valid dates with [end_] before the last year, the range is
    the list of the days from [start] to [end_], both included, each one
    day after the one before; it is empty when [start] is after [end_]. *)
Theorem iter_date_range_consecutive_days start end_ :
  valid start = true -> valid end_ = true -> year end_ < MAXYEAR ->
  exists days,
    iter_date_range start end_ = Some days
    /\ toordinal <$> days
       = seqZ (toordinal start) (toordinal end_ - toordinal start + 1)
    /\ Forall (fun d => valid d = true) days
    /\ (Dates.le start end_ = true -> head days = Some start /\ last days = Some end_)
    /\ (Dates.le start end_ = false -> days = []).
Proof.
  intros Hs He Hy.
  destruct (iter_date_range_some start end_ Hs He Hy) as [days Hdays].
  destruct (iter_date_range_ordinals _ _ _ Hs He Hdays) as [Hord Hvalid].
  exists days. split; [done|]. split; [done|]. split; [done|]. split.
  - intros Hle. pose proof (proj1 (le_ordinal _ _ Hs He) Hle) as Hle'.
    split.
    + assert (Hh : head (toordinal <$> days) = Some (toordinal start)).
      { rewrite Hord, (seqZ_cons (toordinal start)) by lia. done. }
      destruct days as [|d days']; [done|]. simpl in *.
      injection Hh as Hh. f_equal. apply toordinal_inj; [|done|done].
      by apply Forall_cons in Hvalid as [? _].
    + assert (Hl : last (toordinal <$> days) = Some (toordinal end_)).
      { rewrite Hord, last_seqZ by lia. f_equal. lia. }
      rewrite fmap_last in Hl.
      destruct (last days) as [d|] eqn:Hlast; [|done].
      injection Hl as Hl. f_equal. apply toordinal_inj; [|done|done].
      rewrite Forall_forall in Hvalid. apply Hvalid.
      apply last_Some in Hlast as [l' ->]. apply elem_of_app. right.
      apply list_elem_of_here.
  - intros Hle.
    assert (Hlt : ~ toordinal start <= toordinal end_).
    { intros H. apply le_ordinal in H; [|done..]. congruence. }
    rewrite seqZ_nil in Hord by lia. by destruct days.
Qed.

Lemma iter_date_range_consecutive_days_witness :
  exists days,
    iter_date_range (mkdate 2024 2 28) (mkdate 2024 3 1) = Some days
    /\ toordinal <$> days
       = seqZ (toordinal (mkdate 2024 2 28))
           (toordinal (mkdate 2024 3 1) - toordinal (mkdate 2024 2 28) + 1)
    /\ Forall (fun d => valid d = true) days
    /\ (Dates.le (mkdate 2024 2 28) (mkdate 2024 3 1) = true ->
        head days = Some (mkdate 2024 2 28) /\ last days = Some (mkdate 2024 3 1))
    /\ (Dates.le (mkdate 2024 2 28) (mkdate 2024 3 1) = false -> days = []).
Proof.
  apply (iter_date_range_consecutive_days (mkdate 2024 2 28) (mkdate 2024 3 1)).
  - reflexivity.
  - reflexivity.
  - reflexivity.
Defined.

Lemma add_one_day_max d :
  valid d = true -> add_one_day d = None -> d = mkdate MAXYEAR 12 31.
Proof.
  intros Hv Ha. apply valid_bounds in Hv. destruct d as [y m dd]; simpl in *.
  unfold add_one_day in Ha; simpl in Ha.
  destruct (Z.ltb_spec dd (days_in_month y m)); [done|].
  destruct (Z.ltb_spec m 12); [done|].
  unfold MAXYEAR in *. destruct (Z.ltb_spec y 9999); [done|].
  assert (m = 12) as -> by lia. assert (y = 9999) as -> by lia.
  unfold days_in_month in *; simpl in *. f_equal. lia.
Qed.

Lemma valid_le_max d : valid d = true -> Dates.le d (mkdate MAXYEAR 12 31) = true.
Proof.
  intros Hv. apply valid_bounds in Hv. destruct d as [y m dd]; simpl in *.
  pose proof (days_in_month_bounds y m).
  unfold Dates.le, MAXYEAR; simpl.
  destruct (Z.ltb_spec y 9999); [done|].
  destruct (Z.ltb_spec 9999 y); [lia|].
  destruct (Z.ltb_spec m 12); [done|].
  destruct (Z.ltb_spec 12 m); [lia|]. apply Z.leb_le. lia.
Qed.

Lemma valid_max : valid (mkdate MAXYEAR 12 31) = true.
Proof. reflexivity. Qed.

Lemma iter_dates_overflow fuel current :
  valid current = true ->
  toordinal (mkdate MAXYEAR 12 31) - toordinal current < Z.of_nat fuel ->
  iter_dates fuel current (mkdate MAXYEAR 12 31) = None.
Proof.
  revert current. induction fuel as [|fuel IH]; intros cur Hc Hf.
  { pose proof (proj1 (le_ordinal _ _ Hc valid_max) (valid_le_max _ Hc)). lia. }
  simpl. rewrite valid_le_max by done.
  destruct (add_one_day cur) as [next|] eqn:Hnext; [|done]. simpl.
  rewrite IH; [done|by eapply add_one_day_valid|].
  rewrite (add_one_day_ordinal _ _ Hc Hnext). lia.
Qed.

(** X2.  A range that ends on 9999-12-31 cannot be listed: after the last
    day the loop steps once more, and that step overflows. *)
Theorem iter_date_range_to_max_overflows start :
  valid start = true ->
  iter_date_range start (mkdate MAXYEAR 12 31) = None.
Proof.
  intros Hs. unfold iter_date_range. apply iter_dates_overflow; [done|].
  pose proof (proj1 (le_ordinal _ _ Hs valid_max) (valid_le_max _ Hs)). lia.
Qed.

Lemma iter_date_range_to_max_overflows_witness :
  iter_date_range (mkdate 9999 12 30) (mkdate MAXYEAR 12 31) = None.
Proof.
  apply (iter_date_range_to_max_overflows (mkdate 9999 12 30)). reflexivity.
Defined.

End HourlyFileFacts.

Section RetryFacts.
Import Csv CacheFile FetchGithubData.

Variable remote : archive.

Lemma scan_lines_grows lines c n : scan_lines lines c = Some n -> c <= n.
Proof.
  revert c. induction lines as [|l lines IH]; intros c; simpl.
  { intros [= <-]. lia. }
  destruct l as [| | |[] [|[| n' | [] |]|]]; try done;
    intros H; apply IH in H; revert H;
    repeat match goal with
           | |- context [0 <? ?x] => destruct (Z.ltb_spec 0 x)
           end; simpl; lia.
Qed.

Lemma scan_lines_raises lines c l :
  l ∈ lines -> raises l = true -> scan_lines lines c = None.
Proof.
  revert c. induction lines as [|l' lines IH]; intros c Hin Hr.
  { by apply elem_of_nil in Hin. }
  apply elem_of_cons in Hin as [<-|Hin].
  - by destruct l as [| | |[] []].
  - simpl. destruct l' as [| | |[] [|[| n' | [] |]|]]; try done; by apply IH.
Qed.

Lemma try_attempts_result sched resp day hour n :
  (try_attempts sched resp day hour).1 = Some n ->
  (n = -1 /\ exists a, a ∈ sched.*1 /\ resp a = NotFound)
  \/ (0 <= n /\ exists a lines,
        a ∈ sched.*1 /\ resp a = Body lines /\ scan_lines lines 0 = Some n)
  \/ Forall (fun ab => is_Some ab.2) sched.
Proof.
  induction sched as [|[a b] sched IH]; [by right; right|].
  rewrite fmap_cons. simpl.
  destruct (resp a) as [|lines| |] eqn:Hr; simpl.
  - intros [= <-]. left. split; [done|]. exists a. split; [apply list_elem_of_here|done].
  - intros Hs. right. left. split; [by apply scan_lines_grows in Hs|].
    exists a, lines. split; [apply list_elem_of_here|done].
  - destruct b as [seconds|]; [|done].
    destruct (MAX_RETRIES <? a)%nat; [done|].
    destruct (try_attempts sched resp day hour) as [r tr]. simpl in *.
    intros Hn. destruct (IH Hn) as [(-> & a' & Ha' & Hnf)|[(Hpos & a' & ls & Ha' & Hb & Hsc)|Hall]].
    + left. split; [done|]. exists a'. split; [by apply list_elem_of_further|done].
    + right. left. split; [done|]. exists a', ls.
      split; [by apply list_elem_of_further|done].
    + right. right. constructor; [by eexists|done].
  - done.
Qed.

(** X3.  The result -1 of [stream_hourly_file] always stands for a file
    that was not found: a count read from a body is never negative.  Any
    result is that of one of the six attempts. *)
Theorem missing_marker_is_unambiguous day hour n :
  (stream_hourly_file remote day hour).1 = Some n ->
  (n = -1 /\ exists attempt,
      (1 <= attempt <= 6)%nat /\ remote day hour attempt = NotFound)
  \/ (0 <= n /\ exists attempt lines,
        (1 <= attempt <= 6)%nat /\ remote day hour attempt = Body lines
        /\ scan_lines lines 0 = Some n).
Proof.
  intros H. apply try_attempts_result in H.
  assert (Hsched : forall a, a ∈ schedule.*1 -> (1 <= a <= 6)%nat).
  { intros a Ha. vm_compute in Ha.
    repeat (apply elem_of_cons in Ha as [->|Ha]; [lia|]).
    by apply elem_of_nil in Ha. }
  destruct H as [(-> & a & Ha & Hnf)|[(Hpos & a & ls & Ha & Hb & Hsc)|Hall]].
  - left. split; [done|]. exists a. split; [by apply Hsched|done].
  - right. split; [done|]. exists a, ls. split; [by apply Hsched|done].
  - exfalso. unfold schedule in Hall. simpl in Hall.
    rewrite !Forall_cons in Hall.
    destruct Hall as (_ & _ & _ & _ & _ & [? Hnone] & _). discriminate Hnone.
Qed.

Lemma requests_app tr1 tr2 : requests (tr1 ++ tr2) = (requests tr1 + requests tr2)%nat.
Proof. unfold requests. by rewrite List.filter_app, length_app. Qed.

Lemma slept_app tr1 tr2 : slept (tr1 ++ tr2) = slept tr1 + slept tr2.
Proof.
  unfold slept. induction tr1 as [|e tr1 IH]; simpl; [done|]. rewrite IH. lia.
Qed.

Lemma hourly_file_effects_bounded day hour :
  let tr := (stream_hourly_file remote day hour).2 in
  (1 <= requests tr <= 6)%nat /\ 0 <= slept tr <= 112.
Proof.
  unfold stream_hourly_file, schedule. simpl.
  repeat match goal with
         | |- context [remote day hour ?a] => destruct (remote day hour a); simpl
         end; vm_compute; repeat split; try lia; discriminate.
Qed.

(** X4.  One hourly file costs at least one and at most six requests and
    at most 112 seconds of waiting; a day costs between 24 and 144
    requests and at most 2688 seconds of waiting. *)
Theorem requests_and_waits_bounded day :
  (forall hour,
      let tr := (stream_hourly_file remote day hour).2 in
      (1 <= requests tr <= 6)%nat /\ 0 <= slept tr <= 112)
  /\ (24 <= requests (day_requests remote day) <= 144)%nat
  /\ 0 <= slept (day_requests remote day) <= 2688.
Proof.
  split; [apply hourly_file_effects_bounded|].
  rewrite day_requests_hours.
  assert (H : forall hours,
             (length hours
              <= requests (concat ((fun h => (stream_hourly_file remote day h).2) <$> hours))
              <= 6 * length hours)%nat
             /\ 0 <= slept (concat ((fun h => (stream_hourly_file remote day h).2) <$> hours))
                <= 112 * Z.of_nat (length hours)).
  { induction hours as [|h hours [IH1 IH2]]; [by vm_compute|].
    rewrite fmap_cons. cbn [concat length]. rewrite requests_app, slept_app.
    pose proof (hourly_file_effects_bounded day h) as [Hr Hs]. cbv zeta in Hr, Hs.
    split; lia. }
  destruct (H (seqZ 0 24)) as [H1 H2]. rewrite length_seqZ in H1, H2.
  split; lia.
Qed.

(** X5.  When the first [k] attempts fail in transport and the next one
    does not, for [k] up to five, the result is that of this attempt; it
    took [k + 1] requests and the first [k] waits of the schedule. *)
Theorem retry_recovers day hour k :
  (k <= 5)%nat ->
  (forall attempt, (1 <= attempt <= k)%nat -> remote day hour attempt = TransportError) ->
  remote day hour (S k) <> TransportError ->
  let r := stream_hourly_file remote day hour in
  r.1 = match remote day hour (S k) with
        | NotFound => Some (-1)
        | Body lines => scan_lines lines 0
        | _ => None
        end
  /\ requests r.2 = S k
  /\ slept r.2 = foldr Z.add 0 (take k RETRY_BACKOFF).
Proof.
  intros Hk Hfail Hok. unfold stream_hourly_file, schedule. simpl.
  do 6 (destruct k as [|k];
        [ repeat (match goal with
                  | |- context [remote day hour ?a] => rewrite (Hfail a) by lia
                  end; simpl);
          destruct (remote day hour _); try done; by vm_compute |]).
  lia.
Qed.

(** X6.  A line that is JSON but not an object, or a PushEvent whose
    payload is not an object, ends the scan of the file with an exception
    that is not retried: one request, and the hour counts for nothing,
    whatever was counted before that line. *)
Theorem raising_line_loses_the_hour day hour lines l :
  remote day hour 1%nat = Body lines -> l ∈ lines -> raises l = true ->
  stream_hourly_file remote day hour = (None, [Get day hour 1])
  /\ hour_contribution remote day hour = 0.
Proof.
  intros Hbody Hin Hr.
  assert (H : stream_hourly_file remote day hour = (None, [Get day hour 1])).
  { unfold stream_hourly_file, schedule. simpl. rewrite Hbody.
    by rewrite (scan_lines_raises lines 0 l). }
  split; [done|]. unfold hour_contribution. by rewrite H.
Qed.

Lemma scan_lines_sum lines c :
  forallb (fun l => negb (raises l)) lines = true ->
  scan_lines lines c = Some (c + foldr Z.add 0 (map line_commits lines)).
Proof.
  revert c. induction lines as [|l lines IH]; intros c; simpl.
  { intros _. f_equal. lia. }
  intros [Hl Hrest]%andb_true_iff.
  destruct l as [| | |[] [|[| n' | [] |]|]]; try done; simpl;
    rewrite IH by done; f_equal;
    repeat match goal with
           | |- context [0 <? ?x] => destruct (Z.ltb_spec 0 x)
           end; lia.
Qed.

(** X7.  The scan of a file either raises, when one of its lines does, or
    returns the sum of the sizes of its PushEvents that are integers above
    zero; blank lines, lines that are not JSON, other events, and sizes
    that are missing, not integers or not positive add nothing. *)
Theorem scan_counts_positive_push_sizes lines :
  (existsb raises lines = true -> scan_lines lines 0 = None)
  /\ (existsb raises lines = false ->
      scan_lines lines 0 = Some (foldr Z.add 0 (map line_commits lines)))
  /\ line_commits BlankLine = 0 /\ line_commits BadJson = 0
  /\ (forall p, line_commits (JsonObject false p) = 0)
  /\ (forall n, n <= 0 ->
        line_commits (JsonObject true (PayloadObject (SizeInt n))) = 0).
Proof.
  split; [|split; [|split; [done|split; [done|split; [done|]]]]].
  - intros (l & Hin & Hr)%existsb_exists.
    by apply (scan_lines_raises lines 0 l); [apply list_elem_of_In|].
  - intros Hnone. rewrite scan_lines_sum; [done|].
    apply forallb_forall. intros l Hin.
    destruct (raises l) eqn:Hr; [|done].
    assert (existsb raises lines = true) by (apply existsb_exists; eauto).
    congruence.
  - intros n Hn. simpl. destruct (Z.ltb_spec 0 n); [lia|done].
Qed.

End RetryFacts.

Section RetryWitnesses.
Import FetchGithubData.

Lemma missing_marker_is_unambiguous_witness :
  (-1 = -1 /\ exists attempt,
      (1 <= attempt <= 6)%nat
      /\ Samples.five_a_day Samples.jan_1 3 attempt = NotFound)
  \/ (0 <= -1 /\ exists attempt lines,
        (1 <= attempt <= 6)%nat
        /\ Samples.five_a_day Samples.jan_1 3 attempt = Body lines
        /\ scan_lines lines 0 = Some (-1)).
Proof.
  apply (missing_marker_is_unambiguous Samples.five_a_day Samples.jan_1 3 (-1)).
  reflexivity.
Defined.

Lemma retry_recovers_witness :
  let remote : archive :=
    fun _ _ attempt => if (attempt <=? 2)%nat then TransportError else NotFound in
  let r := stream_hourly_file remote Samples.jan_1 0 in
  r.1 = match remote Samples.jan_1 0 3%nat with
        | NotFound => Some (-1)
        | Body lines => scan_lines lines 0
        | _ => None
        end
  /\ requests r.2 = 3%nat
  /\ slept r.2 = foldr Z.add 0 (take 2 RETRY_BACKOFF).
Proof.
  apply (retry_recovers
           (fun _ _ attempt => if (attempt <=? 2)%nat then TransportError else NotFound)
           Samples.jan_1 0 2).
  - lia.
  - intros attempt Ha. destruct (Nat.leb_spec attempt 2); [reflexivity|lia].
  - simpl. discriminate.
Defined.

Lemma raising_line_loses_the_hour_witness :
  let lines := [JsonObject true (PayloadObject (SizeInt 7)); NotAnObject] in
  let remote : archive := fun _ _ _ => Body lines in
  stream_hourly_file remote Samples.jan_1 0 = (None, [Get Samples.jan_1 0 1])
  /\ hour_contribution remote Samples.jan_1 0 = 0.
Proof.
  apply (raising_line_loses_the_hour
           (fun _ _ _ => Body [JsonObject true (PayloadObject (SizeInt 7)); NotAnObject])
           Samples.jan_1 0
           [JsonObject true (PayloadObject (SizeInt 7)); NotAnObject] NotAnObject).
  - reflexivity.
  - apply list_elem_of_further, list_elem_of_here.
  - reflexivity.
Defined.

End RetryWitnesses.

(** ** Runs of [fetch]: what is added, what is kept, what a resumed run does *)

Section RunTotals.
Import Csv CacheFile FetchGithubData.

Variable remote : archive.

Lemma schedule_ends : ~ Forall (fun ab : nat * option Z => is_Some ab.2) schedule.
Proof.
  unfold schedule. simpl. rewrite !Forall_cons.
  intros (_ & _ & _ & _ & _ & [? Hnone] & _). discriminate Hnone.
Qed.

Lemma hour_contribution_nonneg d h : 0 <= hour_contribution remote d h.
Proof.
  unfold hour_contribution.
  destruct (stream_hourly_file remote d h).1 as [n|] eqn:Hn; [|done].
  destruct (Z.eqb_spec n (-1)); [done|].
  unfold stream_hourly_file in Hn.
  apply try_attempts_result in Hn as [[-> _]|[[H _]|Hall]]; [done|done|].
  by apply schedule_ends in Hall.
Qed.

Lemma day_total_nonneg d : 0 <= day_total remote d.
Proof.
  rewrite day_total_sum. induction (seqZ 0 24) as [|h hs IH]; [done|].
  rewrite fmap_cons. cbn [foldr].
  pose proof (hour_contribution_nonneg d h). lia.
Qed.

Lemma month_days_total_cons d days k :
  month_days_total remote (d :: days) k
  = (if String.eqb (month_key d) k then day_total remote d else 0)
    + month_days_total remote days k.
Proof.
  unfold month_days_total. cbn [List.filter].
  destruct (String.eqb _ _); cbn [map foldr]; lia.
Qed.

Lemma month_days_total_app days1 days2 k :
  month_days_total remote (days1 ++ days2) k
  = month_days_total remote days1 k + month_days_total remote days2 k.
Proof.
  induction days1 as [|d days1 IH]; [done|].
  rewrite <- app_comm_cons, !month_days_total_cons, IH. lia.
Qed.

Lemma month_days_total_nonneg days k : 0 <= month_days_total remote days k.
Proof.
  induction days as [|d days IH]; [done|].
  rewrite month_days_total_cons. pose proof (day_total_nonneg d).
  destruct (String.eqb _ _); lia.
Qed.

Lemma totals_after_lookup days (totals : gmap string Z) k :
  default 0 (totals_after remote days totals !! k)
  = default 0 (totals !! k) + month_days_total remote days k.
Proof.
  revert totals. induction days as [|d days IH]; intros totals.
  { unfold month_days_total. cbn [List.filter map foldr totals_after foldl]. lia. }
  rewrite totals_after_cons, IH, month_days_total_cons. unfold add_day.
  destruct (String.eqb_spec (month_key d) k) as [->|Hne].
  - rewrite lookup_insert_eq. simpl. lia.
  - rewrite lookup_insert_ne by done. lia.
Qed.

Lemma totals_after_dom_iff days (totals : gmap string Z) k :
  k ∈ dom (totals_after remote days totals)
  <-> k ∈ dom totals \/ k ∈ month_key <$> days.
Proof.
  revert totals. induction days as [|d days IH]; intros totals.
  { simpl. rewrite elem_of_nil. tauto. }
  rewrite totals_after_cons, IH. unfold add_day.
  rewrite dom_insert_L, elem_of_union, elem_of_singleton, fmap_cons, elem_of_cons.
  tauto.
Qed.

Lemma totals_after_app days1 days2 (totals : gmap string Z) :
  totals_after remote (days1 ++ days2) totals
  = totals_after remote days2 (totals_after remote days1 totals).
Proof. unfold totals_after. apply foldl_app. Qed.

Lemma done_after_app days1 days2 (done_days : gset string) :
  done_after (days1 ++ days2) done_days
  = done_after days2 (done_after days1 done_days).
Proof. unfold done_after. apply foldl_app. Qed.

(** X8.  A run that gets past loading its inputs returns, for every
    month, what the cache file had plus the totals of the pending days of
    that month: no month's total goes down, and the months of the result
    are those of the cache file and those of the pending days. *)
Theorem run_adds_pending_days_to_their_months
    dk start end_ (force : bool) all_dates (totals0 : gmap string Z) :
  load_existing_csv dk = Some totals0 ->
  iter_date_range start end_ = Some all_dates ->
  let pending :=
    pending_days all_dates (if force then (∅ : gset string) else load_checkpoint dk) in
  exists totals1,
    returned (fetch remote dk start end_ force) = Some totals1
    /\ forall k,
         default 0 (totals1 !! k)
         = default 0 (totals0 !! k) + month_days_total remote pending k
         /\ default 0 (totals0 !! k) <= default 0 (totals1 !! k)
         /\ (k ∈ dom totals1 <-> k ∈ dom totals0 \/ k ∈ month_key <$> pending).
Proof.
  intros Hload Hall pending.
  assert (Hp : prepare dk start end_ force
               = Some (pending, if force then ∅ else load_checkpoint dk, totals0)).
  { unfold prepare. by rewrite Hload, Hall. }
  exists (totals_after remote pending totals0). split.
  - destruct (decide (pending = [])) as [Hnil|Hne].
    + rewrite Hnil in *. by rewrite (fetch_nothing_pending remote _ _ _ _ _ _ Hp).
    + by rewrite (fetch_pending remote _ _ _ _ _ _ _ Hp Hne).
  - intros k. rewrite totals_after_lookup.
    pose proof (month_days_total_nonneg pending k).
    split; [done|]. split; [lia|]. apply totals_after_dom_iff.
Qed.

(** X9.  A run without [force] that gets past loading its inputs never
    takes a day out of the checkpoint: afterwards the checkpoint has the
    days it had and every day of the range. *)
Theorem run_without_force_extends_the_checkpoint
    dk start end_ all_dates (totals0 : gmap string Z) :
  load_existing_csv dk = Some totals0 ->
  iter_date_range start end_ = Some all_dates ->
  load_checkpoint (disk_after (fetch remote dk start end_ false))
  = load_checkpoint dk ∪ list_to_set (isoformat <$> all_dates).
Proof.
  intros Hload Hall. apply set_eq. intros s.
  rewrite elem_of_union, elem_of_list_to_set.
  set (pending := pending_days all_dates (load_checkpoint dk)).
  assert (Hp : prepare dk start end_ false
               = Some (pending, load_checkpoint dk, totals0)).
  { unfold prepare. by rewrite Hload, Hall. }
  assert (Hin : s ∈ load_checkpoint dk \/ s ∈ isoformat <$> pending
                <-> s ∈ load_checkpoint dk \/ s ∈ isoformat <$> all_dates).
  { split; (intros [?|Hs]; [by left|]).
    - apply list_elem_of_fmap in Hs as (d & -> & [Hd _]%elem_of_pending_days).
      right. by apply list_elem_of_fmap_2.
    - apply list_elem_of_fmap in Hs as (d & -> & Hd).
      destruct (decide (isoformat d ∈ load_checkpoint dk)); [by left|right].
      apply list_elem_of_fmap_2. by apply elem_of_pending_days. }
  destruct (decide (pending = [])) as [Hnil|Hne].
  - rewrite Hnil in Hp. rewrite (fetch_nothing_pending remote _ _ _ _ _ _ Hp).
    cbn [disk_after]. rewrite <- Hin, Hnil, fmap_nil, elem_of_nil. tauto.
  - rewrite (fetch_pending remote _ _ _ _ _ _ _ Hp Hne). cbn [disk_after].
    rewrite disk_with_all_days by done.
    by rewrite load_checkpoint_lines, elem_of_done_after.
Qed.

End RunTotals.

Section RunTotalsWitnesses.
Import Csv CacheFile FetchGithubData Samples.

Lemma run_adds_pending_days_to_their_months_witness :
  let pending :=
    pending_days [jan_1; jan_2] (if false then (∅ : gset string) else load_checkpoint cached_disk) in
  exists totals1,
    returned (fetch five_a_day cached_disk jan_1 jan_2 false) = Some totals1
    /\ forall k,
         default 0 (totals1 !! k)
         = default 0 (({["2023-01" := 100]} : gmap string Z) !! k)
           + month_days_total five_a_day pending k
         /\ default 0 (({["2023-01" := 100]} : gmap string Z) !! k)
            <= default 0 (totals1 !! k)
         /\ (k ∈ dom totals1
             <-> k ∈ dom ({["2023-01" := 100]} : gmap string Z)
                 \/ k ∈ month_key <$> pending).
Proof.
  apply (run_adds_pending_days_to_their_months five_a_day cached_disk jan_1 jan_2
           false [jan_1; jan_2] {["2023-01" := 100]}).
  - vm_compute. reflexivity.
  - reflexivity.
Defined.

Lemma run_without_force_extends_the_checkpoint_witness :
  load_checkpoint (disk_after (fetch five_a_day cached_disk jan_2 jan_2 false))
  = load_checkpoint cached_disk ∪ list_to_set (isoformat <$> [jan_2]).
Proof.
  apply (run_without_force_extends_the_checkpoint five_a_day cached_disk jan_2 jan_2
           [jan_2] {["2023-01" := 100]}).
  - vm_compute. reflexivity.
  - reflexivity.
Defined.

End RunTotalsWitnesses.

(** ** Stopped runs and the runs that resume them *)

Section ResumedRuns.
Import Csv CacheFile FetchGithubData.

Variable remote : archive.

Lemma filter_none {A} (p : A -> bool) (l : list A) :
  (forall x, x ∈ l -> p x = false) -> List.filter p l = [].
Proof.
  induction l as [|x l IH]; intros H; [done|]. simpl.
  rewrite (H x) by apply list_elem_of_here.
  apply IH. intros y Hy. by apply H, list_elem_of_further.
Qed.

Lemma filter_all {A} (p : A -> bool) (l : list A) :
  (forall x, x ∈ l -> p x = true) -> List.filter p l = l.
Proof.
  induction l as [|x l IH]; intros H; [done|]. simpl.
  rewrite (H x) by apply list_elem_of_here.
  f_equal. apply IH. intros y Hy. by apply H, list_elem_of_further.
Qed.

(** The days still pending once the days [days] are recorded as done. *)
Lemma pending_days_done_after all_dates days (done_days : gset string) :
  pending_days all_dates (done_after days done_days)
  = List.filter (fun d => bool_decide (isoformat d ∉ isoformat <$> days))
      (pending_days all_dates done_days).
Proof.
  unfold pending_days. induction all_dates as [|d l IH]; [done|].
  cbn [List.filter].
  destruct (decide (isoformat d ∈ done_days)) as [Hin|Hnin].
  - rewrite (bool_decide_eq_false_2 (isoformat d ∉ done_days)) by tauto.
    rewrite bool_decide_eq_false_2; [done|].
    rewrite elem_of_done_after. tauto.
  - rewrite (bool_decide_eq_true_2 (isoformat d ∉ done_days)) by done.
    cbn [List.filter]. rewrite <- IH.
    destruct (decide (isoformat d ∈ isoformat <$> days)) as [Hd|Hd].
    + rewrite !bool_decide_eq_false_2; [done|tauto|].
      rewrite elem_of_done_after. tauto.
    + rewrite !bool_decide_eq_true_2; [done|done|].
      rewrite elem_of_done_after. tauto.
Qed.

Lemma filter_not_taken (l : list date) K :
  NoDup (isoformat <$> l) ->
  List.filter (fun d => bool_decide (isoformat d ∉ isoformat <$> take K l)) l
  = drop K l.
Proof.
  intros Hnd.
  set (p := fun d => bool_decide (isoformat d ∉ isoformat <$> take K l)).
  transitivity (List.filter p (take K l ++ drop K l)); [by rewrite take_drop|].
  rewrite List.filter_app.
  rewrite <- (take_drop K l), fmap_app in Hnd.
  apply NoDup_app in Hnd as (_ & Hdisj & _).
  rewrite filter_none, filter_all; [done| |].
  - intros d Hd. apply bool_decide_eq_true_2. intros Hin.
    apply (Hdisj _ Hin). by apply list_elem_of_fmap_2.
  - intros d Hd. apply bool_decide_eq_false_2. intros Hn. apply Hn.
    by apply list_elem_of_fmap_2.
Qed.

Lemma pending_days_resumed all_dates (done_days : gset string) K :
  NoDup (isoformat <$> pending_days all_dates done_days) ->
  pending_days all_dates
    (done_after (take K (pending_days all_dates done_days)) done_days)
  = drop K (pending_days all_dates done_days).
Proof. intros Hnd. by rewrite pending_days_done_after, filter_not_taken. Qed.

(** What a run finds on a disk with the checkpoint of the first [c]
    pending days and the cache of the first [j]. *)
Lemma prepare_stopped dk start end_ pending (done_days : gset string)
    (totals : gmap string Z) j c :
  valid start = true -> valid end_ = true ->
  prepare dk start end_ false = Some (pending, done_days, totals) ->
  well_formed totals -> (1 <= c)%nat ->
  prepare
    (mkdisk (Some (checkpoint_lines (done_after (take c pending) done_days)))
            (csv_file (disk_with_days remote dk pending done_days totals j)))
    start end_ false
  = Some (drop c pending, done_after (take c pending) done_days,
          totals_after remote (take j pending) totals).
Proof.
  intros Hs He Hp Hwf Hc.
  destruct (pending_valid _ _ _ _ _ _ _ Hs He Hp) as [Hv Hnd].
  apply prepare_inv in Hp as (Hdone & Hload & all_dates & Hall & Hpd).
  simpl in Hdone. unfold prepare.
  rewrite load_checkpoint_lines.
  assert (Hcsv : load_existing_csv
                   (mkdisk (Some (checkpoint_lines (done_after (take c pending) done_days)))
                      (csv_file (disk_with_days remote dk pending done_days totals j)))
                 = Some (totals_after remote (take j pending) totals)).
  { destruct j as [|j]; [done|]. unfold load_existing_csv, disk_with_days.
    cbn [csv_file]. apply load_save_csv.
    apply well_formed_plain, totals_after_well_formed; [done|].
    by apply Forall_take. }
  rewrite Hcsv, Hall. cbn [mbind option_bind].
  rewrite Hpd in *. by rewrite pending_days_resumed.
Qed.

(** X10.  A run without [force] that was stopped after the two files were
    written for its first [K] days can be resumed: the second run returns
    what the run would have returned without the stop, and leaves the
    same two files. *)
Theorem resumed_run_gives_the_uninterrupted_result
    dk start end_ K pending (done_days : gset string) (totals : gmap string Z) :
  valid start = true -> valid end_ = true ->
  prepare dk start end_ false = Some (pending, done_days, totals) ->
  well_formed totals -> (K <= length pending)%nat ->
  let stopped := disk_with_days remote dk pending done_days totals K in
  let resumed := fetch remote stopped start end_ false in
  let whole := fetch remote dk start end_ false in
  returned resumed = returned whole
  /\ disk_after resumed = disk_after whole
  /\ prepare stopped start end_ false
     = Some (drop K pending, done_after (take K pending) done_days,
             totals_after remote (take K pending) totals).
Proof.
  intros Hs He Hp Hwf HK stopped resumed whole.
  destruct K as [|K].
  { subst resumed whole stopped. cbn [disk_with_days take drop]. by rewrite Hp. }
  assert (Hne : pending <> []) by (destruct pending; [simpl in HK; lia|done]).
  assert (Hp' : prepare stopped start end_ false
                = Some (drop (S K) pending, done_after (take (S K) pending) done_days,
                        totals_after remote (take (S K) pending) totals)).
  { pose proof (prepare_stopped dk start end_ pending done_days totals (S K) (S K)
                  Hs He Hp Hwf ltac:(lia)) as H.
    exact H. }
  split; [|split; [|done]]; subst resumed whole.
  - rewrite (fetch_pending remote _ _ _ _ _ _ _ Hp Hne). cbn [returned].
    destruct (decide (drop (S K) pending = [])) as [Hnil|Hmore].
    + rewrite Hnil in Hp'. rewrite (fetch_nothing_pending remote _ _ _ _ _ _ Hp').
      cbn [returned]. rewrite <- (take_drop (S K) pending) at 2.
      by rewrite Hnil, app_nil_r.
    + rewrite (fetch_pending remote _ _ _ _ _ _ _ Hp' Hmore). cbn [returned].
      by rewrite <- totals_after_app, take_drop.
  - rewrite (fetch_pending remote _ _ _ _ _ _ _ Hp Hne). cbn [disk_after].
    destruct (decide (drop (S K) pending = [])) as [Hnil|Hmore].
    + rewrite Hnil in Hp'. rewrite (fetch_nothing_pending remote _ _ _ _ _ _ Hp').
      cbn [disk_after]. subst stopped.
      assert (S K = length pending) as ->; [|done].
      apply (f_equal length) in Hnil. rewrite length_drop in Hnil. simpl in Hnil. lia.
    + rewrite (fetch_pending remote _ _ _ _ _ _ _ Hp' Hmore). cbn [disk_after].
      rewrite !disk_with_all_days by done.
      by rewrite <- done_after_app, <- totals_after_app, take_drop.
Qed.

(** *** Stopped between the two writes *)

Lemma days_loop_stop_between pending (done_days : gset string)
    (totals : gmap string Z) dk j d :
  pending !! j = Some d ->
  exists n,
    replay dk (take n (days_loop remote pending done_days totals dk).2)
    = mkdisk (Some (checkpoint_lines (done_after (take (S j) pending) done_days)))
             (csv_file (disk_with_days remote dk pending done_days totals j)).
Proof.
  revert done_days totals dk j.
  induction pending as [|d0 rest IH]; intros done_days totals dk j Hj; [done|].
  rewrite days_loop_cons. cbv zeta. cbn [snd].
  set (done' := {[isoformat d0]} ∪ done_days).
  set (totals' := add_day remote totals d0).
  set (dk' := save_csv totals' (save_checkpoint done' dk)).
  set (reqs := day_requests remote d0).
  pose proof (day_requests_no_write remote d0) as Hreqs. fold reqs in Hreqs.
  destruct j as [|j].
  - exists (S (length reqs)). rewrite take_app, take_ge by lia.
    replace (S (length reqs) - length reqs)%nat with 1%nat by lia.
    cbn [take]. rewrite replay_app, (replay_no_write dk reqs) by done.
    done.
  - simpl in Hj. destruct (IH done' totals' dk' j Hj) as [n Hn].
    exists (S (S (length reqs + n))). rewrite take_app, take_ge by lia.
    replace (S (S (length reqs + n)) - length reqs)%nat with (S (S n)) by lia.
    cbn [take]. rewrite replay_app, (replay_no_write dk reqs) by done.
    change (replay dk (?a :: ?b :: ?l)) with (replay dk' l).
    rewrite Hn. subst dk' totals' done'. by rewrite disk_with_days_cons.
Qed.

Lemma try_attempts_day sched resp day hour d h a :
  Get d h a ∈ (try_attempts sched resp day hour).2 -> d = day.
Proof.
  induction sched as [|[attempt backoff] sched IH]; simpl.
  { by intros ?%elem_of_nil. }
  assert (Hone : Get d h a ∈ [Get day hour attempt] -> d = day).
  { intros [H|H%elem_of_nil]%elem_of_cons; [congruence|done]. }
  destruct (resp attempt); try done.
  destruct backoff; [|done]. destruct (MAX_RETRIES <? attempt)%nat; [done|].
  destruct (try_attempts sched resp day hour) as [r tr]. simpl in *.
  intros [H|H]%elem_of_cons; [congruence|].
  apply elem_of_cons in H as [H|H]; [done|by apply IH].
Qed.

Lemma day_requests_day day d h a : Get d h a ∈ day_requests remote day -> d = day.
Proof.
  rewrite day_requests_hours. induction (seqZ 0 24) as [|h' hs IH].
  { by intros ?%elem_of_nil. }
  rewrite fmap_cons. cbn [concat]. intros [H|H]%elem_of_app; [|by apply IH].
  by apply try_attempts_day in H.
Qed.

(** The loop requests files of pending days only. *)
Lemma days_loop_gets pending (done_days : gset string) (totals : gmap string Z)
    dk d h a :
  Get d h a ∈ (days_loop remote pending done_days totals dk).2 -> d ∈ pending.
Proof.
  revert done_days totals dk.
  induction pending as [|d0 rest IH]; intros done_days totals dk.
  { by intros ?%elem_of_nil. }
  rewrite days_loop_cons. cbv zeta. cbn [snd].
  intros [H|H]%elem_of_app.
  - apply day_requests_day in H as ->. apply list_elem_of_here.
  - apply elem_of_cons in H as [H|H]; [done|].
    apply elem_of_cons in H as [H|H]; [done|].
    apply list_elem_of_further. by apply IH in H.
Qed.

(** X11.  A run without [force] can be stopped right after the checkpoint
    of a pending day [d] is written and before the cache is.  The run
    that resumes it never requests [d] again, and the month of [d] ends
    short of the uninterrupted total by exactly the commits of [d]. *)
Theorem day_stopped_between_the_writes_is_lost
    dk start end_ j d pending (done_days : gset string) (totals : gmap string Z) :
  valid start = true -> valid end_ = true ->
  prepare dk start end_ false = Some (pending, done_days, totals) ->
  well_formed totals -> pending !! j = Some d ->
  let stopped :=
    mkdisk (Some (checkpoint_lines (done_after (take (S j) pending) done_days)))
           (csv_file (disk_with_days remote dk pending done_days totals j)) in
  let resumed := fetch remote stopped start end_ false in
  (exists n, interrupted remote dk start end_ false n = stopped)
  /\ (forall h a, Get d h a ∉ effects resumed)
  /\ exists t_resumed t_whole,
       returned resumed = Some t_resumed
       /\ returned (fetch remote dk start end_ false) = Some t_whole
       /\ default 0 (t_whole !! month_key d)
          = default 0 (t_resumed !! month_key d) + day_total remote d
       /\ forall k, k <> month_key d ->
            default 0 (t_whole !! k) = default 0 (t_resumed !! k).
Proof.
  intros Hs He Hp Hwf Hj stopped resumed.
  assert (Hne : pending <> []) by (by destruct pending).
  destruct (pending_valid _ _ _ _ _ _ _ Hs He Hp) as [Hv Hnd].
  pose proof (prepare_stopped dk start end_ pending done_days totals j (S j)
                Hs He Hp Hwf ltac:(lia)) as Hp'.
  fold stopped in Hp'.
  assert (Hsplit : pending = take j pending ++ d :: drop (S j) pending).
  { symmetry. by apply take_drop_middle. }
  assert (Hres : returned resumed
                 = Some (totals_after remote (drop (S j) pending)
                           (totals_after remote (take j pending) totals))
                 /\ forall h a, Get d h a ∉ effects resumed).
  { subst resumed. destruct (decide (drop (S j) pending = [])) as [Hnil|Hmore].
    - rewrite Hnil in *. rewrite (fetch_nothing_pending remote _ _ _ _ _ _ Hp').
      split; [done|]. intros h a. cbn [effects]. apply not_elem_of_nil.
    - rewrite (fetch_pending remote _ _ _ _ _ _ _ Hp' Hmore). split; [done|].
      intros h a Hin. cbn [effects] in Hin. apply days_loop_gets in Hin.
      rewrite Hsplit, fmap_app, fmap_cons in Hnd.
      apply NoDup_app in Hnd as (_ & _ & Hnd).
      apply NoDup_cons in Hnd as [Hnd _]. apply Hnd.
      by apply list_elem_of_fmap_2. }
  destruct Hres as [Hret Hget].
  split; [|split; [done|]].
  - unfold interrupted, stopped_at. rewrite (fetch_pending remote _ _ _ _ _ _ _ Hp Hne).
    cbn [effects]. subst stopped.
    exact (days_loop_stop_between pending done_days totals dk j d Hj).
  - eexists _, _. split; [exact Hret|].
    rewrite (fetch_pending remote _ _ _ _ _ _ _ Hp Hne). cbn [returned].
    split; [done|].
    assert (Hk : forall k,
               default 0 (totals_after remote pending totals !! k)
               = default 0 (totals_after remote (drop (S j) pending)
                              (totals_after remote (take j pending) totals) !! k)
                 + (if String.eqb (month_key d) k then day_total remote d else 0)).
    { intros k. rewrite !totals_after_lookup.
      rewrite Hsplit at 1. rewrite month_days_total_app, month_days_total_cons. lia. }
    split.
    + rewrite Hk. by rewrite String.eqb_refl.
    + intros k Hne'. rewrite Hk.
      destruct (String.eqb_spec (month_key d) k); [congruence|lia].
Qed.

End ResumedRuns.

Section ResumedRunsWitnesses.
Import Csv CacheFile FetchGithubData Samples.

Lemma resumed_run_gives_the_uninterrupted_result_witness :
  let stopped := disk_with_days five_a_day empty_disk [jan_1; jan_2] ∅ ∅ 1 in
  let resumed := fetch five_a_day stopped jan_1 jan_2 false in
  let whole := fetch five_a_day empty_disk jan_1 jan_2 false in
  returned resumed = returned whole
  /\ disk_after resumed = disk_after whole
  /\ prepare stopped jan_1 jan_2 false
     = Some (drop 1 [jan_1; jan_2], done_after (take 1 [jan_1; jan_2]) ∅,
             totals_after five_a_day (take 1 [jan_1; jan_2]) ∅).
Proof.
  apply (resumed_run_gives_the_uninterrupted_result five_a_day empty_disk jan_1 jan_2
           1 [jan_1; jan_2] ∅ ∅).
  - reflexivity.
  - reflexivity.
  - vm_compute. reflexivity.
  - apply well_formed_check. vm_compute. reflexivity.
  - simpl. lia.
Defined.

Lemma day_stopped_between_the_writes_is_lost_witness :
  let stopped :=
    mkdisk (Some (checkpoint_lines (done_after (take 1 [jan_1; jan_2]) ∅)))
           (csv_file (disk_with_days five_a_day empty_disk [jan_1; jan_2] ∅ ∅ 0)) in
  let resumed := fetch five_a_day stopped jan_1 jan_2 false in
  (exists n, interrupted five_a_day empty_disk jan_1 jan_2 false n = stopped)
  /\ (forall h a, Get jan_1 h a ∉ effects resumed)
  /\ exists t_resumed t_whole,
       returned resumed = Some t_resumed
       /\ returned (fetch five_a_day empty_disk jan_1 jan_2 false) = Some t_whole
       /\ default 0 (t_whole !! month_key jan_1)
          = default 0 (t_resumed !! month_key jan_1) + day_total five_a_day jan_1
       /\ forall k, k <> month_key jan_1 ->
            default 0 (t_whole !! k) = default 0 (t_resumed !! k).
Proof.
  apply (day_stopped_between_the_writes_is_lost five_a_day empty_disk jan_1 jan_2
           0 jan_1 [jan_1; jan_2] ∅ ∅).
  - reflexivity.
  - reflexivity.
  - vm_compute. reflexivity.
  - apply well_formed_check. vm_compute. reflexivity.
  - reflexivity.
Defined.

End ResumedRunsWitnesses.

(** ** Cache files that [save_csv] did not write *)

Section ForeignCacheFiles.
Import Csv CacheFile.








End ForeignCacheFiles.

(** ** [cap_outliers] and [load_commits]: what every frame keeps *)

Section FrameFacts.
Import Csv Visualize.

Lemma interpolate_from_length ys k prev :
  length (interpolate_from ys k prev) = length ys.
Proof.
  revert k prev. induction ys as [|y ys IH]; intros k prev; [done|].
  cbn [interpolate_from]. destruct (PrimFloat.is_nan y); cbn [length]; by rewrite IH.
Qed.

Lemma outlier_mask_length xs z : length (outlier_mask xs z) = length xs.
Proof. unfold outlier_mask, modified_z. by rewrite !length_map. Qed.

Lemma set_commits_columns (df : frame) (vals : list Z) :
  length vals = length df ->
  map r_month (map (fun '(r, c) => set_commits r c) (combine df vals)) = map r_month df
  /\ map r_date (map (fun '(r, c) => set_commits r c) (combine df vals)) = map r_date df.
Proof.
  revert vals. induction df as [|r df IH]; intros [|v vals] Hlen; try done.
  cbn [combine map]. destruct (IH vals) as [-> ->]; [by injection Hlen|done].
Qed.

(** The months and the dates of a frame pass through [cap_outliers]. *)
Lemma cap_outliers_columns df z out :
  cap_outliers df z = Some out ->
  map r_month out = map r_month df /\ map r_date out = map r_date df.
Proof.
  unfold cap_outliers.
  destruct (existsb id (outlier_mask (commits_column df) z)); [|by intros [= <-]].
  destruct (mapM round_astype_int64 _) as [vals|] eqn:Hvals; [|done].
  intros [= <-]. apply set_commits_columns.
  apply length_mapM in Hvals. rewrite <- Hvals.
  unfold interpolate. rewrite interpolate_from_length, length_map, length_combine.
  unfold commits_column. rewrite outlier_mask_length, !length_map. lia.
Qed.

(** X13.  [cap_outliers] never adds, drops or reorders rows, and never
    touches a month or a date: only commit counts can change, and none
    does when no row is flagged. *)
Theorem cap_outliers_changes_commits_only df z out :
  cap_outliers df z = Some out ->
  length out = length df
  /\ map r_month out = map r_month df
  /\ map r_date out = map r_date df
  /\ (capped_months df z = [] -> out = df).
Proof.
  intros H. destruct (cap_outliers_columns df z out H) as [Hm Hd].
  split; [|split; [done|split; [done|]]].
  { apply (f_equal length) in Hm. by rewrite !length_map in Hm. }
  intros Hnone. unfold cap_outliers in H.
  assert (Hmask : existsb id (outlier_mask (commits_column df) z) = false).
  { unfold capped_months in Hnone.
    pose proof (outlier_mask_length (commits_column df) z) as Hlen.
    unfold commits_column in Hlen at 2. rewrite length_map in Hlen.
    revert Hnone Hlen. generalize (outlier_mask (commits_column df) z).
    clear. induction df as [|r df IH]; intros [|b mask]; try done.
    cbn [combine List.filter snd existsb id length]. destruct b; [done|].
    intros Hn [= Hl]. cbn [orb]. by apply IH. }
  rewrite Hmask in H. by injection H as <-.
Qed.

Lemma interpolate_leading_nan ys :
  interpolate (nan :: ys) = nan :: interpolate_from ys 1 None.
Proof. reflexivity. Qed.

Lemma round_astype_int64_nan : round_astype_int64 nan = None.
Proof. reflexivity. Qed.

(** X14.  Whenever the first row of the frame is flagged as an outlier,
    [cap_outliers] raises: no value comes before that row, the
    interpolation leaves it undefined, and the cast to integers fails. *)
Theorem cap_outliers_raises_when_first_row_is_flagged df z :
  head (outlier_mask (commits_column df) z) = Some true ->
  cap_outliers df z = None.
Proof.
  intros H. unfold cap_outliers.
  pose proof (outlier_mask_length (commits_column df) z) as Hlen.
  destruct (outlier_mask (commits_column df) z) as [|b mask]; [done|].
  injection H as ->.
  destruct df as [|r df]; [done|].
  cbn [existsb id orb commits_column map combine].
  rewrite interpolate_leading_nan. cbn [mapM].
  by rewrite round_astype_int64_nan.
Qed.

Lemma insert_row_perm x l : insert_row x l ≡ₚ x :: l.
Proof.
  induction l as [|y l IH]; [done|]. simpl.
  destruct (date_leb (r_date x) (r_date y)); [done|].
  rewrite IH. apply Permutation_swap.
Qed.

Lemma sort_values_perm df : sort_values df ≡ₚ df.
Proof.
  induction df as [|x df IH]; [done|]. simpl. by rewrite insert_row_perm, IH.
Qed.

Lemma date_row_date r row : date_row r = Some row -> parse_month (r_month row) = Some (r_date row).
Proof.
  unfold date_row. destruct (parse_month r.1) eqn:Hp; [|done]. by intros [= <-].
Qed.

Lemma filter_perm {A} (p : A -> bool) (l l' : list A) :
  l ≡ₚ l' -> List.filter p l ≡ₚ List.filter p l'.
Proof.
  induction 1 as [|x l l' _ IH|x y l|l1 l2 l3 _ IH1 _ IH2]; simpl.
  - done.
  - destruct (p x); by rewrite IH.
  - destruct (p x), (p y); try done. apply Permutation_swap.
  - by rewrite IH1.
Qed.

Lemma filter_map_month (p : string -> bool) (df : frame) :
  map r_month (List.filter (fun r => p (r_month r)) df)
  = List.filter p (map r_month df).
Proof.
  induction df as [|r df IH]; [done|]. simpl.
  destruct (p (r_month r)); simpl; by rewrite IH.
Qed.

Lemma sorted_dates df :
  StronglySorted by_date df ->
  StronglySorted (fun a b => date_leb a b = true) (map r_date df).
Proof.
  induction 1 as [|r df _ IH Hall]; [constructor|].
  cbn [map]. constructor; [done|]. apply Forall_forall. intros d Hd.
  apply list_elem_of_fmap in Hd as (r' & -> & Hr').
  rewrite Forall_forall in Hall. by apply Hall.
Qed.

(** X15.  What [load_commits] returns, when it returns: the rows are in
    the order of their dates, every month is inside the window, the
    months are those of the file inside the window, each as often as the
    file has it, and every date is the one its month stands for. *)
Theorem load_commits_gives_the_window_in_date_order
    text rows start_month end_month out :
  read_rows text = Some rows ->
  load_commits text start_month end_month = Some out ->
  StronglySorted (fun a b => date_leb a b = true) (map r_date out)
  /\ Forall (fun r => in_window start_month end_month (r_month r) = true) out
  /\ map r_month out ≡ₚ List.filter (in_window start_month end_month) rows.*1
  /\ Forall (fun r => parse_month (r_month r) = Some (r_date r)) out.
Proof.
  intros Hrows Hload. unfold load_commits in Hload. rewrite Hrows in Hload.
  cbn [mbind option_bind] in Hload.
  destruct rows as [|r0 rows0] eqn:Hr; [done|]. rewrite <- Hr in *.
  rewrite commits_frame_rows in Hload by (by rewrite Hr).
  destruct (mapM date_row rows) as [df|] eqn:Hdf; [|done].
  cbn [mbind option_bind] in Hload.
  apply cap_outliers_columns in Hload as [Hm Hd].
  assert (Hmonths : map r_month df = rows.*1).
  { apply mapM_Some in Hdf. clear -Hdf.
    induction Hdf as [|r row rows df Hrow _ IH]; [done|].
    cbn [map fmap list_fmap]. rewrite (date_row_month _ _ Hrow). f_equal. exact IH. }
  assert (Hparse : Forall (fun r => parse_month (r_month r) = Some (r_date r)) df).
  { apply mapM_Some in Hdf. clear -Hdf.
    induction Hdf as [|r row rows df Hrow _ IH]; constructor; [|done].
    by apply (date_row_date r). }
  set (window := restrict start_month end_month (sort_values df)) in *.
  assert (Hin : Forall (fun r => in_window start_month end_month (r_month r) = true
                                 /\ parse_month (r_month r) = Some (r_date r)) window).
  { apply Forall_forall. intros r Hr'. subst window. unfold restrict in Hr'.
    apply list_elem_of_In, filter_In in Hr' as [Hr' Hw]. split; [done|].
    rewrite Forall_forall in Hparse. apply Hparse.
    rewrite <- sort_values_perm. by apply list_elem_of_In. }
  assert (Hcols : Forall2 (fun r r' => r_month r = r_month r' /\ r_date r = r_date r')
                    out window).
  { clear -Hm Hd. revert out Hm Hd.
    induction window as [|w window IH]; intros [|o out] Hm Hd;
      [by constructor|done|done|].
    injection Hm as Hm1 Hm. injection Hd as Hd1 Hd. constructor; [done|by apply IH]. }
  split; [|split; [|split]].
  - rewrite Hd. apply sorted_dates. subst window. unfold restrict.
    rewrite filter_sort_values. apply sort_values_sorted.
  - clear -Hcols Hin. induction Hcols as [|o w out window [Ho _] _ IH]; [constructor|].
    apply Forall_cons in Hin as [[Hw _] Hin]. constructor; [by rewrite Ho|by apply IH].
  - rewrite Hm. subst window. unfold restrict.
    rewrite (filter_map_month (in_window start_month end_month)), <- Hmonths.
    apply filter_perm. apply fmap_Permutation, sort_values_perm.
  - clear -Hcols Hin. induction Hcols as [|o w out window [Ho Ho'] _ IH]; [constructor|].
    apply Forall_cons in Hin as [[_ Hw] Hin].
    constructor; [by rewrite Ho, Ho'|by apply IH].
Qed.

End FrameFacts.

Section FrameWitnesses.
Import Csv Visualize Samples.

Lemma cap_outliers_changes_commits_only_witness :
  let out := [ mkrow "2023-01" 1 (2023, 1); mkrow "2023-02" 1 (2023, 2);
               mkrow "2023-03" 1 (2023, 3); mkrow "2023-04" 1 (2023, 4);
               mkrow "2023-05" 1 (2023, 5) ] in
  length out = length spike_last
  /\ map r_month out = map r_month spike_last
  /\ map r_date out = map r_date spike_last
  /\ (capped_months spike_last Z_THRESH = [] -> out = spike_last).
Proof.
  apply (cap_outliers_changes_commits_only spike_last Z_THRESH).
  vm_compute. reflexivity.
Defined.

Lemma cap_outliers_raises_when_first_row_is_flagged_witness :
  cap_outliers spike_first Z_THRESH = None.
Proof.
  apply (cap_outliers_raises_when_first_row_is_flagged spike_first Z_THRESH).
  vm_compute. reflexivity.
Defined.

Lemma load_commits_gives_the_window_in_date_order_witness :
  let rows := [("2023-01", 100); ("2023-02", 100); ("2023-03", 100); ("2023-04", 5000);
               ("2023-05", 200); ("2023-06", 200); ("2023-07", 200)] in
  let out := [ mkrow "2023-01" 100 (2023, 1); mkrow "2023-02" 100 (2023, 2);
               mkrow "2023-03" 100 (2023, 3); mkrow "2023-04" 100 (2023, 4) ] in
  StronglySorted (fun a b => date_leb a b = true) (map r_date out)
  /\ Forall (fun r => in_window None (Some "2023-04") (r_month r) = true) out
  /\ map r_month out ≡ₚ List.filter (in_window None (Some "2023-04")) rows.*1
  /\ Forall (fun r => parse_month (r_month r) = Some (r_date r)) out.
Proof.
  apply (load_commits_gives_the_window_in_date_order spike_in_april
           [("2023-01", 100); ("2023-02", 100); ("2023-03", 100); ("2023-04", 5000);
            ("2023-05", 200); ("2023-06", 200); ("2023-07", 200)]
           None (Some "2023-04")).
  - vm_compute. reflexivity.
  - vm_compute. reflexivity.
Defined.

End FrameWitnesses.

(** ** main.py, step 1: the months asked for, and what becomes of the cache *)

Section MonthRange.
Import Csv CacheFile.

Lemma month_of_index y m :
  1 <= m <= 12 -> (12 * y + m - 1) / 12 = y /\ (12 * y + m - 1) mod 12 + 1 = m.
Proof. intros Hm. split; Z.div_mod_to_equations; lia. Qed.

(** The loop stops on its condition: with enough fuel it lists the months
    by their index [12 * y + m - 1]. *)
Lemma months_from_spec fuel y m ey em :
  1 <= m <= 12 -> 1 <= em <= 12 ->
  (12 * ey + em) - (12 * y + m) + 1 <= Z.of_nat fuel ->
  Main.months_from fuel y m ey em
  = map (fun i => Main.month_label (i / 12) (i mod 12 + 1))
        (seqZ (12 * y + m - 1) ((12 * ey + em) - (12 * y + m) + 1)).
Proof.
  intros Hm Hem. revert y m Hm.
  induction fuel as [|fuel IH]; intros y m Hm Hfuel.
  { by rewrite seqZ_nil by lia. }
  cbn [Main.months_from].
  destruct ((y <? ey) || ((y =? ey) && (m <=? em))) eqn:Hcond.
  - assert (Hle : 12 * y + m <= 12 * ey + em).
    { apply orb_true_iff in Hcond as [H|H].
      - apply Z.ltb_lt in H. lia.
      - apply andb_true_iff in H as [H1 H2].
        apply Z.eqb_eq in H1. apply Z.leb_le in H2. lia. }
    rewrite seqZ_cons by lia. cbn [map].
    destruct (month_of_index y m Hm) as [-> ->]. f_equal.
    destruct (Z.ltb_spec 12 (m + 1)).
    + rewrite IH by lia. f_equal. f_equal; lia.
    + rewrite IH by lia. f_equal. f_equal; lia.
  - rewrite seqZ_nil; [done|].
    apply orb_false_iff in Hcond as [H1 H2]. apply Z.ltb_ge in H1.
    apply andb_false_iff in H2 as [H2|H2].
    + apply Z.eqb_neq in H2. lia.
    + apply Z.leb_gt in H2. lia.
Qed.

(** X16.  For month numbers 1 to 12, the months asked for are the months
    from the start to the end, both included, each once and in order:
    [n] of them, the first the start and the last the end; none at all,
    and no error, when the start is after the end. *)
Theorem all_months_lists_start_to_end y m ey em :
  1 <= m <= 12 -> 1 <= em <= 12 ->
  let n := (12 * ey + em) - (12 * y + m) + 1 in
  Main.all_months y m ey em
  = map (fun i => Main.month_label (i / 12) (i mod 12 + 1)) (seqZ (12 * y + m - 1) n)
  /\ length (Main.all_months y m ey em) = Z.to_nat n
  /\ (0 < n ->
      head (Main.all_months y m ey em) = Some (Main.month_label y m)
      /\ last (Main.all_months y m ey em) = Some (Main.month_label ey em))
  /\ (n <= 0 -> Main.all_months y m ey em = []).
Proof.
  intros Hm Hem n.
  assert (Heq : Main.all_months y m ey em
                = map (fun i => Main.month_label (i / 12) (i mod 12 + 1))
                      (seqZ (12 * y + m - 1) n)).
  { unfold Main.all_months. apply months_from_spec; [done|done|]. subst n. lia. }
  split; [done|]. rewrite Heq. split; [by rewrite length_map, length_seqZ|]. split.
  - intros Hn. split.
    + rewrite seqZ_cons by done. cbn [map head].
      by destruct (month_of_index y m Hm) as [-> ->].
    + change (map ?f ?l) with (f <$> l). rewrite fmap_last, last_seqZ by done.
      cbn [fmap option_fmap option_map].
      replace (12 * y + m - 1 + n - 1) with (12 * ey + em - 1) by (subst n; lia).
      by destruct (month_of_index ey em Hem) as [-> ->].
  - intros Hn. by rewrite seqZ_nil.
Qed.

Lemma is_digit_digit c :
  is_digit c = true -> 0 <= digit_val c <= 9 /\ digit (digit_val c) = c.
Proof.
  unfold is_digit, digit_val, digit. intros [H1 H2]%andb_true_iff.
  apply Nat.leb_le in H1, H2. split; [lia|].
  replace (48 + Z.to_nat (Z.of_nat (nat_of_ascii c) - 48))%nat with (nat_of_ascii c)
    by lia.
  apply ascii_nat_embedding.
Qed.

Lemma int_of_str_digits s :
  all_digits s = true -> s <> EmptyString -> int_of_str s = Some (dec_val 0 s).
Proof.
  intros Hall Hne. unfold int_of_str.
  destruct (all_digits_no_space s Hall) as [-> ->].
  destruct s as [|c s]; [done|].
  assert (Hc : is_digit c = true)
    by (cbn [all_digits] in Hall; by apply andb_true_iff in Hall as [? _]).
  destruct (first_digit_not_sign c Hc) as [-> ->].
  by rewrite parse_all_digits.
Qed.

(** X17.  A month argument of four digits 0 to 9, a dash and a month 01
    to 12 (the form [_validate_month] asks for, in ASCII digits) is read
    by the two slices as a year 0 to 9999 and a month 1 to 12, and the
    label built from these two numbers is the argument itself. *)
Theorem checked_month_reads_back s :
  wf_month s = true ->
  exists y m,
    Main.parse_bound s = Some (y, m)
    /\ 0 <= y <= 9999 /\ 1 <= m <= 12
    /\ Main.month_label y m = s.
Proof.
  destruct s as [|a [|b [|c [|d [|sep [|m1 [|m2 [|]]]]]]]]; try done.
  unfold wf_month. rewrite !andb_true_iff.
  intros ((((((((Ha & Hb) & Hc) & Hd) & Hsep) & Hm1) & Hm2) & Hlo) & Hhi).
  apply Ascii.eqb_eq in Hsep as ->. apply Z.leb_le in Hlo, Hhi.
  destruct (is_digit_digit a Ha) as [Ra Ea], (is_digit_digit b Hb) as [Rb Eb],
    (is_digit_digit c Hc) as [Rc Ec], (is_digit_digit d Hd) as [Rd Ed],
    (is_digit_digit m1 Hm1) as [R1 E1], (is_digit_digit m2 Hm2) as [R2 E2].
  exists (1000 * digit_val a + 100 * digit_val b + 10 * digit_val c + digit_val d),
    (10 * digit_val m1 + digit_val m2).
  split; [|split; [lia|split; [lia|]]].
  - unfold Main.parse_bound, Main.slice.
    change (substring 0 (4 - 0) (String a (String b (String c (String d
              (String "-" (String m1 (String m2 ""))))))))
      with (String a (String b (String c (String d "")))).
    change (substring 5 (7 - 5) (String a (String b (String c (String d
              (String "-" (String m1 (String m2 ""))))))))
      with (String m1 (String m2 "")).
    rewrite !int_of_str_digits; try done.
    + cbn [mbind option_bind dec_val]. do 2 f_equal; lia.
    + cbn [all_digits]. by rewrite ?Ha, ?Hb, ?Hc, ?Hd, ?Hm1, ?Hm2.
    + cbn [all_digits]. by rewrite ?Ha, ?Hb, ?Hc, ?Hd, ?Hm1, ?Hm2.
  - unfold Main.month_label, pad4, pad2.
    set (y := 1000 * digit_val a + 100 * digit_val b + 10 * digit_val c + digit_val d).
    set (m := 10 * digit_val m1 + digit_val m2).
    assert (y / 1000 = digit_val a) as -> by (subst y; Z.div_mod_to_equations; lia).
    assert (y / 100 mod 10 = digit_val b) as -> by (subst y; Z.div_mod_to_equations; lia).
    assert (y / 10 mod 10 = digit_val c) as -> by (subst y; Z.div_mod_to_equations; lia).
    assert (y mod 10 = digit_val d) as -> by (subst y; Z.div_mod_to_equations; lia).
    assert (m / 10 = digit_val m1) as -> by (subst m; Z.div_mod_to_equations; lia).
    assert (m mod 10 = digit_val m2) as -> by (subst m; Z.div_mod_to_equations; lia).
    rewrite Ea, Eb, Ec, Ed, E1, E2. reflexivity.
Qed.

End MonthRange.

Section MonthRangeWitnesses.
Import Csv CacheFile.

Lemma all_months_lists_start_to_end_witness :
  let n := (12 * 2024 + 2) - (12 * 2023 + 11) + 1 in
  Main.all_months 2023 11 2024 2
  = map (fun i => Main.month_label (i / 12) (i mod 12 + 1)) (seqZ (12 * 2023 + 11 - 1) n)
  /\ length (Main.all_months 2023 11 2024 2) = Z.to_nat n
  /\ (0 < n ->
      head (Main.all_months 2023 11 2024 2) = Some (Main.month_label 2023 11)
      /\ last (Main.all_months 2023 11 2024 2) = Some (Main.month_label 2024 2))
  /\ (n <= 0 -> Main.all_months 2023 11 2024 2 = []).
Proof. apply (all_months_lists_start_to_end 2023 11 2024 2); lia. Defined.

Lemma checked_month_reads_back_witness :
  exists y m,
    Main.parse_bound "2023-01" = Some (y, m)
    /\ 0 <= y <= 9999 /\ 1 <= m <= 12
    /\ Main.month_label y m = "2023-01".
Proof. apply (checked_month_reads_back "2023-01"). reflexivity. Defined.

End MonthRangeWitnesses.

(** ** The bulk path: the query, and the cache after step 1 *)

Section BulkPath.
Import Csv CacheFile.

Lemma collect_keeps results (totals : gmap string Z) k :
  (forall v, (k, Some v) ∉ results) ->
  FetchBigquery.collect results totals !! k = totals !! k.
Proof.
  revert totals. induction results as [|[mo [v|]] results IH]; intros totals Hk.
  - done.
  - cbn [FetchBigquery.collect]. rewrite IH.
    + apply lookup_insert_ne. intros ->. apply (Hk v), list_elem_of_here.
    + intros v' Hin. apply (Hk v'). by apply list_elem_of_further.
  - cbn [FetchBigquery.collect]. apply IH.
    intros v' Hin. apply (Hk v'). by apply list_elem_of_further.
Qed.

Lemma collect_app results1 results2 (totals : gmap string Z) :
  FetchBigquery.collect (results1 ++ results2) totals
  = FetchBigquery.collect results2 (FetchBigquery.collect results1 totals).
Proof.
  revert totals. induction results1 as [|[mo [v|]] results1 IH]; intros totals;
    [done|apply IH|apply IH].
Qed.

Lemma collect_is_Some results (totals : gmap string Z) k :
  is_Some (FetchBigquery.collect results totals !! k)
  <-> is_Some (totals !! k) \/ exists v, (k, Some v) ∈ results.
Proof.
  revert totals. induction results as [|[mo [v|]] results IH]; intros totals.
  - cbn [FetchBigquery.collect]. split; [by left|].
    intros [?|[v Hv]]; [done|]. by apply elem_of_nil in Hv.
  - cbn [FetchBigquery.collect]. rewrite IH, lookup_insert_is_Some. split.
    + intros [[->|[_ H]]|[v' Hv']].
      * right. exists v. apply list_elem_of_here.
      * by left.
      * right. exists v'. by apply list_elem_of_further.
    + intros [H|[v' Hv']].
      * left. destruct (decide (mo = k)); [by left|by right].
      * apply elem_of_cons in Hv' as [[= -> ->]|Hv']; [left; by left|].
        right. by exists v'.
  - cbn [FetchBigquery.collect]. rewrite IH. split.
    + intros [H|[v' Hv']]; [by left|]. right. exists v'. by apply list_elem_of_further.
    + intros [H|[v' Hv']]; [by left|].
      apply elem_of_cons in Hv' as [[=]|Hv']. right. by exists v'.
Qed.

(** X18.  The result of the query holds a month exactly when a row of
    that month has a total that is not NULL; the value is that of the
    last such row.  A month whose total is NULL is left out. *)
Theorem query_months_with_null_total_are_left_out
    (data : FetchBigquery.dataset) start_month end_month k :
  let rows :=
    data (FetchBigquery._suffix start_month) (FetchBigquery._suffix end_month) in
  (FetchBigquery.fetch data start_month end_month !! k = None
   <-> forall v, (k, Some v) ∉ rows)
  /\ forall before v after,
       rows = before ++ (k, Some v) :: after ->
       (forall v', (k, Some v') ∉ after) ->
       FetchBigquery.fetch data start_month end_month !! k = Some v.
Proof.
  intros rows. unfold FetchBigquery.fetch. fold rows. split.
  - rewrite eq_None_not_Some, collect_is_Some, lookup_empty. split.
    + intros Hn v Hv. apply Hn. right. by exists v.
    + intros Hn [[? [=]]|[v Hv]]. by apply (Hn v).
  - intros before v after -> Hafter. rewrite collect_app.
    cbn [FetchBigquery.collect]. rewrite collect_keeps by done.
    apply lookup_insert_eq.
Qed.

Lemma collect_plain_keys results (totals : gmap string Z) :
  Forall (fun r : FetchBigquery.result_row => plain r.1 = true) results ->
  (forall k, k ∈ dom totals -> plain k = true) ->
  forall k, k ∈ dom (FetchBigquery.collect results totals) -> plain k = true.
Proof.
  intros Hrows Htot k [v Hk]%elem_of_dom.
  assert (His : is_Some (FetchBigquery.collect results totals !! k)) by (by exists v).
  apply collect_is_Some in His as [His|[v' Hv']].
  - by apply Htot, elem_of_dom.
  - rewrite Forall_forall in Hrows. by apply (Hrows _ Hv').
Qed.

(** X19.  Step 1 of [main()] on a cache file that loads.  With no month
    of the range missing the file is left as it is.  Otherwise one query
    is made, from the first missing month to the last, and the file
    written loads to the cache with the result of the query laid over
    it: a month of the result takes its value, every other month keeps
    the cached one, and a month of the range is still missing afterwards
    exactly when it was missing and the result does not have it. *)
Theorem step_one_lays_the_query_over_the_cache
    (data : FetchBigquery.dataset) file (existing : gmap string Z) y m ey em :
  CacheFile.load_existing_csv file = Some existing ->
  (forall k, k ∈ dom existing -> plain k = true) ->
  (forall s e, Forall (fun r : FetchBigquery.result_row => plain r.1 = true) (data s e)) ->
  let missing :=
    List.filter (fun mo => bool_decide (existing !! mo = None))
      (Main.all_months y m ey em) in
  exists file',
    Main.fetch_step data file y m ey em = Some file'
    /\ (missing = [] -> file' = file)
    /\ forall fetch_start rest,
         missing = fetch_start :: rest ->
         let new_totals :=
           FetchBigquery.fetch data fetch_start (List.last missing fetch_start) in
         exists merged,
           CacheFile.load_existing_csv file' = Some merged
           /\ (forall k v, new_totals !! k = Some v -> merged !! k = Some v)
           /\ (forall k, new_totals !! k = None -> merged !! k = existing !! k)
           /\ forall mo,
                mo ∈ Main.all_months y m ey em ->
                (merged !! mo = None <-> mo ∈ missing /\ new_totals !! mo = None).
Proof.
  intros Hload Hplain Hdata missing.
  destruct missing as [|fetch_start rest] eqn:Hmissing.
  - exists file. split; [|split; [done|done]].
    unfold Main.fetch_step. rewrite Hload. cbn [mbind option_bind].
    subst missing. by rewrite Hmissing.
  - eexists. split.
    { exact (fetch_step_saves_update data file existing y m ey em fetch_start rest
               Hload Hmissing). }
    split; [done|].
    intros fs rest' [= <- <-] new_totals.
    exists (Main.update existing new_totals). split; [|split; [|split]].
    + apply load_save_csv. intros k Hk. unfold Main.update in Hk.
      rewrite dom_union_L, elem_of_union in Hk. destruct Hk as [Hk|Hk]; [|by apply Hplain].
      revert Hk. apply collect_plain_keys; [apply Hdata|].
      intros k'. by rewrite dom_empty_L, elem_of_empty.
    + intros k v. apply bulk_update_overwrites.
    + intros k. apply bulk_update_keeps.
    + intros mo Hmo.
      assert (Hin : mo ∈ fetch_start :: rest <-> existing !! mo = None).
      { rewrite <- Hmissing. subst missing.
        rewrite list_elem_of_In, filter_In, bool_decide_eq_true, <- list_elem_of_In.
        tauto. }
      rewrite Hin. unfold Main.update. rewrite lookup_union_None. tauto.
Qed.

Lemma suffix_of_month a b c d m1 m2 :
  is_digit a = true -> is_digit b = true -> is_digit c = true ->
  is_digit d = true -> is_digit m1 = true -> is_digit m2 = true ->
  FetchBigquery._suffix
    (String a (String b (String c (String d (String "-" (String m1 (String m2 "")))))))
  = String a (String b (String c (String d (String m1 (String m2 ""))))).
Proof.
  intros Ha Hb Hc Hd Hm1 Hm2. cbn [FetchBigquery._suffix].
  rewrite (proj1 (first_digit_not_sign a Ha)), (proj1 (first_digit_not_sign b Hb)),
    (proj1 (first_digit_not_sign c Hc)), (proj1 (first_digit_not_sign d Hd)),
    (proj1 (first_digit_not_sign m1 Hm1)), (proj1 (first_digit_not_sign m2 Hm2)).
  reflexivity.
Qed.

(** X20.  On months of the form YYYY-MM, [_suffix] gives the six digits
    YYYYMM, and it keeps the order: the table suffixes between the two
    parameters of the query are those of the months between the two
    months. *)
Theorem suffix_keeps_the_order_of_months s1 s2 :
  wf_month s1 = true -> wf_month s2 = true ->
  String.length (FetchBigquery._suffix s1) = 6%nat
  /\ all_digits (FetchBigquery._suffix s1) = true
  /\ String.leb (FetchBigquery._suffix s1) (FetchBigquery._suffix s2)
     = String.leb s1 s2.
Proof.
  destruct s1 as [|a [|b [|c [|d [|sep [|m1 [|m2 [|]]]]]]]]; try done.
  destruct s2 as [|a' [|b' [|c' [|d' [|sep' [|m1' [|m2' [|]]]]]]]]; try done.
  unfold wf_month. rewrite !andb_true_iff.
  intros ((((((((Ha & Hb) & Hc) & Hd) & Hsep) & Hm1) & Hm2) & _) & _).
  intros ((((((((Ha' & Hb') & Hc') & Hd') & Hsep') & Hm1') & Hm2') & _) & _).
  apply Ascii.eqb_eq in Hsep as ->. apply Ascii.eqb_eq in Hsep' as ->.
  rewrite !suffix_of_month by done.
  split; [done|]. split.
  { cbn [all_digits]. by rewrite Ha, Hb, Hc, Hd, Hm1, Hm2. }
  unfold String.leb. cbn [String.compare].
  change (Ascii.compare "-" "-") with Eq.
  by destruct (Ascii.compare a a'), (Ascii.compare b b'), (Ascii.compare c c'),
    (Ascii.compare d d').
Qed.

End BulkPath.

Section BulkPathWitnesses.
Import Csv CacheFile.

Lemma step_one_lays_the_query_over_the_cache_witness :
  let data : FetchBigquery.dataset :=
    fun _ _ => [("2023-01", Some 120); ("2023-02", None); ("2023-03", Some 90)] in
  let file := Some (CacheFile.save_csv {["2023-01" := 100]}) in
  let existing : gmap string Z := {["2023-01" := 100]} in
  let missing :=
    List.filter (fun mo => bool_decide (existing !! mo = None))
      (Main.all_months 2023 1 2023 3) in
  exists file',
    Main.fetch_step data file 2023 1 2023 3 = Some file'
    /\ (missing = [] -> file' = file)
    /\ forall fetch_start rest,
         missing = fetch_start :: rest ->
         let new_totals :=
           FetchBigquery.fetch data fetch_start (List.last missing fetch_start) in
         exists merged,
           CacheFile.load_existing_csv file' = Some merged
           /\ (forall k v, new_totals !! k = Some v -> merged !! k = Some v)
           /\ (forall k, new_totals !! k = None -> merged !! k = existing !! k)
           /\ forall mo,
                mo ∈ Main.all_months 2023 1 2023 3 ->
                (merged !! mo = None <-> mo ∈ missing /\ new_totals !! mo = None).
Proof.
  apply (step_one_lays_the_query_over_the_cache
           (fun _ _ => [("2023-01", Some 120); ("2023-02", None); ("2023-03", Some 90)])
           (Some (CacheFile.save_csv {["2023-01" := 100]}))
           {["2023-01" := 100]} 2023 1 2023 3).
  - vm_compute. reflexivity.
  - apply well_formed_plain, well_formed_check. vm_compute. reflexivity.
  - intros s e. repeat constructor.
Defined.

Lemma suffix_keeps_the_order_of_months_witness :
  String.length (FetchBigquery._suffix "2023-11") = 6%nat
  /\ all_digits (FetchBigquery._suffix "2023-11") = true
  /\ String.leb (FetchBigquery._suffix "2023-11") (FetchBigquery._suffix "2024-02")
     = String.leb "2023-11" "2024-02".
Proof.
  apply (suffix_keeps_the_order_of_months "2023-11" "2024-02"); reflexivity.
Defined.

End BulkPathWitnesses.

(** ** The label lanes on any list of events *)

Section LaneFacts.

Variable min_day_gap : Z.

Lemma find_seq_at (p : nat -> bool) len lvl :
  (lvl < len)%nat -> p lvl = true -> (forall l', (l' < lvl)%nat -> p l' = false) ->
  List.find p (seq 0 len) = Some lvl.
Proof.
  intros Hlt Hp Hbefore.
  destruct (List.find p (seq 0 len)) as [l|] eqn:Hfind.
  - apply find_seq_first in Hfind as (Hr & Hl & Hmin). f_equal.
    destruct (lt_eq_lt_dec l lvl) as [[Hc|Hc]|Hc]; [|done|].
    + rewrite Hbefore in Hl by done. done.
    + rewrite Hmin in Hp by lia. done.
  - rewrite (find_seq_none p 0 len Hfind lvl) in Hp by lia. done.
Qed.

Lemma find_seq_all_false (p : nat -> bool) len :
  (forall l', (l' < len)%nat -> p l' = false) -> List.find p (seq 0 len) = None.
Proof.
  intros H. destruct (List.find p (seq 0 len)) as [l|] eqn:Hfind; [|done].
  apply find_seq_first in Hfind as (Hr & Hl & _). rewrite H in Hl by lia. done.
Qed.

Lemma first_lane_bound (st : gmap nat date) d :
  (default 0%nat (first_lane st d min_day_gap) < ANNOTATION_LEVELS)%nat.
Proof.
  unfold first_lane. destruct (List.find _ _) as [lvl|] eqn:Hfind; simpl.
  - apply find_seq_first in Hfind as (Hr & _). lia.
  - unfold ANNOTATION_LEVELS. lia.
Qed.

(** X21.  Whatever the events and their order, [assign_levels] gives one
    lane to each event, every lane is one of the six, and the first event
    is on lane 0. *)
Theorem assign_levels_stays_within_the_lanes events :
  length (assign_levels events min_day_gap) = length events
  /\ Forall (fun lvl => (lvl < ANNOTATION_LEVELS)%nat) (assign_levels events min_day_gap)
  /\ head (assign_levels events min_day_gap) = (fun _ => 0%nat) <$> head events.
Proof.
  unfold assign_levels. split; [apply assign_from_length|]. split.
  - generalize (∅ : gmap nat date).
    induction events as [|e es IH]; intros st; [constructor|].
    cbn [assign_from]. constructor; [apply first_lane_bound|apply IH].
  - destruct events as [|e es]; [done|]. cbn [assign_from head fmap option_fmap option_map].
    reflexivity.
Qed.

(** Events each at least the gap after the one before: lane 0 is free
    again every time. *)
Lemma spread_out_from (st : gmap nat date) events :
  (forall last, st !! 0%nat = Some last ->
     forall e, head events = Some e -> min_day_gap <= days_between (ev_date e) last) ->
  (forall i a b, events !! i = Some a -> events !! S i = Some b ->
     min_day_gap <= days_between (ev_date b) (ev_date a)) ->
  assign_from st events min_day_gap = replicate (length events) 0%nat.
Proof.
  revert st. induction events as [|e es IH]; intros st Hst Hchain; [done|].
  cbn [assign_from length replicate].
  assert (Hzero : first_lane st (ev_date e) min_day_gap = Some 0%nat).
  { unfold first_lane.
    apply find_seq_at; [unfold ANNOTATION_LEVELS; lia| |lia].
    unfold lane_ok. destruct (st !! 0%nat) as [last|] eqn:Hlast; [|done].
    apply Z.leb_le. by apply (Hst last). }
  rewrite Hzero. cbn [default]. f_equal. apply IH.
  - intros last Hlast e' He'. rewrite lookup_insert_eq in Hlast.
    injection Hlast as <-. apply (Hchain 0%nat e e'); [done|].
    by destruct es.
  - intros i a b Ha Hb. by apply (Hchain (S i) a b).
Qed.

(** X22.  When every event is at least the gap after the one before it,
    every event is on lane 0. *)
Theorem events_spread_out_all_on_lane_zero events :
  (forall i a b, events !! i = Some a -> events !! S i = Some b ->
     min_day_gap <= days_between (ev_date b) (ev_date a)) ->
  assign_levels events min_day_gap = replicate (length events) 0%nat.
Proof.
  intros Hchain. unfold assign_levels. apply spread_out_from; [|done].
  intros last Hlast. by rewrite lookup_empty in Hlast.
Qed.

(** Events all less than the gap from each other, with the lanes below
    [j] taken by dates just as close: the lanes fill up in order, then
    everything falls back on lane 0. *)
Lemma crowded_from (st : gmap nat date) events j :
  (j <= ANNOTATION_LEVELS)%nat ->
  (forall lvl, is_Some (st !! lvl) <-> (lvl < j)%nat) ->
  (forall lvl last e, st !! lvl = Some last -> e ∈ events ->
     days_between (ev_date e) last < min_day_gap) ->
  (forall e e', e ∈ events -> e' ∈ events ->
     days_between (ev_date e) (ev_date e') < min_day_gap) ->
  assign_from st events min_day_gap
  = map (fun k => if (j + k <? ANNOTATION_LEVELS)%nat then (j + k)%nat else 0%nat)
        (seq 0 (length events)).
Proof.
  revert st j. induction events as [|e es IH]; intros st j Hj Hdom Hst Hclose; [done|].
  cbn [assign_from length seq map].
  assert (Htaken : forall l', (l' < j)%nat -> lane_ok st (ev_date e) min_day_gap l' = false).
  { intros l' Hl'. unfold lane_ok.
    destruct (st !! l') as [last|] eqn:Hlast.
    - apply Z.leb_gt. apply (Hst l' last e Hlast), list_elem_of_here.
    - apply Hdom in Hl' as [? Hl']. congruence. }
  assert (Hlane : default 0%nat (first_lane st (ev_date e) min_day_gap)
                  = if (j + 0 <? ANNOTATION_LEVELS)%nat then (j + 0)%nat else 0%nat).
  { unfold first_lane. rewrite Nat.add_0_r.
    destruct (Nat.ltb_spec j ANNOTATION_LEVELS) as [Hlt|Hge].
    - rewrite (find_seq_at _ ANNOTATION_LEVELS j); [done|done| |done].
      unfold lane_ok. destruct (st !! j) as [last|] eqn:Hlast; [|done].
      assert (j < j)%nat by (apply Hdom; by exists last). lia.
    - rewrite find_seq_all_false; [done|]. intros l' Hl'. apply Htaken. lia. }
  rewrite Hlane. f_equal.
  set (a := if (j + 0 <? ANNOTATION_LEVELS)%nat then (j + 0)%nat else 0%nat).
  rewrite (IH _ (if (j <? ANNOTATION_LEVELS)%nat then S j else j)).
  - rewrite <- seq_shift, map_map. apply map_ext. intros k.
    destruct (Nat.ltb_spec j ANNOTATION_LEVELS).
    + by replace (S j + k)%nat with (j + S k)%nat by lia.
    + destruct (Nat.ltb_spec (j + k) ANNOTATION_LEVELS),
        (Nat.ltb_spec (j + S k) ANNOTATION_LEVELS); try done; lia.
  - destruct (Nat.ltb_spec j ANNOTATION_LEVELS); lia.
  - intros lvl. rewrite lookup_insert_is_Some, Hdom. subst a. rewrite Nat.add_0_r.
    destruct (Nat.ltb_spec j ANNOTATION_LEVELS);
      destruct (decide (j = lvl)), (decide (0%nat = lvl));
      unfold ANNOTATION_LEVELS in *; split; intros; try lia;
      try (left; lia); try (right; split; lia).
  - intros lvl last e' Hlast He'.
    destruct (decide (a = lvl)) as [<-|Hne].
    + rewrite lookup_insert_eq in Hlast. injection Hlast as <-.
      apply Hclose; [by apply list_elem_of_further|apply list_elem_of_here].
    + rewrite lookup_insert_ne in Hlast by done.
      apply (Hst lvl last e' Hlast). by apply list_elem_of_further.
  - intros e1 e2 H1 H2. apply Hclose; by apply list_elem_of_further.
Qed.

(** X23.  When all the events are less than the gap from each other, the
    first six take the lanes 0 to 5 in order and every later one falls
    back on lane 0, on top of the labels already there. *)
Theorem crowded_events_fill_the_lanes_then_overlap events :
  (forall e e', e ∈ events -> e' ∈ events ->
     days_between (ev_date e) (ev_date e') < min_day_gap) ->
  assign_levels events min_day_gap
  = map (fun k => if (k <? ANNOTATION_LEVELS)%nat then k else 0%nat)
        (seq 0 (length events)).
Proof.
  intros Hclose. unfold assign_levels.
  rewrite (crowded_from ∅ events 0); [done|lia| | |done].
  - intros lvl. rewrite lookup_empty. split; [by intros [? [=]]|lia].
  - intros lvl last e Hlast. by rewrite lookup_empty in Hlast.
Qed.

End LaneFacts.

Section LaneWitnesses.

Lemma events_spread_out_all_on_lane_zero_witness :
  let events := [ mkevent "GPT-3" "OpenAI" (mkdate 2020 6 11) "#10a37f";
                  mkevent "GitHub Copilot" "Microsoft" (mkdate 2021 6 29) "#00a4ef" ] in
  assign_levels events MIN_DAY_GAP = replicate (length events) 0%nat.
Proof.
  apply (events_spread_out_all_on_lane_zero MIN_DAY_GAP
           [ mkevent "GPT-3" "OpenAI" (mkdate 2020 6 11) "#10a37f";
             mkevent "GitHub Copilot" "Microsoft" (mkdate 2021 6 29) "#00a4ef" ]).
  intros [|[|i]] a b Ha Hb; try discriminate Hb.
  injection Ha as <-. injection Hb as <-. vm_compute. discriminate.
Defined.

Lemma crowded_events_fill_the_lanes_then_overlap_witness :
  let events := [ mkevent "GPT-4" "OpenAI" (mkdate 2023 3 14) "#10a37f";
                  mkevent "Claude 1" "Anthropic" (mkdate 2023 3 14) "#c97d4e" ] in
  assign_levels events MIN_DAY_GAP
  = map (fun k => if (k <? ANNOTATION_LEVELS)%nat then k else 0%nat)
        (seq 0 (length events)).
Proof.
  apply (crowded_events_fill_the_lanes_then_overlap MIN_DAY_GAP
           [ mkevent "GPT-4" "OpenAI" (mkdate 2023 3 14) "#10a37f";
             mkevent "Claude 1" "Anthropic" (mkdate 2023 3 14) "#c97d4e" ]).
  intros e e' He He'.
  repeat (apply elem_of_cons in He as [->|He]);
    repeat (apply elem_of_cons in He' as [->|He']);
    try (by apply elem_of_nil in He); try (by apply elem_of_nil in He');
    vm_compute; reflexivity.
Defined.

End LaneWitnesses.

(** ** The events handed to the chart *)

Section ChartFacts.
Import Visualize Chart.

Lemma date_leb_refl a : date_leb a a = true.
Proof.
  unfold date_leb. rewrite Z.eqb_refl, Z.leb_refl. apply orb_true_r.
Qed.

Lemma min_date_spec df :
  df <> [] ->
  exists d, min_date df = Some d /\ d ∈ map r_date df
            /\ Forall (fun r => date_leb d (r_date r) = true) df.
Proof.
  induction df as [|r df IH]; [done|]. intros _. cbn [min_date map].
  destruct df as [|r' df'].
  { exists (r_date r). split; [done|]. split; [apply list_elem_of_here|].
    constructor; [apply date_leb_refl|constructor]. }
  destruct IH as (d & -> & Hin & Hall); [done|].
  destruct (date_leb (r_date r) d) eqn:Hle.
  - exists (r_date r). split; [done|]. split; [apply list_elem_of_here|].
    constructor; [apply date_leb_refl|].
    eapply Forall_impl; [exact Hall|]. intros x Hx. by eapply date_leb_trans.
  - exists d. split; [done|]. split; [by apply list_elem_of_further|].
    constructor; [by apply date_leb_total|done].
Qed.

Lemma max_date_spec df :
  df <> [] ->
  exists d, max_date df = Some d /\ d ∈ map r_date df
            /\ Forall (fun r => date_leb (r_date r) d = true) df.
Proof.
  induction df as [|r df IH]; [done|]. intros _. cbn [max_date map].
  destruct df as [|r' df'].
  { exists (r_date r). split; [done|]. split; [apply list_elem_of_here|].
    constructor; [apply date_leb_refl|constructor]. }
  destruct IH as (d & -> & Hin & Hall); [done|].
  destruct (date_leb d (r_date r)) eqn:Hle.
  - exists (r_date r). split; [done|]. split; [apply list_elem_of_here|].
    constructor; [apply date_leb_refl|].
    eapply Forall_impl; [exact Hall|]. intros x Hx. cbv beta in Hx.
    by eapply date_leb_trans.
  - exists d. split; [done|]. split; [by apply list_elem_of_further|].
    constructor; [by apply date_leb_total|done].
Qed.

(** X24.  For a frame with rows, the events given to the chart are those
    of the catalogue from the first day of the first month of the frame
    to the first day of its last month.  So every event of a month
    before the last one is there, and of the last month only the events
    dated the first: an event later in that month is not charted. *)
Theorem chart_events_stop_at_first_day_of_last_month df :
  df <> [] ->
  exists first last events,
    min_date df = Some first /\ max_date df = Some last
    /\ first ∈ map r_date df /\ last ∈ map r_date df
    /\ Forall (fun r => date_leb first (r_date r) = true
                        /\ date_leb (r_date r) last = true) df
    /\ chart_events df = Some events
    /\ (forall e, e ∈ events <->
          e ∈ get_events_as_dicts
          /\ Dates.le (first_day first) (ev_date e) = true
          /\ Dates.le (ev_date e) (first_day last) = true)
    /\ (forall e, e ∈ get_events_as_dicts -> 1 <= day (ev_date e) ->
          date_leb first (year (ev_date e), month (ev_date e)) = true ->
          date_leb last (year (ev_date e), month (ev_date e)) = false ->
          e ∈ events)
    /\ (forall e, (year (ev_date e), month (ev_date e)) = last ->
          1 < day (ev_date e) -> e ∉ events).
Proof.
  intros Hne.
  destruct (min_date_spec df Hne) as (first & Hmin & Hfin & Hfall).
  destruct (max_date_spec df Hne) as (last & Hmax & Hlin & Hlall).
  exists first, last, (get_events_in_range (first_day first) (first_day last)).
  assert (Hmem : forall e,
             e ∈ get_events_in_range (first_day first) (first_day last) <->
             e ∈ get_events_as_dicts
             /\ Dates.le (first_day first) (ev_date e) = true
             /\ Dates.le (ev_date e) (first_day last) = true).
  { intros e. unfold get_events_in_range, in_range.
    rewrite list_elem_of_In, filter_In, andb_true_iff, <- list_elem_of_In. tauto. }
  split; [done|]. split; [done|]. split; [done|]. split; [done|]. split.
  { rewrite Forall_forall in Hfall, Hlall |- *. intros r Hr. split; auto. }
  split; [unfold chart_events; by rewrite Hmin, Hmax|]. split; [done|]. split.
  - intros e He Hday Hfirst Hlast. apply Hmem. split; [done|].
    destruct first as [fy fm], last as [ly lm]. unfold date_leb in Hfirst, Hlast.
    cbn [fst snd] in Hfirst, Hlast.
    assert (Hf : fy < year (ev_date e)
                 \/ (fy = year (ev_date e) /\ fm <= month (ev_date e))).
    { apply orb_true_iff in Hfirst as [H'|H'].
      - left. by apply Z.ltb_lt.
      - right. apply andb_true_iff in H' as [H1' H2'].
        split; [by apply Z.eqb_eq|by apply Z.leb_le]. }
    assert (Hl : year (ev_date e) <= ly
                 /\ (ly <> year (ev_date e) \/ month (ev_date e) < lm)).
    { apply orb_false_iff in Hlast as [Hl1 Hl2]. apply Z.ltb_ge in Hl1.
      split; [done|]. apply andb_false_iff in Hl2 as [H'|H'].
      - left. by apply Z.eqb_neq.
      - right. by apply Z.leb_gt. }
    clear Hfirst Hlast.
    unfold Dates.le, first_day. cbn [year month day fst snd].
    split;
      repeat match goal with
             | |- context [?x <? ?y] => destruct (Z.ltb_spec x y)
             end;
      first [done | apply Z.leb_le; lia | exfalso; lia].
  - intros e Hlast Hday [_ [_ Hle]]%Hmem. subst last.
    unfold Dates.le, first_day in Hle. cbn [year month day fst snd] in Hle.
    rewrite !Z.ltb_irrefl in Hle. apply Z.leb_le in Hle. lia.
Qed.

End ChartFacts.

Section ChartWitnesses.
Import Visualize Chart.

Lemma chart_events_stop_at_first_day_of_last_month_witness :
  let df := [mkrow "2025-03" 10 (2025, 3); mkrow "2025-04" 12 (2025, 4)] in
  exists first last events,
    min_date df = Some first /\ max_date df = Some last
    /\ first ∈ map r_date df /\ last ∈ map r_date df
    /\ Forall (fun r => date_leb first (r_date r) = true
                        /\ date_leb (r_date r) last = true) df
    /\ chart_events df = Some events
    /\ (forall e, e ∈ events <->
          e ∈ get_events_as_dicts
          /\ Dates.le (first_day first) (ev_date e) = true
          /\ Dates.le (ev_date e) (first_day last) = true)
    /\ (forall e, e ∈ get_events_as_dicts -> 1 <= day (ev_date e) ->
          date_leb first (year (ev_date e), month (ev_date e)) = true ->
          date_leb last (year (ev_date e), month (ev_date e)) = false ->
          e ∈ events)
    /\ (forall e, (year (ev_date e), month (ev_date e)) = last ->
          1 < day (ev_date e) -> e ∉ events).
Proof.
  apply (chart_events_stop_at_first_day_of_last_month
           [mkrow "2025-03" 10 (2025, 3); mkrow "2025-04" 12 (2025, 4)]).
  discriminate.
Defined.

End ChartWitnesses.
